(** * matscipy: the generic many-body (bond-order) calculator

    A shallow embedding of [matscipy/calculators/manybody/calculator.py].

    Conventions of the embedding:
    - floating-point numbers are real numbers (exact arithmetic);
    - a one-dimensional numpy array is a [list]; an array with trailing
      Cartesian axes of length three is a list of functions of a Cartesian
      index ([vec3], [mat3], [ten3], [ten4]);
    - a Python exception is a [Raise] in the [result] monad;
    - the calculator instance is its attribute dictionary, a finite map
      from attribute names to Python values;
    - the functions imported from [matscipy.neighbours], scipy's [cg] and
      the calculator attached to an [Atoms] object are interfaces
      (type classes), since their code is not part of this module. *)

From Stdlib Require Import Reals Lra ZArith.
From stdpp Require Import base option list gmap strings.

Open Scope R_scope.

(** ** Exceptions *)

Inductive exn : Type :=
| AttributeError (attr : string)
| IndexError
| KeyError
| ValueError
| TypeError
| NameError (name : string)
| RuntimeError (msg : string).

Inductive result (A : Type) : Type :=
| Ok (a : A)
| Raise (e : exn).
Arguments Ok {A} a.
Arguments Raise {A} e.

Definition bind {A B : Type} (m : result A) (k : A -> result B) : result B :=
  match m with
  | Ok a => k a
  | Raise e => Raise e
  end.

Notation "'let*' x ':=' m 'in' k" := (bind m (fun x => k))
  (at level 10, x pattern, m at level 100, k at level 200).

Definition of_option {A : Type} (e : exn) (o : option A) : result A :=
  match o with
  | Some a => Ok a
  | None => Raise e
  end.

Fixpoint mapM {A B : Type} (f : A -> result B) (l : list A) : result (list B) :=
  match l with
  | [] => Ok []
  | a :: l' => let* b := f a in let* bs := mapM f l' in Ok (b :: bs)
  end.

(** ** Cartesian tensors *)

Inductive cart : Type := cx | cy | cz.

Definition carts : list cart := [cx; cy; cz].

#[export] Instance cart_eq_dec : EqDecision cart.
Proof. solve_decision. Defined.

Definition vec3 : Type := cart -> R.
Definition mat3 : Type := cart -> cart -> R.
Definition ten3 : Type := cart -> cart -> cart -> R.
Definition ten4 : Type := cart -> cart -> cart -> cart -> R.

Definition mk3 (x y z : R) : vec3 :=
  fun c => match c with cx => x | cy => y | cz => z end.

(** Values that can be accumulated: numbers and arrays of numbers. *)
Class Additive (T : Type) : Type := { zero : T; add : T -> T -> T; opp : T -> T; scal : R -> T -> T }.

#[export] Instance R_additive : Additive R :=
  {| zero := 0; add := Rplus; opp := Ropp; scal := Rmult |}.

#[export] Instance fun_additive {I T : Type} `{Additive T} : Additive (I -> T) :=
  {| zero := fun _ => zero;
     add := fun f g i => add (f i) (g i);
     opp := fun f i => opp (f i);
     scal := fun a f i => scal a (f i) |}.

Definition sub {T : Type} `{Additive T} (a b : T) : T := add a (opp b).

(** [np.sum(a, axis=0)] *)
Definition asum {T : Type} `{Additive T} (l : list T) : T := foldr add zero l.
Arguments asum {T _} l : simpl never.

(** Elementwise array arithmetic (equal shapes). *)
Definition aadd {T : Type} `{Additive T} (a b : list T) : list T := zip_with add a b.
Definition asub {T : Type} `{Additive T} (a b : list T) : list T := zip_with sub a b.

(** [(a_p * x_pc.T).T]: every row scaled by its own factor. *)
Definition ascal {T : Type} `{Additive T} (a : list R) (x : list T) : list T :=
  zip_with scal a x.

(** [x / a] for a scalar [a]. *)
Definition adiv {T : Type} `{Additive T} (x : list T) (a : R) : list T :=
  map (scal (/ a)) x.

(** The outer product helper [_o(x, y, z=None, t=None)], one batch row at a
    time; the Python function reshapes and broadcasts whole batches. *)
Definition outer2 (x y : vec3) : mat3 := fun a b => x a * y b.
Definition outer3 (x y z : vec3) : ten3 := fun a b c => x a * y b * z c.
Definition outer4 (x y z t : vec3) : ten4 := fun a b c d => x a * y b * z c * t d.

Definition _o (x y : list vec3) : list mat3 := zip_with outer2 x y.
Definition _o3 (x y z : list vec3) : list ten3 :=
  zip_with (fun xy z => outer3 (fst xy) (snd xy) z) (zip x y) z.
Definition _o4 (x y z t : list vec3) : list ten4 :=
  zip_with (fun xy zt => outer4 (fst xy) (snd xy) (fst zt) (snd zt)) (zip x y) (zip z t).

(** ** numpy primitives *)

(** Fancy indexing [a[idx]]: an index outside the array raises. *)
Definition take {A : Type} (a : list A) (idx : list nat) : result (list A) :=
  mapM (fun i => of_option IndexError (a !! i)) idx.

(** Accumulation of weights into the bins named by [x]. *)
Fixpoint scatter_add {T : Type} `{Additive T} (acc : list T) (x : list nat) (w : list T)
  : list T :=
  match x, w with
  | i :: x', wi :: w' => scatter_add (alter (fun a => add a wi) i acc) x' w'
  | _, _ => acc
  end.

(** Length of the result of [np.bincount]: large enough for every bin. *)
Definition bincount_length (x : list nat) (minlength : nat) : nat :=
  foldr (fun i m => Nat.max (S i) m) minlength x.

(** [np.bincount(x, weights=weights, minlength=minlength)] *)
Definition bincount (x : list nat) (weights : list R) (minlength : nat) : result (list R) :=
  if decide (length x = length weights)
  then Ok (scatter_add (replicate (bincount_length x minlength) 0) x weights)
  else Raise ValueError.

(** Modelled from the spec: [mabincount] of [matscipy.numpy_tricks] is not in
    this module.  The spec describes it as a scatter-add onto atom or pair
    indices, "a mapping from key to running sum, built by iterating
    contributions and adding into pre-sized buffers"; the buffer has
    [minlength] rows, and a key outside the buffer, or a weight array of
    another length than the keys, is an error. *)
Definition mabincount {T : Type} `{Additive T} (x : list nat) (weights : list T)
    (minlength : nat) : result (list T) :=
  if decide (length x = length weights)
  then if decide (Forall (fun i => (i < minlength)%nat) x)
       then Ok (scatter_add (replicate minlength zero) x weights)
       else Raise ValueError
  else Raise ValueError.

(** Assignment [target[:] = value] into a slice of [n] entries: the value
    has [n] entries, or one entry that is repeated. *)
Definition assign_broadcast {A : Type} (n : nat) (value : list A) : result (list A) :=
  if decide (length value = n) then Ok value
  else match value with
       | [v] => Ok (replicate n v)
       | _ => Raise ValueError
       end.

(** Elementwise operation on two arrays with numpy's broadcasting rule along
    the first axis: equal lengths, or one operand with a single row. *)
Definition broadcast2 {A B C : Type} (f : A -> B -> C) (a : list A) (b : list B)
  : result (list C) :=
  if decide (length a = length b) then Ok (zip_with f a b)
  else match a, b with
       | [x], _ => Ok (map (f x) b)
       | _, [y] => Ok (map (fun x => f x y) a)
       | _, _ => Raise ValueError
       end.

Definition zip3_with {A B C D : Type} (f : A -> B -> C -> D)
    (a : list A) (b : list B) (c : list C) : list D :=
  zip_with (fun ab c => f ab.1 ab.2 c) (zip a b) c.

Definition zip4_with {A B C D E : Type} (f : A -> B -> C -> D -> E)
    (a : list A) (b : list B) (c : list C) (d : list D) : list E :=
  zip_with (fun ab cd => f ab.1 ab.2 cd.1 cd.2) (zip a b) (zip c d).

(** [a > b] on floats. *)
Definition Rgtb (a b : R) : bool := if Rlt_dec b a then true else false.

(** The 3 x 3 identity [np.eye(3)]. *)
Definition eye : mat3 := fun a b => if decide (a = b) then 1 else 0.

(** [m.transpose(0, 2, 1)], one block. *)
Definition transpose (m : mat3) : mat3 := fun a b => m b a.

(** [(v * w).sum(axis=1)], one row. *)
Definition dot (v w : vec3) : R := asum (map (fun c => v c * w c) carts).

(** [(m * v.reshape(-1, 3, 1)).sum(axis=1)], one row: contraction of the
    first index of [m] with [v]. *)
Definition contract1 (m : mat3) (v : vec3) : vec3 :=
  fun b => asum (map (fun a => m a b * v a) carts).

(** [(v.reshape(-1, 1, 3) * m).sum(axis=2)], one row: contraction of the
    second index of [m] with [v]. *)
Definition contract2 (v : vec3) (m : mat3) : vec3 :=
  fun a => asum (map (fun b => v b * m a b) carts).

(** Position of a Cartesian index. *)
Definition cart_index (c : cart) : nat :=
  match c with cx => 0 | cy => 1 | cz => 2 end.

(** The 3 x 3 x 3 array filled, in row-major order, from 27 values. *)
Definition tabulate3 (l : list R) : ten3 :=
  fun a b c => nth (9 * cart_index a + 3 * cart_index b + cart_index c) l 0.

(** The names bound at module level: imports, [_o] and the class. *)
Definition module_globals : list string :=
  [ "np"; "cg"; "ase"; "bsr_matrix"; "Calculator"; "Voigt_6_to_full_3x3_stress";
    "find_indices_of_reversed_pairs"; "first_neighbours"; "neighbour_list";
    "triplet_list"; "mabincount"; "_o"; "Manybody" ].

(** Reading, as an array, a name that no statement of the function assigns:
    Python looks it up among the module globals. *)
Definition global_array (name : string) : result (list R) :=
  if decide (name ∈ module_globals) then Raise TypeError else Raise (NameError name).

(** ** The configuration and the neighbour-list interface *)

(** The part of an [ase.Atoms] object this module reads: [atoms.numbers],
    [atoms.get_masses()] and [atoms.get_volume()]; [len(atoms)] is the
    number of atoms.  [atoms.positions], an array of shape (N, 3), is what
    the neighbour list is built from. *)
Record Atoms : Type := {
  numbers : list Z;
  positions : list vec3;
  masses : list R;
  volume : R
}.

Definition len (atoms : Atoms) : nat := length (numbers atoms).

(** One entry of a neighbour list requested with the quantities ['ijdD']:
    owner atom, neighbour atom, distance and distance vector. *)
Record Pair : Type := {
  pair_i : nat;
  pair_j : nat;
  pair_d : R;
  pair_D : vec3
}.

(** The functions imported from [matscipy.neighbours].  [triplet_list]
    called with [first_n] alone returns the two index arrays
    [(ij_t, ik_t)]; called with five arguments it also returns [jk_t].
    The index pointer [first_n] is an array of natural numbers here: this
    module passes it on to [triplet_list] and to [bsr_matrix] and never
    reads an entry.  What it must satisfy for the sparse Hessian is the
    predicate [owner_ranges] below. *)
Class Neighbours : Type := {
  neighbour_list : Atoms -> R -> list Pair;
  first_neighbours : nat -> list nat -> list nat;
  triplet_list : list nat -> list (nat * nat);
  triplet_list_jk : list nat -> list R -> R -> list nat -> list nat -> list (nat * nat * nat);
  find_indices_of_reversed_pairs : list nat -> list nat -> list R -> list nat
}.

(** ** Python values and the calculator instance *)

(** Signature of the [phi] family: [(R_p, r_p, xi_p, ti_p, tij_p)]. *)
Definition phi_fn : Type := R -> R -> R -> nat -> nat -> R.

(** Signature of the [theta] family:
    [(Rij_t, rij_t, Rik_t, rik_t, Rjk_t, rjk_t, ti_t, tij_t, tik_t)]. *)
Definition theta_fn : Type := R -> R -> R -> R -> R -> R -> nat -> nat -> nat -> R.

(** Signatures at the call sites of the [G] family
    [(r_pc[ij_t], r_pc[ik_t], ti_t, tij_t, tik_t)] and of the [F] family
    [(r_p, xi_p, ti_p, tij_p)]. *)
Definition G_fn (T : Type) : Type := vec3 -> vec3 -> nat -> nat -> nat -> T.
Definition F_fn : Type := R -> R -> nat -> nat -> R.

(** [self.cutoff]: a scalar, or a table indexed by the pair type. *)
Inductive cutoff_spec : Type :=
| CutoffScalar (c : R)
| CutoffTable (t : gmap nat R).

(** The dictionary stored in [self.results]. *)
Record Results : Type := {
  free_energy : R;
  energy : R;
  stress : list R;
  forces : list vec3
}.

Inductive pyval : Type :=
| PyNone
| PyEmptyDict
| PyAtomType (f : Z -> nat)
| PyPairType (f : nat -> nat -> nat)
| PyPhi (f : phi_fn)
| PyTheta (f : theta_fn)
| PyG (f : G_fn R)
| PyGc (f : G_fn vec3)
| PyGcc (f : G_fn mat3)
| PyF (f : F_fn)
| PyCutoff (c : cutoff_spec)
| PyAtoms (a : Atoms)
| PyResults (r : Results).

(** A calculator instance is its attribute dictionary. *)
Abbreviation object := (gmap string pyval).

Definition getattr (self : object) (name : string) : result pyval :=
  of_option (AttributeError name) (self !! name).

Definition setattr (self : object) (name : string) (v : pyval) : object :=
  <[name := v]> self.

(** Calling an attribute: a value of another kind is not callable with
    these arguments. *)
Definition attr_atom_type (self : object) : result (Z -> nat) :=
  let* v := getattr self "atom_type" in
  match v with PyAtomType f => Ok f | _ => Raise TypeError end.

Definition attr_pair_type (self : object) : result (nat -> nat -> nat) :=
  let* v := getattr self "pair_type" in
  match v with PyPairType f => Ok f | _ => Raise TypeError end.

Definition attr_phi (self : object) (name : string) : result phi_fn :=
  let* v := getattr self name in
  match v with PyPhi f => Ok f | _ => Raise TypeError end.

Definition attr_theta (self : object) (name : string) : result theta_fn :=
  let* v := getattr self name in
  match v with PyTheta f => Ok f | _ => Raise TypeError end.

Definition attr_G (self : object) (name : string) : result (G_fn R) :=
  let* v := getattr self name in
  match v with PyG f => Ok f | _ => Raise TypeError end.

Definition attr_Gc (self : object) (name : string) : result (G_fn vec3) :=
  let* v := getattr self name in
  match v with PyGc f => Ok f | _ => Raise TypeError end.

Definition attr_Gcc (self : object) (name : string) : result (G_fn mat3) :=
  let* v := getattr self name in
  match v with PyGcc f => Ok f | _ => Raise TypeError end.

Definition attr_F (self : object) (name : string) : result F_fn :=
  let* v := getattr self name in
  match v with PyF f => Ok f | _ => Raise TypeError end.

(** [self.atoms], when it holds a configuration. *)
Definition attr_atoms (self : object) : result Atoms :=
  let* v := getattr self "atoms" in
  match v with PyAtoms a => Ok a | _ => Raise TypeError end.

(** Modelled from the spec: the potential functions are "vectorized over
    batches of pairs or triplets", "returning one value per batch element";
    a call on arrays applies the scalar function row by row. *)
Definition call_phi (f : phi_fn) (R_p r_p xi_p : list R) (ti_p tij_p : list nat) : list R :=
  zip_with (fun a t => f a.1.1 a.1.2 a.2 t.1 t.2) (zip (zip R_p r_p) xi_p) (zip ti_p tij_p).

Definition call_theta (f : theta_fn) (Rij_t rij_t Rik_t rik_t Rjk_t rjk_t : list R)
    (ti_t tij_t tik_t : list nat) : list R :=
  zip_with (fun a t => f a.1.1.1 a.1.1.2 a.1.2.1 a.1.2.2 a.2.1 a.2.2 t.1.1 t.1.2 t.2)
    (zip (zip (zip Rij_t rij_t) (zip Rik_t rik_t)) (zip Rjk_t rjk_t))
    (zip (zip ti_t tij_t) tik_t).

Definition call_G {T : Type} (f : G_fn T) (rij_tc rik_tc : list vec3)
    (ti_t tij_t tik_t : list nat) : list T :=
  zip_with (fun a t => f a.1 a.2 t.1.1 t.1.2 t.2) (zip rij_tc rik_tc)
    (zip (zip ti_t tij_t) tik_t).

Definition call_F (f : F_fn) (r_p xi_p : list R) (ti_p tij_p : list nat) : list R :=
  zip_with (fun a t => f a.1 a.2 t.1 t.2) (zip r_p xi_p) (zip ti_p tij_p).

(** The type functions applied to arrays. *)
Definition call_pair_type (f : nat -> nat -> nat) (a b : list nat) : list nat :=
  zip_with f a b.

(** ** Sparse matrices of 3 x 3 blocks *)

(** [bsr_matrix((data, indices, indptr), shape=shape)]: block row [a] holds
    the blocks [data[indptr[a] : indptr[a + 1]]], at the block columns
    [indices[indptr[a] : indptr[a + 1]]]. *)
Record bsr_matrix : Type := {
  bsr_data : list mat3;
  bsr_indices : list nat;
  bsr_indptr : list nat;
  bsr_shape : nat * nat
}.

(** A sparse matrix: a block-sparse-row matrix or a sum of sparse matrices. *)
Inductive sparse : Type :=
| Bsr (m : bsr_matrix)
| SparseAdd (a b : sparse).

(** What [get_hessian] returns: a sparse matrix, the neighbour-list tuple
    [(H_pcc / 2, i_p, j_p, r_pc, r_p)], or [None] for another format. *)
Inductive hessian_out : Type :=
| HessianSparse (H : sparse)
| HessianNeighbourList (H_pcc : list mat3) (i_p j_p : list nat) (r_pc : list vec3)
    (r_p : list R)
| HessianNone.

(** The slice [l[lo : hi]]. *)
Definition slice {A : Type} (l : list A) (lo hi : nat) : list A :=
  firstn (hi - lo) (skipn lo l).

(** Block [(a, b)] of a sparse matrix; blocks stored twice at one position
    add up. *)
Definition bsr_block (m : bsr_matrix) (a b : nat) : mat3 :=
  match bsr_indptr m !! a, bsr_indptr m !! (S a) with
  | Some lo, Some hi =>
      asum (map snd (filter (fun kv => kv.1 = b)
                       (zip (slice (bsr_indices m) lo hi) (slice (bsr_data m) lo hi))))
  | _, _ => zero
  end.

Fixpoint block (H : sparse) (a b : nat) : mat3 :=
  match H with
  | Bsr m => bsr_block m a b
  | SparseAdd H1 H2 => add (block H1 a b) (block H2 a b)
  end.

(** [np.arange(n)] *)
Definition arange (n : nat) : list nat := seq 0 n.

Module Manybody.

(** [Calculator.__init__(self)] of ASE, as far as this module reads what it
    sets: no configuration and an empty result dictionary. *)
Definition Calculator__init__ (self : object) : object :=
  setattr (setattr self "atoms" PyNone) "results" PyEmptyDict.

(** [Manybody.__init__] *)
Definition __init__ (atom_type : Z -> nat) (pair_type : nat -> nat -> nat)
    (phi d1phi d2phi d11phi d12phi d22phi : phi_fn)
    (theta d1theta d2theta d3theta d11theta d12theta d13theta d22theta d23theta
       d33theta : theta_fn)
    (cutoff : cutoff_spec) : object :=
  let self := Calculator__init__ ∅ in
  let self := setattr self "atom_type" (PyAtomType atom_type) in
  let self := setattr self "pair_type" (PyPairType pair_type) in
  let self := setattr self "phi" (PyPhi phi) in
  let self := setattr self "d1phi" (PyPhi d1phi) in
  let self := setattr self "d2phi" (PyPhi d2phi) in
  let self := setattr self "d11phi" (PyPhi d11phi) in
  let self := setattr self "d12phi" (PyPhi d12phi) in
  let self := setattr self "d22phi" (PyPhi d22phi) in
  let self := setattr self "theta" (PyTheta theta) in
  let self := setattr self "d1theta" (PyTheta d1theta) in
  let self := setattr self "d2theta" (PyTheta d2theta) in
  let self := setattr self "d3theta" (PyTheta d3theta) in
  let self := setattr self "d11theta" (PyTheta d11theta) in
  let self := setattr self "d12theta" (PyTheta d12theta) in
  let self := setattr self "d13theta" (PyTheta d13theta) in
  let self := setattr self "d22theta" (PyTheta d22theta) in
  let self := setattr self "d23theta" (PyTheta d23theta) in
  let self := setattr self "d33theta" (PyTheta d33theta) in
  setattr self "cutoff" (PyCutoff cutoff).

(** A loop with an accumulator whose body may raise. *)
Fixpoint for_each {A S : Type} (l : list A) (s : S) (body : S -> A -> result S) : result S :=
  match l with
  | [] => Ok s
  | a :: l' => let* s' := body s a in for_each l' s' body
  end.

(** [Manybody.get_cutoff]; the elements of [set(atoms.numbers)] are visited
    in the order of their first occurrence. *)
Definition get_cutoff (self : object) (atoms : Atoms) : result R :=
  let* c := getattr self "cutoff" in
  match c with
  | PyCutoff (CutoffScalar c) => Ok c
  | PyCutoff (CutoffTable table) =>
      let elements := remove_dups (numbers atoms) in
      for_each elements 0 (fun cutoff i =>
        let* atom_type := attr_atom_type self in
        let ii := atom_type i in
        for_each elements cutoff (fun cutoff j =>
          let* atom_type := attr_atom_type self in
          let jj := atom_type j in
          let* pair_type := attr_pair_type self in
          let p := pair_type ii jj in
          let* c_p := of_option KeyError (table !! p) in
          Ok (Rmax cutoff c_p)))
  | _ => Raise TypeError
  end.

Section Evaluation.
Context {nb : Neighbours}.

(** [Calculator.calculate(self, atoms, properties, system_changes)] of ASE,
    as far as this module depends on it: it stores a copy of the
    configuration in [self.atoms]. *)
Definition Calculator_calculate (self : object) (atoms : Atoms) : object :=
  setattr self "atoms" (PyAtoms atoms).

(** [if self.atoms is None: self.atoms = atoms] *)
Definition default_atoms (self : object) (atoms : Atoms) : result object :=
  let* a := getattr self "atoms" in
  match a with
  | PyNone => Ok (setattr self "atoms" (PyAtoms atoms))
  | _ => Ok self
  end.

(** [np.sum(v ** 2, axis=1)], one row. *)
Definition sum_sq (v : vec3) : R := asum (map (fun c => v c ^ 2) carts).

(** One row of [r_pc.T[a] * f_pc.T[b]]. *)
Definition comp_prod (a b : cart) (r f : list vec3) : list R :=
  zip_with (fun r f => r a * f b) r f.

(** The local variables of [calculate] after the potential functions have
    been evaluated (lines 115 to 155). *)
Record CalculateFields : Type := {
  c_i_p : list nat;
  c_j_p : list nat;
  c_r_p : list R;
  c_r_pc : list vec3;
  c_R_p : list R;
  c_nb_atoms : nat;
  c_nb_pairs : nat;
  c_ij_t : list nat;
  c_ik_t : list nat;
  c_Rij_t : list R;
  c_rij_t : list R;
  c_Rik_t : list R;
  c_rik_t : list R;
  c_Rjk_t : list R;
  c_rjk_t : list R;
  c_ti_p : list nat;
  c_tij_p : list nat;
  c_ti_t : list nat;
  c_tij_t : list nat;
  c_tik_t : list nat;
  c_theta_t : list R;
  c_d1theta_t : list R;
  c_d2theta_t : list R;
  c_d3theta_t : list R;
  c_xi_p : list R;
  c_phi_p : list R;
  c_d1phi_p : list R;
  c_d2phi_p : list R
}.

Definition calculate_fields (self : object) (atoms : Atoms) : result CalculateFields :=
  let self := Calculator_calculate self atoms in
  (* get internal atom types from atomic numbers *)
  let* atom_type := attr_atom_type self in
  let t_n := map atom_type (numbers atoms) in
  let* cutoff := get_cutoff self atoms in
  (* construct neighbor list *)
  let nl := neighbour_list atoms cutoff in
  let i_p := map pair_i nl in
  let j_p := map pair_j nl in
  let r_p := map pair_d nl in
  let r_pc := map pair_D nl in
  let R_p := zip_with Rmult r_p r_p in
  let* self_atoms := attr_atoms self in
  let nb_atoms := len self_atoms in
  let nb_pairs := length i_p in
  (* construct triplet list *)
  let first_n := first_neighbours nb_atoms i_p in
  let tl := triplet_list first_n in
  let ij_t := map fst tl in
  let ik_t := map snd tl in
  let* rij_t := take r_p ij_t in
  let Rij_t := zip_with Rmult rij_t rij_t in
  let* rik_t := take r_p ik_t in
  let Rik_t := zip_with Rmult rik_t rik_t in
  let* rik_tc := take r_pc ik_t in
  let* rij_tc := take r_pc ij_t in
  let Rjk_t := map sum_sq (asub rik_tc rij_tc) in
  let rjk_t := map sqrt Rjk_t in
  (* construct lists with atom and pair types *)
  let* ti_p := take t_n i_p in
  let* pair_type := attr_pair_type self in
  let* tj_p := take t_n j_p in
  let tij_p := call_pair_type pair_type ti_p tj_p in
  let* i_t := take i_p ij_t in
  let* ti_t := take t_n i_t in
  let* pair_type := attr_pair_type self in
  let* j_t := take j_p ij_t in
  let* tj_t := take t_n j_t in
  let tij_t := call_pair_type pair_type ti_t tj_t in
  let* pair_type := attr_pair_type self in
  let* k_t := take j_p ik_t in
  let* tk_t := take t_n k_t in
  let tik_t := call_pair_type pair_type ti_t tk_t in
  (* potential-dependent functions *)
  let* theta := attr_theta self "theta" in
  let theta_t := call_theta theta Rij_t rij_t Rik_t rik_t Rjk_t rjk_t ti_t tij_t tik_t in
  let* d1theta := attr_theta self "d1theta" in
  let d1theta_t := call_theta d1theta Rij_t rij_t Rik_t rik_t Rjk_t rjk_t ti_t tij_t tik_t in
  let* d2theta := attr_theta self "d2theta" in
  let d2theta_t := call_theta d2theta Rij_t rij_t Rik_t rik_t Rjk_t rjk_t ti_t tij_t tik_t in
  let* d3theta := attr_theta self "d3theta" in
  let d3theta_t := call_theta d3theta Rij_t rij_t Rik_t rik_t Rjk_t rjk_t ti_t tij_t tik_t in
  let* xi_p := bincount ij_t theta_t nb_pairs in
  let* phi := attr_phi self "phi" in
  let phi_p := call_phi phi R_p r_p xi_p ti_p tij_p in
  let* d1phi := attr_phi self "d1phi" in
  let d1phi_p := call_phi d1phi R_p r_p xi_p ti_p tij_p in
  let* d2phi := attr_phi self "d2phi" in
  let d2phi_p := call_phi d2phi R_p r_p xi_p ti_p tij_p in
  Ok {| c_i_p := i_p; c_j_p := j_p; c_r_p := r_p; c_r_pc := r_pc;
        c_R_p := R_p; c_nb_atoms := nb_atoms; c_nb_pairs := nb_pairs;
        c_ij_t := ij_t; c_ik_t := ik_t;
        c_Rij_t := Rij_t; c_rij_t := rij_t; c_Rik_t := Rik_t; c_rik_t := rik_t;
        c_Rjk_t := Rjk_t; c_rjk_t := rjk_t;
        c_ti_p := ti_p; c_tij_p := tij_p;
        c_ti_t := ti_t; c_tij_t := tij_t; c_tik_t := tik_t;
        c_theta_t := theta_t; c_d1theta_t := d1theta_t; c_d2theta_t := d2theta_t;
        c_d3theta_t := d3theta_t; c_xi_p := xi_p;
        c_phi_p := phi_p; c_d1phi_p := d1phi_p; c_d2phi_p := d2phi_p |}.

(** The per-pair and per-triplet force contributions (lines 160 to 166). *)
Record Contributions : Type := {
  fij_pc : list vec3;
  rij_c : list vec3;
  rik_c : list vec3;
  fij_tc : list vec3;
  fik_tc : list vec3;
  fjk_tc : list vec3
}.

Definition contributions (f : CalculateFields) : result Contributions :=
  (* calculate forces (per pair) *)
  let fij_pc := ascal (c_d1phi_p f) (c_r_pc f) in
  (* calculate forces (per triplet) *)
  let* d2phi_t := take (c_d2phi_p f) (c_ij_t f) in
  let* rij_tc := take (c_r_pc f) (c_ij_t f) in
  let fij_tc := ascal (zip_with Rmult d2phi_t (c_d1theta_t f)) rij_tc in
  let* rik_tc := take (c_r_pc f) (c_ik_t f) in
  let fik_tc := ascal (zip_with Rmult d2phi_t (c_d2theta_t f)) rik_tc in
  let fjk_tc := ascal (zip_with Rmult d2phi_t (c_d3theta_t f)) (asub rik_tc rij_tc) in
  Ok {| fij_pc := fij_pc; rij_c := rij_tc; rik_c := rik_tc;
        fij_tc := fij_tc; fik_tc := fik_tc; fjk_tc := fjk_tc |}.

(** Atomic forces (lines 168 to 174). *)
Definition atomic_forces (f : CalculateFields) (k : Contributions) : result (list vec3) :=
  let nb_atoms := c_nb_atoms f in
  (* pair contribution *)
  let* a1 := mabincount (c_i_p f) (fij_pc k) nb_atoms in
  let* a2 := mabincount (c_j_p f) (fij_pc k) nb_atoms in
  let f_nc := asub a1 a2 in
  (* triplet contribution *)
  let* i_t := take (c_i_p f) (c_ij_t f) in
  let* b1 := mabincount i_t (fij_tc k) nb_atoms in
  let* j_t := take (c_j_p f) (c_ij_t f) in
  let* b2 := mabincount j_t (fij_tc k) nb_atoms in
  let* i_t' := take (c_i_p f) (c_ik_t f) in
  let* b3 := mabincount i_t' (fik_tc k) nb_atoms in
  let* k_t := take (c_j_p f) (c_ik_t f) in
  let* b4 := mabincount k_t (fik_tc k) nb_atoms in
  let* b5 := mabincount j_t (fjk_tc k) nb_atoms in
  let* b6 := mabincount k_t (fjk_tc k) nb_atoms in
  Ok (aadd f_nc (asub (aadd (asub (aadd (asub b1 b2) b3) b4) b5) b6)).

(** The virial in Voigt order (lines 176 to 194). *)
Definition virial (f : CalculateFields) (k : Contributions) : list R :=
  let r_pc := c_r_pc f in
  (* pair contribution *)
  let virial_v :=
    map asum [ comp_prod cx cx r_pc (fij_pc k);
               comp_prod cy cy r_pc (fij_pc k);
               comp_prod cz cz r_pc (fij_pc k);
               comp_prod cy cz r_pc (fij_pc k);
               comp_prod cx cz r_pc (fij_pc k);
               comp_prod cx cy r_pc (fij_pc k) ] in
  (* triplet contribution *)
  let row a b :=
    aadd (aadd (comp_prod a b (rij_c k) (fij_tc k)) (comp_prod a b (rik_c k) (fik_tc k)))
         (comp_prod a b (asub (rik_c k) (rij_c k)) (fjk_tc k)) in
  aadd virial_v
    (map asum [ row cx cx; row cy cy; row cz cz; row cy cz; row cx cz; row cx cy ]).

(** [Manybody.calculate]: the new state of the calculator, with
    [self.atoms] and [self.results] updated. *)
Definition calculate (self : object) (atoms : Atoms) : result object :=
  let* f := calculate_fields self atoms in
  let self := Calculator_calculate self atoms in
  (* calculate energy *)
  let epot := 0.5 * asum (c_phi_p f) in
  let* k := contributions f in
  let* f_nc := atomic_forces f k in
  let virial_v := virial f k in
  let* self_atoms := attr_atoms self in
  Ok (setattr self "results"
        (PyResults {| free_energy := epot;
                      energy := epot;
                      stress := adiv virial_v (volume self_atoms);
                      forces := f_nc |})).

(** *** The Hessian *)

(** The local variables of [get_hessian] when the phi family is about to be
    evaluated (lines 227 to 277). *)
Record HessianFields : Type := {
  h_self : object;
  h_i_p : list nat;
  h_j_p : list nat;
  h_r_p : list R;
  h_r_pc : list vec3;
  h_mask_p : list bool;
  h_nb_atoms : nat;
  h_nb_pairs : nat;
  h_tr_p : list nat;
  h_n_pc : list vec3;
  h_first_n : list nat;
  h_ij_t : list nat;
  h_ik_t : list nat;
  h_Rij_t : list R;
  h_rij_t : list R;
  h_Rik_t : list R;
  h_rik_t : list R;
  h_Rjk_t : list R;
  h_rjk_t : list R;
  h_ti_p : list nat;
  h_tij_p : list nat;
  h_ti_t : list nat;
  h_tij_t : list nat;
  h_tik_t : list nat;
  h_theta_t : list R;
  h_d1theta_t : list R;
  h_d2theta_t : list R;
  h_d3theta_t : list R;
  h_d11theta_t : list R;
  h_d22theta_t : list R;
  h_d33theta_t : list R;
  h_d12theta_t : list R;
  h_d23theta_t : list R;
  h_d13theta_t : list R;
  h_xi_p : list R
}.

Definition hessian_fields (self : object) (atoms : Atoms) : result HessianFields :=
  let* self := default_atoms self atoms in
  (* get internal atom types from atomic numbers *)
  let* atom_type := attr_atom_type self in
  let t_n := map atom_type (numbers atoms) in
  let* cutoff := get_cutoff self atoms in
  (* construct neighbor list *)
  let nl := neighbour_list atoms (2 * cutoff) in
  let i_p := map pair_i nl in
  let j_p := map pair_j nl in
  let r_p := map pair_d nl in
  let r_pc := map pair_D nl in
  let mask_p := map (fun r => Rgtb r cutoff) r_p in
  let* self_atoms := attr_atoms self in
  let nb_atoms := len self_atoms in
  let nb_pairs := length i_p in
  (* reverse pairs *)
  let tr_p := find_indices_of_reversed_pairs i_p j_p r_p in
  (* normal vectors *)
  let n_pc := zip_with (fun v d => scal (/ d) v) r_pc r_p in
  (* construct triplet list *)
  let first_n := first_neighbours nb_atoms i_p in
  let tl := triplet_list first_n in
  let ij_t := map fst tl in
  let ik_t := map snd tl in
  let* rij_t := take r_p ij_t in
  let Rij_t := zip_with Rmult rij_t rij_t in
  let* rik_t := take r_p ik_t in
  let Rik_t := zip_with Rmult rik_t rik_t in
  let* rik_tc := take r_pc ik_t in
  let* rij_tc := take r_pc ij_t in
  let Rjk_t := map sum_sq (asub rik_tc rij_tc) in
  let rjk_t := map sqrt Rjk_t in
  (* construct lists with atom and pair types *)
  let* ti_p := take t_n i_p in
  let* pair_type := attr_pair_type self in
  let* tj_p := take t_n j_p in
  let tij_p := call_pair_type pair_type ti_p tj_p in
  let* i_t := take i_p ij_t in
  let* ti_t := take t_n i_t in
  let* pair_type := attr_pair_type self in
  let* j_t := take j_p ij_t in
  let* tj_t := take t_n j_t in
  let tij_t := call_pair_type pair_type ti_t tj_t in
  let* pair_type := attr_pair_type self in
  let* k_t := take j_p ik_t in
  let* tk_t := take t_n k_t in
  let tik_t := call_pair_type pair_type ti_t tk_t in
  (* potential-dependent functions *)
  let call f := call_theta f Rij_t rij_t Rik_t rik_t Rjk_t rjk_t ti_t tij_t tik_t in
  let* theta := attr_theta self "theta" in
  let theta_t := call theta in
  let* d1theta := attr_theta self "d1theta" in
  let d1theta_t := call d1theta in
  let* d2theta := attr_theta self "d2theta" in
  let d2theta_t := call d2theta in
  let* d3theta := attr_theta self "d3theta" in
  let d3theta_t := call d3theta in
  let* d11theta := attr_theta self "d11theta" in
  let d11theta_t := call d11theta in
  let* d22theta := attr_theta self "d22theta" in
  let d22theta_t := call d22theta in
  let* d33theta := attr_theta self "d33theta" in
  let d33theta_t := call d33theta in
  let* d12theta := attr_theta self "d12theta" in
  let d12theta_t := call d12theta in
  let* d23theta := attr_theta self "d23theta" in
  let d23theta_t := call d23theta in
  let* d13theta := attr_theta self "d13theta" in
  let d13theta_t := call d13theta in
  let* xi_p := bincount ij_t theta_t nb_pairs in
  Ok {| h_self := self; h_i_p := i_p; h_j_p := j_p; h_r_p := r_p; h_r_pc := r_pc;
        h_mask_p := mask_p; h_nb_atoms := nb_atoms; h_nb_pairs := nb_pairs;
        h_tr_p := tr_p; h_n_pc := n_pc; h_first_n := first_n;
        h_ij_t := ij_t; h_ik_t := ik_t;
        h_Rij_t := Rij_t; h_rij_t := rij_t; h_Rik_t := Rik_t; h_rik_t := rik_t;
        h_Rjk_t := Rjk_t; h_rjk_t := rjk_t;
        h_ti_p := ti_p; h_tij_p := tij_p;
        h_ti_t := ti_t; h_tij_t := tij_t; h_tik_t := tik_t;
        h_theta_t := theta_t; h_d1theta_t := d1theta_t; h_d2theta_t := d2theta_t;
        h_d3theta_t := d3theta_t; h_d11theta_t := d11theta_t;
        h_d22theta_t := d22theta_t; h_d33theta_t := d33theta_t;
        h_d12theta_t := d12theta_t; h_d23theta_t := d23theta_t;
        h_d13theta_t := d13theta_t; h_xi_p := xi_p |}.

(** The arrays of the phi family (lines 279 to 282). *)
Record HessianPhi : Type := {
  h_d2phi_p : list R;
  h_d11phi_p : list R;
  h_d22phi_p : list R;
  h_d12phi_p : list R
}.

(** Lines 279 to 282.  The first argument of every call is [R_p], a name
    that [get_hessian] never assigns (the other methods compute
    [R_p = r_p * r_p]); it is read as a global. *)
Definition hessian_phi (f : HessianFields) : result HessianPhi :=
  let self := h_self f in
  let* d2phi := attr_phi self "d2phi" in
  let* R_p := global_array "R_p" in
  let d2phi_p := call_phi d2phi R_p (h_r_p f) (h_xi_p f) (h_ti_p f) (h_tij_p f) in
  let* d11phi := attr_phi self "d11phi" in
  let* R_p := global_array "R_p" in
  let d11phi_p := call_phi d11phi R_p (h_r_p f) (h_xi_p f) (h_ti_p f) (h_tij_p f) in
  let* d22phi := attr_phi self "d22phi" in
  let* R_p := global_array "R_p" in
  let d22phi_p := call_phi d22phi R_p (h_r_p f) (h_xi_p f) (h_ti_p f) (h_tij_p f) in
  let* d12phi := attr_phi self "d12phi" in
  let* R_p := global_array "R_p" in
  let d12phi_p := call_phi d12phi R_p (h_r_p f) (h_xi_p f) (h_ti_p f) (h_tij_p f) in
  Ok {| h_d2phi_p := d2phi_p; h_d11phi_p := d11phi_p;
        h_d22phi_p := d22phi_p; h_d12phi_p := d12phi_p |}.

(** [H[:, x, y] = v]: component [(x, y)] of every block replaced. *)
Definition set_component (H : list mat3) (x y : cart) (v : list R) : list mat3 :=
  zip_with (fun m vn => fun a b => if decide (a = x /\ b = y) then vn else m a b) H v.

(** Construct full diagonal terms from off-diagonal terms (lines 291 to
    294). *)
Definition hessian_diagonal (nb_atoms : nat) (i_p : list nat) (H_pcc : list mat3)
  : result (list mat3) :=
  let H_acc := replicate nb_atoms (zero : mat3) in
  for_each carts H_acc (fun H_acc x =>
    for_each carts H_acc (fun H_acc y =>
      let* b := bincount i_p (map (fun m : mat3 => m x y) H_pcc) 0 in
      let* v := assign_broadcast nb_atoms (map Ropp b) in
      Ok (set_component H_acc x y v))).

(** Symmetrisation and output (lines 287 to 311), from the value [H_pcc]
    of Term 1.  A [Bsr] record holds the arguments of one call of
    [bsr_matrix]: the blocks, the block column indices, the index pointer
    and the shape.  The checks scipy makes on these arguments when it builds
    the matrix (an index pointer with one entry per block row and one more,
    that starts at 0 and ends within the index array) are not statements of
    this module; they are the predicate [bsr_format] below, a condition on
    what [first_neighbours] has returned. *)
Definition hessian_assemble (f : HessianFields) (atoms : Atoms) (H_pcc : list mat3)
    (format : string) (divide_by_masses : bool) : result hessian_out :=
  let nb_atoms := h_nb_atoms f in
  let* Ht := take (map transpose H_pcc) (h_tr_p f) in
  let* Ht := assign_broadcast (length H_pcc) Ht in
  let H_pcc := aadd H_pcc Ht in
  if decide (format = "sparse") then
    let* H_acc := hessian_diagonal nb_atoms (h_i_p f) H_pcc in
    let shape := (3 * nb_atoms, 3 * nb_atoms)%nat in
    if divide_by_masses then
      let mass_nat := masses atoms in
      let* mi := take mass_nat (h_i_p f) in
      let* mj := take mass_nat (h_j_p f) in
      let geom_mean_mass_n := map sqrt (zip_with Rmult mi mj) in
      let* offdiag := broadcast2 (fun m d => scal (/ d) m) H_pcc
                        (map (Rmult 2) geom_mean_mass_n) in
      let* diag := broadcast2 (fun m d => scal (/ d) m) H_acc (map (Rmult 2) mass_nat) in
      Ok (HessianSparse
            (SparseAdd
               (Bsr {| bsr_data := offdiag; bsr_indices := h_j_p f;
                       bsr_indptr := h_first_n f; bsr_shape := shape |})
               (Bsr {| bsr_data := diag; bsr_indices := arange nb_atoms;
                       bsr_indptr := arange (nb_atoms + 1); bsr_shape := shape |})))
    else
      Ok (HessianSparse
            (SparseAdd
               (Bsr {| bsr_data := adiv H_pcc 2; bsr_indices := h_j_p f;
                       bsr_indptr := h_first_n f; bsr_shape := shape |})
               (Bsr {| bsr_data := adiv H_acc 2; bsr_indices := arange nb_atoms;
                       bsr_indptr := arange (nb_atoms + 1); bsr_shape := shape |})))
  else if decide (format = "neighbour-list") then
    Ok (HessianNeighbourList (adiv H_pcc 2) (h_i_p f) (h_j_p f) (h_r_pc f) (h_r_p f))
  else Ok HessianNone.

(** [Manybody.get_hessian].  The right-hand side of [H_pcc =] (Term 1, line
    285) is not in the source; [term_1] stands for it, an expression over
    the local variables. *)
Definition get_hessian (term_1 : HessianFields -> HessianPhi -> list mat3)
    (self : object) (atoms : Atoms) (format : string) (divide_by_masses : bool)
  : result hessian_out :=
  let* f := hessian_fields self atoms in
  let* phis := hessian_phi f in
  (* Term 1 *)
  let H_pcc := term_1 f phis in
  hessian_assemble f atoms H_pcc format divide_by_masses.

(** *** The generalised second derivative *)

(** The local variables of [get_second_derivative] before the first
    potential function is called (lines 332 to 362).  The optional
    arguments [i_p, j_p, r_p, r_pc] are the columns of one neighbour list,
    given together or not at all. *)
Record SecondDerivativeFields : Type := {
  s_self : object;
  s_i_p : list nat;
  s_j_p : list nat;
  s_r_p : list R;
  s_r_pc : list vec3;
  s_nb_atoms : nat;
  s_nb_pairs : nat;
  s_n_pc : list vec3;
  s_drda_p : list R;
  s_drdb_p : list R;
  s_ij_t : list nat;
  s_ik_t : list nat;
  s_ti_p : list nat;
  s_tij_p : list nat;
  s_ti_t : list nat;
  s_tij_t : list nat;
  s_tik_t : list nat
}.

Definition second_derivative_fields (self : object) (atoms : Atoms)
    (drda_pc drdb_pc : list vec3) (pairs : option (list Pair))
  : result SecondDerivativeFields :=
  let* self := default_atoms self atoms in
  (* get internal atom types from atomic numbers *)
  let* atom_type := attr_atom_type self in
  let t_n := map atom_type (numbers atoms) in
  let* cutoff := get_cutoff self atoms in
  let nl := match pairs with
            | Some nl => nl
            | None => (* We need to construct the neighbor list ourselves *)
                neighbour_list atoms cutoff
            end in
  let i_p := map pair_i nl in
  let j_p := map pair_j nl in
  let r_p := map pair_d nl in
  let r_pc := map pair_D nl in
  let* self_atoms := attr_atoms self in
  let nb_atoms := len self_atoms in
  let nb_pairs := length i_p in
  (* normal vectors *)
  let n_pc := zip_with (fun v d => scal (/ d) v) r_pc r_p in
  (* derivative of the lengths of distance vectors *)
  let* drda_p := broadcast2 dot n_pc drda_pc in
  let* drdb_p := broadcast2 dot n_pc drdb_pc in
  (* construct triplet list *)
  let first_n := first_neighbours nb_atoms i_p in
  let tl := triplet_list_jk first_n r_p cutoff i_p j_p in
  let ij_t := map (fun t => t.1.1) tl in
  let ik_t := map (fun t => t.1.2) tl in
  (* construct lists with atom and pair types *)
  let* ti_p := take t_n i_p in
  let* pair_type := attr_pair_type self in
  let* tj_p := take t_n j_p in
  let tij_p := call_pair_type pair_type ti_p tj_p in
  let* i_t := take i_p ij_t in
  let* ti_t := take t_n i_t in
  let* pair_type := attr_pair_type self in
  let* j_t := take j_p ij_t in
  let* tj_t := take t_n j_t in
  let tij_t := call_pair_type pair_type ti_t tj_t in
  let* pair_type := attr_pair_type self in
  let* k_t := take j_p ik_t in
  let* tk_t := take t_n k_t in
  let tik_t := call_pair_type pair_type ti_t tk_t in
  Ok {| s_self := self; s_i_p := i_p; s_j_p := j_p; s_r_p := r_p; s_r_pc := r_pc;
        s_nb_atoms := nb_atoms; s_nb_pairs := nb_pairs; s_n_pc := n_pc;
        s_drda_p := drda_p; s_drdb_p := drdb_p; s_ij_t := ij_t; s_ik_t := ik_t;
        s_ti_p := ti_p; s_tij_p := tij_p;
        s_ti_t := ti_t; s_tij_t := tij_t; s_tik_t := tik_t |}.

(** The values of the G and F families (lines 364 to 378). *)
Record GF : Type := {
  g_rij_tc : list vec3;
  g_rik_tc : list vec3;
  g_G_t : list R;
  g_d1G_tc : list vec3;
  g_d2G_tc : list vec3;
  g_d11G_tcc : list mat3;
  g_d12G_tcc : list mat3;
  g_d22G_tcc : list mat3;
  g_xi_p : list R;
  g_d1F_p : list R;
  g_d2F_p : list R;
  g_d11F_p : list R;
  g_d12F_p : list R;
  g_d22F_p : list R
}.

(** The calls [self.G(r_pc[ij_t], r_pc[ik_t], ti_t, tij_t, tik_t)] to
    [self.d22F(r_p, xi_p, ti_p, tij_p)]; [get_second_derivative] and
    [get_non_affine_forces] spell out the same lines.  Python looks the
    attribute up before it evaluates the arguments. *)
Definition potential_GF (self : object) (r_p : list R) (r_pc : list vec3)
    (nb_pairs : nat) (ij_t ik_t ti_p tij_p ti_t tij_t tik_t : list nat) : result GF :=
  let* G := attr_G self "G" in
  let* rij_tc := take r_pc ij_t in
  let* rik_tc := take r_pc ik_t in
  let G_t := call_G G rij_tc rik_tc ti_t tij_t tik_t in
  let* d1G := attr_Gc self "d1G" in
  let d1G_tc := call_G d1G rij_tc rik_tc ti_t tij_t tik_t in
  let* d2G := attr_Gc self "d2G" in
  let d2G_tc := call_G d2G rij_tc rik_tc ti_t tij_t tik_t in
  let* d11G := attr_Gcc self "d11G" in
  let d11G_tcc := call_G d11G rij_tc rik_tc ti_t tij_t tik_t in
  let* d12G := attr_Gcc self "d12G" in
  let d12G_tcc := call_G d12G rij_tc rik_tc ti_t tij_t tik_t in
  let* d22G := attr_Gcc self "d22G" in
  let d22G_tcc := call_G d22G rij_tc rik_tc ti_t tij_t tik_t in
  let* xi_p := bincount ij_t G_t nb_pairs in
  let* d1F := attr_F self "d1F" in
  let d1F_p := call_F d1F r_p xi_p ti_p tij_p in
  let* d2F := attr_F self "d2F" in
  let d2F_p := call_F d2F r_p xi_p ti_p tij_p in
  let* d11F := attr_F self "d11F" in
  let d11F_p := call_F d11F r_p xi_p ti_p tij_p in
  let* d12F := attr_F self "d12F" in
  let d12F_p := call_F d12F r_p xi_p ti_p tij_p in
  let* d22F := attr_F self "d22F" in
  let d22F_p := call_F d22F r_p xi_p ti_p tij_p in
  Ok {| g_rij_tc := rij_tc; g_rik_tc := rik_tc; g_G_t := G_t;
        g_d1G_tc := d1G_tc; g_d2G_tc := d2G_tc; g_d11G_tcc := d11G_tcc;
        g_d12G_tcc := d12G_tcc; g_d22G_tcc := d22G_tcc; g_xi_p := xi_p;
        g_d1F_p := d1F_p; g_d2F_p := d2F_p; g_d11F_p := d11F_p;
        g_d12F_p := d12F_p; g_d22F_p := d22F_p |}.

(** Elementwise product and [(a * b).sum(axis=1)] with broadcasting. *)
Definition mul2 (a b : list R) : result (list R) := broadcast2 Rmult a b.
Definition dots (a b : list vec3) : result (list R) := broadcast2 dot a b.

(** Terms 1 to 5 (lines 380 to 408). *)
Definition second_derivative_terms (f : SecondDerivativeFields) (g : GF)
    (drda_pc drdb_pc : list vec3) : result R :=
  let ij_t := s_ij_t f in
  let ik_t := s_ik_t f in
  let nb_pairs := s_nb_pairs f in
  (* Term 1 *)
  let* t := mul2 (g_d11F_p g) (s_drda_p f) in
  let* t := mul2 t (s_drdb_p f) in
  let T1 := asum t in
  (* Term 2 *)
  let* d12F_t := take (g_d12F_p g) ij_t in
  let* drda_ik := take drda_pc ik_t in
  let* drdb_ik := take drdb_pc ik_t in
  let* drda_ij := take drda_pc ij_t in
  let* drdb_ij := take drdb_pc ij_t in
  let* drda_t := take (s_drda_p f) ij_t in
  let* drdb_t := take (s_drdb_p f) ij_t in
  let* u := dots (g_d2G_tc g) drda_ik in
  let* u := mul2 d12F_t u in
  let* u := mul2 u drdb_t in
  let T2 := asum u in
  let* u := dots (g_d2G_tc g) drdb_ik in
  let* u := mul2 d12F_t u in
  let* u := mul2 u drda_t in
  let T2 := T2 + asum u in
  let* u := dots (g_d1G_tc g) drda_ij in
  let* u := mul2 d12F_t u in
  let* u := mul2 u drdb_t in
  let T2 := T2 + asum u in
  let* u := dots (g_d1G_tc g) drdb_ij in
  let* u := mul2 d12F_t u in
  let* u := mul2 u drda_t in
  let T2 := T2 + asum u in
  (* Term 3 *)
  let* a1 := dots (g_d1G_tc g) drda_ij in
  let* a2 := dots (g_d2G_tc g) drda_ik in
  let* dxida_t := broadcast2 Rplus a1 a2 in
  let* b1 := dots (g_d1G_tc g) drdb_ij in
  let* b2 := dots (g_d2G_tc g) drdb_ik in
  let* dxidb_t := broadcast2 Rplus b1 b2 in
  let* xa := bincount ij_t dxida_t nb_pairs in
  let* u := mul2 (g_d22F_p g) xa in
  let* xb := bincount ij_t dxidb_t nb_pairs in
  let* u := mul2 u xb in
  let T3 := asum u in
  (* Term 4 *)
  let* Q_pcc := broadcast2 (fun m d => scal (/ d) m)
                  (asub (replicate (length (s_n_pc f)) eye) (_o (s_n_pc f) (s_n_pc f)))
                  (s_r_p f) in
  let* u := broadcast2 contract1 Q_pcc drda_pc in
  let* u := dots u drdb_pc in
  let* u := mul2 (g_d1F_p g) u in
  let T4 := asum u in
  (* Term 5 *)
  let* u := broadcast2 contract1 (g_d11G_tcc g) drdb_ij in
  let* T5_t := dots u drda_ij in
  let* u := broadcast2 contract2 drdb_ik (g_d12G_tcc g) in
  let* u := dots u drda_ij in
  let* T5_t := broadcast2 Rplus T5_t u in
  let* u := broadcast2 (fun v m => contract1 m v) drdb_ij (g_d12G_tcc g) in
  let* u := dots u drda_ik in
  let* T5_t := broadcast2 Rplus T5_t u in
  let* u := broadcast2 contract1 (g_d22G_tcc g) drdb_ik in
  let* u := dots u drda_ik in
  let* T5_t := broadcast2 Rplus T5_t u in
  let* x5 := bincount ij_t T5_t nb_pairs in
  let* u := mul2 (g_d2F_p g) x5 in
  let T5 := asum u in
  Ok (T1 + T2 + T3 + T4 + T5).

(** [Manybody.get_second_derivative] *)
Definition get_second_derivative (self : object) (atoms : Atoms)
    (drda_pc drdb_pc : list vec3) (pairs : option (list Pair)) : result R :=
  let* f := second_derivative_fields self atoms drda_pc drdb_pc pairs in
  (* potential-dependent functions *)
  let* g := potential_GF (s_self f) (s_r_p f) (s_r_pc f) (s_nb_pairs f)
              (s_ij_t f) (s_ik_t f) (s_ti_p f) (s_tij_p f)
              (s_ti_t f) (s_tij_t f) (s_tik_t f) in
  second_derivative_terms f g drda_pc drdb_pc.

(** The index triples [(cm, alpha, beta)] in the order of the loops. *)
Definition loop_indices : list (cart * cart * cart) :=
  cm ← carts; alpha ← carts; beta ← carts; [(cm, alpha, beta)].

(** [Manybody.get_non_affine_forces_from_second_derivative] *)
Definition get_non_affine_forces_from_second_derivative (self : object) (atoms : Atoms)
  : result (list ten3) :=
  let* self := default_atoms self atoms in
  let* cutoff := get_cutoff self atoms in
  let nl := neighbour_list atoms (2 * cutoff) in
  let* self_atoms := attr_atoms self in
  let nb_atoms := len self_atoms in
  let* naF_ncab :=
    mapM (fun m =>
      let* values :=
        mapM (fun idx : cart * cart * cart =>
          let '(cm, alpha, beta) := idx in
          let drdb_pc :=
            map (fun p => (fun c =>
                   if decide (c = cm) then
                     if decide (pair_j p = m) then -1
                     else if decide (pair_i p = m) then 1 else 0
                   else 0) : vec3) nl in
          let drda_pc :=
            map (fun p => (fun c =>
                   if decide (c = alpha) then pair_D p beta else 0) : vec3) nl in
          get_second_derivative self atoms drda_pc drdb_pc (Some nl))
        loop_indices in
      Ok (tabulate3 values))
    (seq 0 nb_atoms) in
  Ok (adiv naF_ncab 2).

(** *** Born elastic constants *)

(** The local variables of [get_born_elastic_constants] after the potential
    functions have been evaluated (lines 458 to 509). *)
Record BornFields : Type := {
  b_self : object;
  b_r_p : list R;
  b_r_pc : list vec3;
  b_R_p : list R;
  b_nb_pairs : nat;
  b_ij_t : list nat;
  b_ik_t : list nat;
  b_rij_tc : list vec3;
  b_rik_tc : list vec3;
  b_rjk_tc : list vec3;
  b_Rij_t : list R;
  b_rij_t : list R;
  b_Rik_t : list R;
  b_rik_t : list R;
  b_Rjk_t : list R;
  b_rjk_t : list R;
  b_ti_p : list nat;
  b_tij_p : list nat;
  b_ti_t : list nat;
  b_tij_t : list nat;
  b_tik_t : list nat;
  b_theta_t : list R;
  b_d1theta_t : list R;
  b_d2theta_t : list R;
  b_d3theta_t : list R;
  b_d11theta_t : list R;
  b_d22theta_t : list R;
  b_d33theta_t : list R;
  b_d12theta_t : list R;
  b_d23theta_t : list R;
  b_d13theta_t : list R;
  b_xi_p : list R;
  b_d2phi_p : list R;
  b_d11phi_p : list R;
  b_d22phi_p : list R;
  b_d12phi_p : list R
}.

Definition born_fields (self : object) (atoms : Atoms) : result BornFields :=
  let* self := default_atoms self atoms in
  (* get internal atom types from atomic numbers *)
  let* atom_type := attr_atom_type self in
  let t_n := map atom_type (numbers atoms) in
  let* cutoff := get_cutoff self atoms in
  (* construct neighbor list *)
  let nl := neighbour_list atoms cutoff in
  let i_p := map pair_i nl in
  let j_p := map pair_j nl in
  let r_p := map pair_d nl in
  let r_pc := map pair_D nl in
  let R_p := zip_with Rmult r_p r_p in
  let* self_atoms := attr_atoms self in
  let nb_atoms := len self_atoms in
  let nb_pairs := length i_p in
  (* construct triplet list *)
  let first_n := first_neighbours nb_atoms i_p in
  let tl := triplet_list first_n in
  let ij_t := map fst tl in
  let ik_t := map snd tl in
  let* rij_t := take r_p ij_t in
  let* rij_tc := take r_pc ij_t in
  let Rij_t := zip_with Rmult rij_t rij_t in
  let* rik_t := take r_p ik_t in
  let* rik_tc := take r_pc ik_t in
  let Rik_t := zip_with Rmult rik_t rik_t in
  let* rik_tc' := take r_pc ik_t in
  let* rij_tc' := take r_pc ij_t in
  let rjk_tc := asub rik_tc' rij_tc' in
  let Rjk_t := map (fun v => dot v v) rjk_tc in
  let rjk_t := map sqrt Rjk_t in
  (* construct lists with atom and pair types *)
  let* ti_p := take t_n i_p in
  let* pair_type := attr_pair_type self in
  let* tj_p := take t_n j_p in
  let tij_p := call_pair_type pair_type ti_p tj_p in
  let* i_t := take i_p ij_t in
  let* ti_t := take t_n i_t in
  let* pair_type := attr_pair_type self in
  let* j_t := take j_p ij_t in
  let* tj_t := take t_n j_t in
  let tij_t := call_pair_type pair_type ti_t tj_t in
  let* pair_type := attr_pair_type self in
  let* k_t := take j_p ik_t in
  let* tk_t := take t_n k_t in
  let tik_t := call_pair_type pair_type ti_t tk_t in
  (* potential-dependent functions *)
  let call f := call_theta f Rij_t rij_t Rik_t rik_t Rjk_t rjk_t ti_t tij_t tik_t in
  let* theta := attr_theta self "theta" in
  let theta_t := call theta in
  let* d1theta := attr_theta self "d1theta" in
  let d1theta_t := call d1theta in
  let* d2theta := attr_theta self "d2theta" in
  let d2theta_t := call d2theta in
  let* d3theta := attr_theta self "d3theta" in
  let d3theta_t := call d3theta in
  let* d11theta := attr_theta self "d11theta" in
  let d11theta_t := call d11theta in
  let* d22theta := attr_theta self "d22theta" in
  let d22theta_t := call d22theta in
  let* d33theta := attr_theta self "d33theta" in
  let d33theta_t := call d33theta in
  let* d12theta := attr_theta self "d12theta" in
  let d12theta_t := call d12theta in
  let* d23theta := attr_theta self "d23theta" in
  let d23theta_t := call d23theta in
  let* d13theta := attr_theta self "d13theta" in
  let d13theta_t := call d13theta in
  let* xi_p := bincount ij_t theta_t nb_pairs in
  let* d2phi := attr_phi self "d2phi" in
  let d2phi_p := call_phi d2phi R_p r_p xi_p ti_p tij_p in
  let* d11phi := attr_phi self "d11phi" in
  let d11phi_p := call_phi d11phi R_p r_p xi_p ti_p tij_p in
  let* d22phi := attr_phi self "d22phi" in
  let d22phi_p := call_phi d22phi R_p r_p xi_p ti_p tij_p in
  let* d12phi := attr_phi self "d12phi" in
  let d12phi_p := call_phi d12phi R_p r_p xi_p ti_p tij_p in
  Ok {| b_self := self; b_r_p := r_p; b_r_pc := r_pc; b_R_p := R_p;
        b_nb_pairs := nb_pairs; b_ij_t := ij_t; b_ik_t := ik_t;
        b_rij_tc := rij_tc; b_rik_tc := rik_tc; b_rjk_tc := rjk_tc;
        b_Rij_t := Rij_t; b_rij_t := rij_t; b_Rik_t := Rik_t; b_rik_t := rik_t;
        b_Rjk_t := Rjk_t; b_rjk_t := rjk_t;
        b_ti_p := ti_p; b_tij_p := tij_p;
        b_ti_t := ti_t; b_tij_t := tij_t; b_tik_t := tik_t;
        b_theta_t := theta_t; b_d1theta_t := d1theta_t; b_d2theta_t := d2theta_t;
        b_d3theta_t := d3theta_t; b_d11theta_t := d11theta_t;
        b_d22theta_t := d22theta_t; b_d33theta_t := d33theta_t;
        b_d12theta_t := d12theta_t; b_d23theta_t := d23theta_t;
        b_d13theta_t := d13theta_t; b_xi_p := xi_p;
        b_d2phi_p := d2phi_p; b_d11phi_p := d11phi_p;
        b_d22phi_p := d22phi_p; b_d12phi_p := d12phi_p |}.

(** [Manybody.get_born_elastic_constants] *)
Definition get_born_elastic_constants (self : object) (atoms : Atoms) : result ten4 :=
  let* f := born_fields self atoms in
  let r_pc := b_r_pc f in
  let rij_tc := b_rij_tc f in
  let rik_tc := b_rik_tc f in
  let rjk_tc := b_rjk_tc f in
  (* Term 1 disappears *)
  (* Term 2 *)
  let C_abab := asum (ascal (b_d11phi_p f) (_o4 r_pc r_pc r_pc r_pc)) in
  (* Term 3 *)
  let* d2phi_t := take (b_d2phi_p f) (b_ij_t f) in
  let C_abab := add C_abab (asum (ascal d2phi_t
    (aadd (aadd (aadd (aadd (aadd
       (ascal (b_d11theta_t f) (_o4 rij_tc rij_tc rij_tc rij_tc))
       (ascal (b_d12theta_t f)
          (aadd (_o4 rij_tc rij_tc rik_tc rik_tc) (_o4 rik_tc rik_tc rij_tc rij_tc))))
       (ascal (b_d13theta_t f)
          (aadd (_o4 rij_tc rij_tc rjk_tc rjk_tc) (_o4 rjk_tc rjk_tc rij_tc rij_tc))))
       (ascal (b_d22theta_t f) (_o4 rik_tc rik_tc rik_tc rik_tc)))
       (ascal (b_d23theta_t f)
          (aadd (_o4 rik_tc rik_tc rjk_tc rjk_tc) (_o4 rjk_tc rjk_tc rik_tc rik_tc))))
       (ascal (b_d33theta_t f) (_o4 rjk_tc rjk_tc rjk_tc rjk_tc))))) in
  (* Term 4 *)
  let* d12phi_t := take (b_d12phi_p f) (b_ij_t f) in
  let C_abab := add C_abab (asum (ascal d12phi_t
    (aadd (aadd
       (ascal (map (Rmult 2) (b_d1theta_t f)) (_o4 rij_tc rij_tc rij_tc rij_tc))
       (ascal (b_d2theta_t f)
          (aadd (_o4 rij_tc rij_tc rik_tc rik_tc) (_o4 rik_tc rik_tc rij_tc rij_tc))))
       (ascal (b_d3theta_t f)
          (aadd (_o4 rij_tc rij_tc rjk_tc rjk_tc) (_o4 rjk_tc rjk_tc rij_tc rij_tc)))))) in
  (* Term 5 *)
  let* tmpij_pcc :=
    mabincount (b_ij_t f)
      (aadd (aadd (ascal (b_d1theta_t f) (_o rij_tc rij_tc))
                  (ascal (b_d2theta_t f) (_o rik_tc rik_tc)))
            (ascal (b_d3theta_t f) (_o rjk_tc rjk_tc)))
      (b_nb_pairs f) in
  let C_abab := add C_abab (asum (zip_with
    (fun d22phi (tmp : mat3) => (fun a b c d => d22phi * tmp a b * tmp c d) : ten4)
    (b_d22phi_p f) tmpij_pcc)) in
  Ok (fun a b c d => 2 * C_abab a b c d / volume atoms).

(** *** Non-affine forces *)

(** The local variables of [get_non_affine_forces] before the first
    potential function is called (lines 646 to 672). *)
Record NonAffineFields : Type := {
  n_self : object;
  n_i_p : list nat;
  n_j_p : list nat;
  n_r_p : list R;
  n_r_pc : list vec3;
  n_nb_atoms : nat;
  n_nb_pairs : nat;
  n_n_pc : list vec3;
  n_dn_pcc : list mat3;
  n_ij_t : list nat;
  n_ik_t : list nat;
  n_ti_p : list nat;
  n_tij_p : list nat;
  n_ti_t : list nat;
  n_tij_t : list nat;
  n_tik_t : list nat
}.

Definition non_affine_fields (self : object) (atoms : Atoms) : result NonAffineFields :=
  let* self := default_atoms self atoms in
  (* get internal atom types from atomic numbers *)
  let* atom_type := attr_atom_type self in
  let t_n := map atom_type (numbers atoms) in
  let* cutoff := get_cutoff self atoms in
  (* construct neighbor list *)
  let nl := neighbour_list atoms cutoff in
  let i_p := map pair_i nl in
  let j_p := map pair_j nl in
  let r_p := map pair_d nl in
  let r_pc := map pair_D nl in
  let* self_atoms := attr_atoms self in
  let nb_atoms := len self_atoms in
  let nb_pairs := length i_p in
  (* normal vectors *)
  let n_pc := zip_with (fun v d => scal (/ d) v) r_pc r_p in
  let dn_pcc := zip_with (fun (m : mat3) d => scal (/ d) m)
                  (asub (replicate nb_pairs eye) (_o n_pc n_pc)) r_p in
  (* construct triplet list *)
  let first_n := first_neighbours nb_atoms i_p in
  let tl := triplet_list_jk first_n r_p cutoff i_p j_p in
  let ij_t := map (fun t => t.1.1) tl in
  let ik_t := map (fun t => t.1.2) tl in
  (* construct lists with atom and pair types *)
  let* ti_p := take t_n i_p in
  let* pair_type := attr_pair_type self in
  let* tj_p := take t_n j_p in
  let tij_p := call_pair_type pair_type ti_p tj_p in
  let* i_t := take i_p ij_t in
  let* ti_t := take t_n i_t in
  let* pair_type := attr_pair_type self in
  let* j_t := take j_p ij_t in
  let* tj_t := take t_n j_t in
  let tij_t := call_pair_type pair_type ti_t tj_t in
  let* pair_type := attr_pair_type self in
  let* k_t := take j_p ik_t in
  let* tk_t := take t_n k_t in
  let tik_t := call_pair_type pair_type ti_t tk_t in
  Ok {| n_self := self; n_i_p := i_p; n_j_p := j_p; n_r_p := r_p; n_r_pc := r_pc;
        n_nb_atoms := nb_atoms; n_nb_pairs := nb_pairs; n_n_pc := n_pc;
        n_dn_pcc := dn_pcc; n_ij_t := ij_t; n_ik_t := ik_t;
        n_ti_p := ti_p; n_tij_p := tij_p;
        n_ti_t := ti_t; n_tij_t := tij_t; n_tik_t := tik_t |}.

(** [Manybody.get_non_affine_forces] *)
Definition get_non_affine_forces (self : object) (atoms : Atoms) : result (list ten3) :=
  let* f := non_affine_fields self atoms in
  let self := n_self f in
  let i_p := n_i_p f in
  let j_p := n_j_p f in
  let r_p := n_r_p f in
  let r_pc := n_r_pc f in
  let nb_atoms := n_nb_atoms f in
  let nb_pairs := n_nb_pairs f in
  let n_pc := n_n_pc f in
  let dn_pcc := n_dn_pcc f in
  let ij_t := n_ij_t f in
  let ik_t := n_ik_t f in
  (* potential-dependent functions *)
  let* g := potential_GF self r_p r_pc nb_pairs ij_t ik_t (n_ti_p f) (n_tij_p f)
              (n_ti_t f) (n_tij_t f) (n_tik_t f) in
  let rij_tc := g_rij_tc g in
  let rik_tc := g_rik_tc g in
  let d1G_tc := g_d1G_tc g in
  let d2G_tc := g_d2G_tc g in
  (* Derivative of xi with respect to the deformation gradient *)
  let* dxidF_pab :=
    mabincount ij_t (aadd (_o d1G_tc rij_tc) (_o d2G_tc rik_tc)) nb_pairs in
  (* Term 1 *)
  let naF1_ncab := ascal (g_d11F_p g) (_o3 n_pc n_pc r_pc) in
  (* Term 2 *)
  let* d12F_t := take (g_d12F_p g) ij_t in
  let* n_tc := take n_pc ij_t in
  let naF21_tcab := ascal d12F_t
    (aadd (aadd (aadd (_o3 n_tc d1G_tc rij_tc) (_o3 n_tc d2G_tc rik_tc))
                (_o3 d1G_tc n_tc rij_tc)) (_o3 d2G_tc n_tc rij_tc)) in
  let naF22_tcab := map opp (ascal d12F_t
    (aadd (aadd (_o3 n_tc d1G_tc rij_tc) (_o3 n_tc d2G_tc rik_tc))
          (_o3 d1G_tc n_tc rij_tc))) in
  let naF23_tcab := map opp (ascal d12F_t (_o3 d2G_tc n_tc rij_tc)) in
  (* Term 3 *)
  let* d22F_t := take (g_d22F_p g) ij_t in
  let* dxidF_tab := take dxidF_pab ij_t in
  let naF31_tcab := zip3_with
    (fun d22F (d1G : vec3) (dxidF : mat3) => (fun c a b => d22F * d1G c * dxidF a b) : ten3)
    d22F_t d1G_tc dxidF_tab in
  let naF32_tcab := zip3_with
    (fun d22F (d2G : vec3) (dxidF : mat3) => (fun c a b => d22F * d2G c * dxidF a b) : ten3)
    d22F_t d2G_tc dxidF_tab in
  (* Term 4 *)
  let naF4_ncab := ascal (g_d1F_p g)
    (zip_with (fun (dn : mat3) (r : vec3) => (fun c a b => dn c a * r b) : ten3)
       dn_pcc r_pc) in
  (* Term 5 *)
  let* d2F_t := take (g_d2F_p g) ij_t in
  let times (m : list mat3) (r : list vec3) : list ten3 :=
    zip_with (fun (m : mat3) (r : vec3) => (fun c a b => m c a * r b) : ten3) m r in
  let d11G := g_d11G_tcc g in
  let d12G := g_d12G_tcc g in
  let d22G := g_d22G_tcc g in
  let naF51_tcab := ascal d2F_t
    (aadd (aadd (aadd (times d11G rij_tc) (times d12G rik_tc)) (times d22G rik_tc))
          (times (map transpose d12G) rij_tc)) in
  let naF52_tcab := map opp (ascal d2F_t
    (aadd (times d11G rij_tc) (times d12G rik_tc))) in
  let naF53_tcab := map opp (ascal d2F_t
    (aadd (times (map transpose d12G) rij_tc) (times d22G rik_tc))) in
  let* a1 := mabincount i_p naF1_ncab nb_atoms in
  let* a2 := mabincount j_p naF1_ncab nb_atoms in
  let* i_t := take i_p ij_t in
  let* a3 := mabincount i_t naF21_tcab nb_atoms in
  let* j_t := take j_p ij_t in
  let* a4 := mabincount j_t naF22_tcab nb_atoms in
  let* k_t := take j_p ik_t in
  let* a5 := mabincount k_t naF23_tcab nb_atoms in
  let* a6 := mabincount i_t naF31_tcab nb_atoms in
  let* a7 := mabincount j_t naF31_tcab nb_atoms in
  let* a8 := mabincount i_t naF32_tcab nb_atoms in
  let* a9 := mabincount k_t naF32_tcab nb_atoms in
  let* a10 := mabincount i_p naF4_ncab nb_atoms in
  let* a11 := mabincount j_p naF4_ncab nb_atoms in
  let* a12 := mabincount i_t naF51_tcab nb_atoms in
  let* a13 := mabincount j_t naF52_tcab nb_atoms in
  let* a14 := mabincount k_t naF53_tcab nb_atoms in
  let naforces_icab :=
    aadd (aadd (aadd (asub (aadd (asub (aadd (asub (aadd (aadd (aadd (aadd
      (asub a1 a2) a3) a4) a5) a6) a7) a8) a9) a10) a11) a12) a13) a14 in
  Ok (adiv naforces_icab 2).

End Evaluation.

(** *** Non-affine contribution to the elastic constants *)

(** scipy's [cg(A, b, atol=tol)]: the solution and the exit code [info]. *)
Class Solver : Type := {
  cg : hessian_out -> list R -> R -> list R * Z
}.

(** [calc = atoms.get_calculator()]: the calculator attached to the
    configuration, with the two methods called on it. *)
Record AseCalculator : Type := {
  calc_get_hessian : Atoms -> string -> result hessian_out;
  calc_get_non_affine_forces : Atoms -> result (list ten3)
}.

Section NonAffine.
Context {solver : Solver}.

(** [a.T] of a two-dimensional array given by its rows. *)
Definition transpose2 (m : list (list R)) : list (list R) :=
  match m with
  | [] => []
  | r :: _ => map (fun j => map (fun row => nth j row 0) m) (seq 0 (length r))
  end.

(** [a.reshape(-1, n)] of the flattened array. *)
Definition reshape_rows (flat : list R) (n : nat) : result (list (list R)) :=
  if decide (n = 0%nat) then Raise ValueError
  else if decide ((length flat mod n)%nat = 0%nat)
       then Ok (map (fun k => slice flat (k * n) (k * n + n)) (seq 0 (length flat / n)))
       else Raise ValueError.

(** [naforces_icab.reshape(3 * nat, 3, 3)]: one matrix per atom and force
    direction. *)
Definition naforces_rows (nat : nat) (naforces_icab : list ten3) : result (list mat3) :=
  if decide (length naforces_icab = nat)
  then Ok (flat_map (fun T : ten3 => map (fun c => T c) carts) naforces_icab)
  else Raise ValueError.

(** [naforces_icab[:, :, i, j].flatten()] *)
Definition naforces_column (naforces_icab : list ten3) (i j : cart) : list R :=
  flat_map (fun T : ten3 => map (fun c => T c i j) carts) naforces_icab.

Definition cg_message : string :=
  " info > 0: CG tolerance not achieved, info < 0: Exceeded number of iterations.".

(** The index pairs [(i, j)] in the order of the loops. *)
Definition strain_indices : list (cart * cart) :=
  i ← carts; j ← carts; [(i, j)].

(** The loop over the strain components (lines 630 to 636), with the list
    of the systems handed to the solver. *)
Fixpoint cg_loop (H_nn : hessian_out) (naforces_icab : list ten3) (tol : R)
    (rows : nat) (todo : list (cart * cart)) (D_iab : list mat3)
  : list (cart * cart) * result (list mat3) :=
  match todo with
  | [] => ([], Ok D_iab)
  | (i, j) :: todo' =>
      let '(x, info) := cg H_nn (naforces_column naforces_icab i j) tol in
      if decide (info <> 0%Z) then ([(i, j)], Raise (RuntimeError cg_message))
      else
        match assign_broadcast rows x with
        | Raise e => ([(i, j)], Raise e)
        | Ok v =>
            let '(solved, r) :=
              cg_loop H_nn naforces_icab tol rows todo' (set_component D_iab i j v) in
            ((i, j) :: solved, r)
        end
  end.

(** Symmetrize (line 641). *)
Definition symmetrize (C_abab : ten4) : ten4 :=
  fun a b c d =>
    (C_abab a b c d + C_abab b a c d + C_abab a b d c + C_abab b a d c) / 4.

(** The conjugate-gradient branch (lines 626 to 638). *)
Definition cg_branch (calc : AseCalculator) (atoms : Atoms) (tol : R)
  : list (cart * cart) * result ten4 :=
  let nat := len atoms in
  match calc_get_hessian calc atoms "sparse" with
  | Raise e => ([], Raise e)
  | Ok H_nn =>
      match calc_get_non_affine_forces calc atoms with
      | Raise e => ([], Raise e)
      | Ok naforces_icab =>
          let D_iab := replicate (3 * nat) (zero : mat3) in
          let '(solved, r) :=
            cg_loop H_nn naforces_icab tol (3 * nat) strain_indices D_iab in
          (solved,
           let* D_iab := r in
           let* F := naforces_rows nat naforces_icab in
           Ok (asum (zip_with
                 (fun (F D : mat3) => (fun a b c d => F a b * D c d) : ten4) F D_iab)))
      end
  end.

(** The branch with known eigenvalues and eigenvectors (lines 618 to
    623). *)
Definition eigen_branch (calc : AseCalculator) (atoms : Atoms)
    (eigenvalues : list R) (eigenvectors : list (list R)) : result ten4 :=
  let nat := len atoms in
  let* naforces_icab := calc_get_non_affine_forces calc atoms in
  let* ev := reshape_rows (concat (transpose2 eigenvectors)) (3 * nat) in
  let* F := naforces_rows nat naforces_icab in
  let G_incc := map (fun row => zip_with (fun e (m : mat3) => scal e m) row F) ev in
  let* G_incc := broadcast2 (fun row s => map (fun m : mat3 => scal (/ s) m) row)
                   G_incc (map sqrt eigenvalues) in
  let G_icc := map asum G_incc in
  Ok (asum (map (fun G : mat3 => (fun a b c d => G a b * G c d) : ten4) G_icc)).

(** [Manybody.get_non_affine_contribution_to_elastic_constants] *)
Definition get_non_affine_contribution_to_elastic_constants (calc : AseCalculator)
    (atoms : Atoms) (eigenvalues : option (list R))
    (eigenvectors : option (list (list R))) (tol : R) : result ten4 :=
  let* C_abab :=
    match eigenvalues, eigenvectors with
    | Some eigenvalues, Some eigenvectors =>
        eigen_branch calc atoms eigenvalues eigenvectors
    | _, _ => (cg_branch calc atoms tol).2
    end in
  (* Symmetrize *)
  let C_abab := symmetrize C_abab in
  Ok (fun a b c d => - C_abab a b c d / volume atoms).

(** The linear systems solved during a call, in order. *)
Definition cg_solves (calc : AseCalculator) (atoms : Atoms)
    (eigenvalues : option (list R)) (eigenvectors : option (list (list R))) (tol : R)
  : list (cart * cart) :=
  match eigenvalues, eigenvectors with
  | Some _, Some _ => []
  | _, _ => (cg_branch calc atoms tol).1
  end.

End NonAffine.

(** The calculator itself attached to the configuration. *)
Definition attached {nb : Neighbours}
    (term_1 : HessianFields -> HessianPhi -> list mat3) (self : object) : AseCalculator :=
  {| calc_get_hessian := fun atoms format => get_hessian term_1 self atoms format false;
     calc_get_non_affine_forces := fun atoms => get_non_affine_forces self atoms |}.

(** *** Stress contribution and Birch coefficients *)

(** What [get_stress_contribution_to_elastic_constants] takes from outside
    this module: [atoms.get_stress()] of ASE, the stress in Voigt notation,
    and [Voigt_6_to_full_3x3_stress] of [matscipy.elasticity]. *)
Class StressTensor : Type := {
  get_stress : Atoms -> list R;
  Voigt_6_to_full_3x3_stress : list R -> mat3
}.

(** The methods that [get_birch_coefficients] calls on
    [atoms.get_calculator()]. *)
Record ElasticCalculator : Type := {
  calc_get_born_elastic_constants : Atoms -> result ten4;
  calc_get_stress_contribution_to_elastic_constants : Atoms -> result ten4
}.

Section Birch.
Context {nb : Neighbours} {st : StressTensor}.

(** [Manybody.get_stress_contribution_to_elastic_constants] *)
Definition get_stress_contribution_to_elastic_constants (self : object) (atoms : Atoms)
  : ten4 :=
  let stress_ab := Voigt_6_to_full_3x3_stress (get_stress atoms) in
  let delta_ab := eye in
  (* Term 1 *)
  let C1_abab : ten4 := fun a b c d => - stress_ab a b * delta_ab c d in
  (* Term 2 *)
  let C2_abab : ten4 := fun a b c d =>
    (stress_ab a c * delta_ab b d
     + stress_ab a d * delta_ab b c
     + stress_ab b c * delta_ab a d
     + stress_ab b d * delta_ab a c) / 2 in
  add C1_abab C2_abab.

(** [Manybody.get_birch_coefficients]; [calc] is [atoms.get_calculator()]. *)
Definition get_birch_coefficients (self : object) (calc : ElasticCalculator)
    (atoms : Atoms) : result ten4 :=
  let* self := default_atoms self atoms in
  (* Born (affine) elastic constants *)
  let* bornC_abab := calc_get_born_elastic_constants calc atoms in
  (* Stress contribution to elastic constants *)
  let* stressC_abab := calc_get_stress_contribution_to_elastic_constants calc atoms in
  Ok (add bornC_abab stressC_abab).

(** The calculator itself attached to the configuration, for the elastic
    constants. *)
Definition attached_elastic (self : object) : ElasticCalculator :=
  {| calc_get_born_elastic_constants := fun atoms => get_born_elastic_constants self atoms;
     calc_get_stress_contribution_to_elastic_constants :=
       fun atoms => Ok (get_stress_contribution_to_elastic_constants self atoms) |}.

End Birch.

End Manybody.

(** ** Instances built by the constructor *)

(** The arguments of the constructor. *)
Record Params : Type := {
  P_atom_type : Z -> nat;
  P_pair_type : nat -> nat -> nat;
  P_phi : phi_fn;
  P_d1phi : phi_fn;
  P_d2phi : phi_fn;
  P_d11phi : phi_fn;
  P_d12phi : phi_fn;
  P_d22phi : phi_fn;
  P_theta : theta_fn;
  P_d1theta : theta_fn;
  P_d2theta : theta_fn;
  P_d3theta : theta_fn;
  P_d11theta : theta_fn;
  P_d12theta : theta_fn;
  P_d13theta : theta_fn;
  P_d22theta : theta_fn;
  P_d23theta : theta_fn;
  P_d33theta : theta_fn;
  P_cutoff : cutoff_spec
}.

(** [Manybody(atom_type, pair_type, phi, ..., cutoff)] *)
Definition new (P : Params) : object :=
  Manybody.__init__ (P_atom_type P) (P_pair_type P)
    (P_phi P) (P_d1phi P) (P_d2phi P) (P_d11phi P) (P_d12phi P) (P_d22phi P)
    (P_theta P) (P_d1theta P) (P_d2theta P) (P_d3theta P) (P_d11theta P)
    (P_d12theta P) (P_d13theta P) (P_d22theta P) (P_d23theta P) (P_d33theta P)
    (P_cutoff P).

(** An instance in a later state: methods have replaced [self.atoms] and
    [self.results]. *)
Definition instance (P : Params) (atoms results : pyval) : object :=
  setattr (setattr (new P) "atoms" atoms) "results" results.

(** The attributes the constructor stores, as a method finds them. *)
Definition constructor_attributes (P : Params) : list (string * pyval) :=
  [ ("atom_type", PyAtomType (P_atom_type P));
    ("pair_type", PyPairType (P_pair_type P));
    ("phi", PyPhi (P_phi P)); ("d1phi", PyPhi (P_d1phi P));
    ("d2phi", PyPhi (P_d2phi P)); ("d11phi", PyPhi (P_d11phi P));
    ("d12phi", PyPhi (P_d12phi P)); ("d22phi", PyPhi (P_d22phi P));
    ("theta", PyTheta (P_theta P)); ("d1theta", PyTheta (P_d1theta P));
    ("d2theta", PyTheta (P_d2theta P)); ("d3theta", PyTheta (P_d3theta P));
    ("d11theta", PyTheta (P_d11theta P)); ("d12theta", PyTheta (P_d12theta P));
    ("d13theta", PyTheta (P_d13theta P)); ("d22theta", PyTheta (P_d22theta P));
    ("d23theta", PyTheta (P_d23theta P)); ("d33theta", PyTheta (P_d33theta P));
    ("cutoff", PyCutoff (P_cutoff P)) ].

Definition is_manybody (P : Params) (self : object) : Prop :=
  Forall (fun kv => self !! kv.1 = Some kv.2) (constructor_attributes P).

(** ** Vocabulary of the statements *)

(** A column of an array of vectors. *)
Definition col (c : cart) (l : list vec3) : list R := map (fun u => u c) l.

(** The contract of the neighbour and triplet lists for a configuration:
    every pair names two atoms of the configuration, every triplet two
    pairs of the list. *)
Definition wf_neighbours {nb : Neighbours} (atoms : Atoms) (cutoff : R) : Prop :=
  let nl := neighbour_list atoms cutoff in
  Forall (fun p => (pair_i p < len atoms)%nat /\ (pair_j p < len atoms)%nat) nl /\
  Forall (fun t => (t.1 < length nl)%nat /\ (t.2 < length nl)%nat)
    (triplet_list (first_neighbours (len atoms) (map pair_i nl))).

(** The sum of the weights whose key is [n]: what an accumulation by key
    leaves in bin [n]. *)
Definition gather (x : list nat) (w : list R) (n : nat) : R :=
  asum (zip_with (fun i wi => if decide (i = n) then wi else 0) x w).

(** Net contribution to component [c] of the force on atom [n] of the bond
    forces [w], each added to the owner of its bond and subtracted from
    the partner. *)
Definition bond_force (owner partner : list nat) (w : list vec3) (n : nat) (c : cart) : R :=
  gather owner (col c w) n - gather partner (col c w) n.

(** The sum over bonds of the outer product of the bond vector with the
    force contribution of the bond. *)
Definition outer_sum (r f : list vec3) : mat3 := asum (_o r f).

(** The virial: the pairs with their pairwise forces, and the three bonds
    ij, ik and jk of every triplet with their triplet forces. *)
Definition virial_tensor (f : Manybody.CalculateFields) (k : Manybody.Contributions) : mat3 :=
  add (outer_sum (Manybody.c_r_pc f) (Manybody.fij_pc k))
    (add (add (outer_sum (Manybody.rij_c k) (Manybody.fij_tc k))
              (outer_sum (Manybody.rik_c k) (Manybody.fik_tc k)))
         (outer_sum (asub (Manybody.rik_c k) (Manybody.rij_c k)) (Manybody.fjk_tc k))).

(** Voigt order of the six independent components. *)
Definition voigt : list (cart * cart) :=
  [ (cx, cx); (cy, cy); (cz, cz); (cy, cz); (cx, cz); (cx, cy) ].

(** Shapes and index ranges of the local variables of [calculate]. *)
Record wf_fields (f : Manybody.CalculateFields) : Prop := {
  wf_nb_pairs : Manybody.c_nb_pairs f = length (Manybody.c_i_p f);
  wf_j_p : length (Manybody.c_j_p f) = length (Manybody.c_i_p f);
  wf_r_p : length (Manybody.c_r_p f) = length (Manybody.c_i_p f);
  wf_r_pc : length (Manybody.c_r_pc f) = length (Manybody.c_i_p f);
  wf_R_p : length (Manybody.c_R_p f) = length (Manybody.c_i_p f);
  wf_ti_p : length (Manybody.c_ti_p f) = length (Manybody.c_i_p f);
  wf_tij_p : length (Manybody.c_tij_p f) = length (Manybody.c_i_p f);
  wf_xi_p : length (Manybody.c_xi_p f) = length (Manybody.c_i_p f);
  wf_phi_p : length (Manybody.c_phi_p f) = length (Manybody.c_i_p f);
  wf_d1phi_p : length (Manybody.c_d1phi_p f) = length (Manybody.c_i_p f);
  wf_d2phi_p : length (Manybody.c_d2phi_p f) = length (Manybody.c_i_p f);
  wf_ik_t : length (Manybody.c_ik_t f) = length (Manybody.c_ij_t f);
  wf_theta_t : length (Manybody.c_theta_t f) = length (Manybody.c_ij_t f);
  wf_d1theta_t : length (Manybody.c_d1theta_t f) = length (Manybody.c_ij_t f);
  wf_d2theta_t : length (Manybody.c_d2theta_t f) = length (Manybody.c_ij_t f);
  wf_d3theta_t : length (Manybody.c_d3theta_t f) = length (Manybody.c_ij_t f);
  wf_ij_bound : Forall (fun p => (p < length (Manybody.c_i_p f))%nat) (Manybody.c_ij_t f);
  wf_ik_bound : Forall (fun p => (p < length (Manybody.c_i_p f))%nat) (Manybody.c_ik_t f);
  wf_i_bound : Forall (fun a => (a < Manybody.c_nb_atoms f)%nat) (Manybody.c_i_p f);
  wf_j_bound : Forall (fun a => (a < Manybody.c_nb_atoms f)%nat) (Manybody.c_j_p f)
}.

(** The contract of the neighbour list and of the triplet list with jk
    pairs ([triplet_list(first_n, r_p, cutoff, i_p, j_p)]). *)
Definition wf_neighbours_jk {nb : Neighbours} (atoms : Atoms) (cutoff : R) : Prop :=
  let nl := neighbour_list atoms cutoff in
  Forall (fun p => (pair_i p < len atoms)%nat /\ (pair_j p < len atoms)%nat) nl /\
  Forall (fun t => (t.1.1 < length nl)%nat /\ (t.1.2 < length nl)%nat)
    (triplet_list_jk (first_neighbours (len atoms) (map pair_i nl))
       (map pair_d nl) cutoff (map pair_i nl) (map pair_j nl)).

(** The coordination array is the complete sum: entry [p] is the sum of
    theta over the triplets whose ij side is pair [p], and zero for a pair
    without such a triplet. *)
Definition xi_is_full_sum (nb_pairs : nat) (ij_t : list nat) (theta_t xi_p : list R) : Prop :=
  length xi_p = nb_pairs /\
  (forall p, (p < nb_pairs)%nat -> xi_p !! p = Some (gather ij_t theta_t p)) /\
  (forall p, (p < nb_pairs)%nat -> p ∉ ij_t -> xi_p !! p = Some 0).

(** The triplets of a configuration: two positions of its neighbour list,
    the pairs ij and ik of one owner atom. *)
Definition triplets {nb : Neighbours} (atoms : Atoms) (cutoff : R) : list (nat * nat) :=
  triplet_list (first_neighbours (len atoms) (map pair_i (neighbour_list atoms cutoff))).

(** The value of a function [g] of the theta family on the triplet of the
    pairs [tr.1] (ij) and [tr.2] (ik) of the neighbour list: its arguments
    are the squared and plain distances of ij, ik and jk, the type of the
    owner atom and the pair types of ij and ik; [Rjk] is the squared norm
    applied to the difference of the two distance vectors. *)
Definition triplet_theta {nb : Neighbours} (P : Params) (atoms : Atoms) (cutoff : R)
    (Rjk : vec3 -> R) (g : theta_fn) (tr : nat * nat) : option R :=
  let nl := neighbour_list atoms cutoff in
  match nl !! tr.1, nl !! tr.2 with
  | Some ij, Some ik =>
      match numbers atoms !! pair_i ij, numbers atoms !! pair_j ij,
            numbers atoms !! pair_j ik with
      | Some zi, Some zj, Some zk =>
          let ti := P_atom_type P zi in
          let R_jk := Rjk (sub (pair_D ik) (pair_D ij)) in
          Some (g (pair_d ij * pair_d ij) (pair_d ij) (pair_d ik * pair_d ik) (pair_d ik)
                  R_jk (sqrt R_jk)
                  ti (P_pair_type P ti (P_atom_type P zj))
                  (P_pair_type P ti (P_atom_type P zk)))
      | _, _, _ => None
      end
  | _, _ => None
  end.

(** The array [g_t] holds, for every triplet of the configuration, the
    value of [g] on that triplet. *)
Definition theta_evaluated {nb : Neighbours} (P : Params) (atoms : Atoms) (cutoff : R)
    (Rjk : vec3 -> R) (g : theta_fn) (g_t : list R) : Prop :=
  length g_t = length (triplets atoms cutoff) /\
  forall t tr, triplets atoms cutoff !! t = Some tr ->
    g_t !! t = triplet_theta P atoms cutoff Rjk g tr.

(** The value of a function [g] of the phi family on a pair with
    coordination [xi]. *)
Definition pair_phi (P : Params) (atoms : Atoms) (g : phi_fn) (xi : R) (pr : Pair)
  : option R :=
  match numbers atoms !! pair_i pr, numbers atoms !! pair_j pr with
  | Some zi, Some zj =>
      let ti := P_atom_type P zi in
      Some (g (pair_d pr * pair_d pr) (pair_d pr) xi ti
              (P_pair_type P ti (P_atom_type P zj)))
  | _, _ => None
  end.

(** The array [g_p] holds, for every pair of the neighbour list, the value
    of [g] on that pair with the entry of the pair in [xi_p]. *)
Definition phi_evaluated {nb : Neighbours} (P : Params) (atoms : Atoms) (cutoff : R)
    (xi_p : list R) (g : phi_fn) (g_p : list R) : Prop :=
  length g_p = length (neighbour_list atoms cutoff) /\
  forall p pr, neighbour_list atoms cutoff !! p = Some pr ->
    exists xi, xi_p !! p = Some xi /\ g_p !! p = pair_phi P atoms g xi pr.

(** The coordination of a configuration: theta on every triplet of the
    configuration, summed completely over the triplets of every pair. *)
Definition coordination {nb : Neighbours} (P : Params) (atoms : Atoms) (cutoff : R)
    (Rjk : vec3 -> R) (theta_t xi_p : list R) : Prop :=
  theta_evaluated P atoms cutoff Rjk (P_theta P) theta_t /\
  xi_is_full_sum (length (neighbour_list atoms cutoff))
    (map fst (triplets atoms cutoff)) theta_t xi_p.

(** The attributes that [get_second_derivative] and [get_non_affine_forces]
    read and that no statement of the module assigns. *)
Definition missing_attributes : list string :=
  [ "G"; "d1G"; "d2G"; "d11G"; "d12G"; "d22G"; "d1F"; "d2F"; "d11F"; "d12F"; "d22F" ].

(** The solve of one strain component converges and its solution fits the
    column of [D_iab]; the solve does not converge. *)
Definition solve_succeeds {solver : Manybody.Solver} (H_nn : hessian_out)
    (naforces_icab : list ten3) (tol : R) (rows : nat) (ij : cart * cart) : Prop :=
  let r := Manybody.cg H_nn (Manybody.naforces_column naforces_icab ij.1 ij.2) tol in
  r.2 = 0%Z /\ exists v, assign_broadcast rows r.1 = Ok v.

Definition solve_fails {solver : Manybody.Solver} (H_nn : hessian_out)
    (naforces_icab : list ten3) (tol : R) (ij : cart * cart) : Prop :=
  (Manybody.cg H_nn (Manybody.naforces_column naforces_icab ij.1 ij.2) tol).2 <> 0%Z.

(** The symmetries of an elastic tensor: the minor symmetries in the first
    and in the second index pair, and the major symmetry between them. *)
Definition voigt_symmetric (C : ten4) : Prop :=
  forall a b c d,
    C a b c d = C b a c d /\ C a b c d = C a b d c /\ C a b c d = C c d a b.

Definition symmetric_matrix (m : mat3) : Prop := forall a b, m a b = m b a.

(** The entry of a table of cutoffs for the pair type of two elements. *)
Definition pair_cutoff (P : Params) (table : gmap nat R) (i j : Z) : option R :=
  table !! P_pair_type P (P_atom_type P i) (P_atom_type P j).

(** [Hs] is [H] after [H += H.transpose(0, 2, 1)[tr_p]]: every block has
    received the transpose of the block of its reversed pair. *)
Definition symmetrized (tr_p : list nat) (H Hs : list mat3) : Prop :=
  length Hs = length H /\
  forall p q m mq, tr_p !! p = Some q -> H !! p = Some m -> H !! q = Some mq ->
    Hs !! p = Some (add m (transpose mq)).

(** In the components listed in [S], block [n] of [H_acc] is minus the sum
    of the blocks of [H_pcc] whose owner is atom [n]. *)
Definition minus_owner_sum (S : list (cart * cart)) (i_p : list nat)
    (H_pcc H_acc : list mat3) : Prop :=
  forall n M, H_acc !! n = Some M -> forall x y, In (x, y) S ->
    M x y = - gather i_p (map (fun m : mat3 => m x y) H_pcc) n.

(** The contract of [first_neighbours]: the pairs owned by atom [a] are the
    pairs [first_n[a] .. first_n[a + 1] - 1] of the list. *)
Definition owner_ranges (nb_atoms : nat) (first_n i_p : list nat) : Prop :=
  length first_n = S nb_atoms /\
  forall a lo hi, first_n !! a = Some lo -> first_n !! (S a) = Some hi ->
    (lo <= hi)%nat /\
    forall k i, i_p !! k = Some i -> (i = a <-> (lo <= k < hi)%nat).

(** What [bsr_matrix((data, indices, indptr), shape)] requires of its
    arguments for [nb_rows] block rows: as many blocks as indices, one
    index pointer per block row and one more, the first of them 0 and the
    last within the index array. *)
Definition bsr_format (nb_rows : nat) (data : list mat3) (indices indptr : list nat)
  : Prop :=
  length data = length indices /\
  length indptr = S nb_rows /\
  indptr !! 0%nat = Some 0%nat /\
  exists e, indptr !! nb_rows = Some e /\ (e <= length indices)%nat.

(** The sum of the blocks of block row [a] over the [n] block columns. *)
Definition block_row_sum (H : sparse) (n a : nat) : mat3 :=
  asum (map (block H a) (arange n)).

(** The results stored by [calculate]. *)
Definition results_of (self : object) : option Results :=
  match self !! "results" with
  | Some (PyResults r) => Some r
  | _ => None
  end.

(** The observables a call of [calculate] leaves in [self.results]. *)
Definition observables {nb : Neighbours} (self : object) (atoms : Atoms) : result Results :=
  let* self' := Manybody.calculate self atoms in
  of_option (AttributeError "results") (results_of self').

(** ** Example configurations *)

Module Example.

(** Three atoms of one species: atom 0 at the origin with the neighbours 1
    and 2 at unit distance along x and y; atoms 1 and 2 are out of each
    other's range. *)
Definition trimer : Atoms :=
  {| numbers := [14; 14; 14]%Z;
     positions := [mk3 0 0 0; mk3 1 0 0; mk3 0 1 0];
     masses := [28; 28; 28];
     volume := 1000 |}.

Definition trimer_pairs : list Pair :=
  [ {| pair_i := 0; pair_j := 1; pair_d := 1; pair_D := mk3 1 0 0 |};
    {| pair_i := 0; pair_j := 2; pair_d := 1; pair_D := mk3 0 1 0 |};
    {| pair_i := 1; pair_j := 0; pair_d := 1; pair_D := mk3 (-1) 0 0 |};
    {| pair_i := 2; pair_j := 0; pair_d := 1; pair_D := mk3 0 (-1) 0 |} ].

(** What the neighbour-list functions return for the trimer. *)
Definition trimer_neighbours : Neighbours :=
  {| neighbour_list := fun _ _ => trimer_pairs;
     first_neighbours := fun _ _ => [0; 2; 3; 4]%nat;
     triplet_list := fun _ => [(0, 1); (1, 0)]%nat;
     triplet_list_jk := fun _ _ _ _ _ => [(0, 1, 0); (1, 0, 0)]%nat;
     find_indices_of_reversed_pairs := fun _ _ _ => [2; 3; 0; 1]%nat |}.

(** Two atoms of one species at distance [r0] along x. *)
Definition dimer : Atoms :=
  {| numbers := [14; 14]%Z;
     positions := [mk3 0 0 0; mk3 2 0 0];
     masses := [28; 28];
     volume := 1000 |}.

Definition dimer_pairs (r0 : R) : list Pair :=
  [ {| pair_i := 0; pair_j := 1; pair_d := r0; pair_D := mk3 r0 0 0 |};
    {| pair_i := 1; pair_j := 0; pair_d := r0; pair_D := mk3 (- r0) 0 0 |} ].

Definition dimer_neighbours : Neighbours :=
  {| neighbour_list := fun _ _ => dimer_pairs 2;
     first_neighbours := fun _ _ => [0; 1; 2]%nat;
     triplet_list := fun _ => [];
     triplet_list_jk := fun _ _ _ _ _ => [];
     find_indices_of_reversed_pairs := fun _ _ _ => [1; 0]%nat |}.

(** A potential with a scalar cutoff. *)
Definition potential : Params :=
  {| P_atom_type := fun _ => 0%nat;
     P_pair_type := fun _ _ => 0%nat;
     P_phi := fun R_ r xi _ _ => R_ - 2 * r + xi;
     P_d1phi := fun R_ r xi _ _ => r - 1;
     P_d2phi := fun R_ r xi _ _ => 1;
     P_d11phi := fun R_ r xi _ _ => 1;
     P_d12phi := fun R_ r xi _ _ => 0;
     P_d22phi := fun R_ r xi _ _ => 0;
     P_theta := fun Rij rij Rik rik Rjk rjk _ _ _ => Rij + Rik - Rjk;
     P_d1theta := fun Rij rij Rik rik Rjk rjk _ _ _ => 1;
     P_d2theta := fun Rij rij Rik rik Rjk rjk _ _ _ => 1;
     P_d3theta := fun Rij rij Rik rik Rjk rjk _ _ _ => -1;
     P_d11theta := fun Rij rij Rik rik Rjk rjk _ _ _ => 0;
     P_d12theta := fun Rij rij Rik rik Rjk rjk _ _ _ => 0;
     P_d13theta := fun Rij rij Rik rik Rjk rjk _ _ _ => 0;
     P_d22theta := fun Rij rij Rik rik Rjk rjk _ _ _ => 0;
     P_d23theta := fun Rij rij Rik rik Rjk rjk _ _ _ => 0;
     P_d33theta := fun Rij rij Rik rik Rjk rjk _ _ _ => 0;
     P_cutoff := CutoffScalar 3 |}.

(** A configuration without atoms. *)
Definition no_atoms : Atoms :=
  {| numbers := [];
     positions := [];
     masses := [];
     volume := 1000 |}.

(** Three atoms of which the last has no neighbour. *)
Definition dimer_and_atom : Atoms :=
  {| numbers := [14; 14; 14]%Z;
     positions := [mk3 0 0 0; mk3 2 0 0; mk3 50 0 0];
     masses := [28; 28; 28];
     volume := 1000 |}.

(** A set of constructor arguments with another cutoff. *)
Definition with_cutoff (P : Params) (cutoff : cutoff_spec) : Params :=
  {| P_atom_type := P_atom_type P;
     P_pair_type := P_pair_type P;
     P_phi := P_phi P;
     P_d1phi := P_d1phi P;
     P_d2phi := P_d2phi P;
     P_d11phi := P_d11phi P;
     P_d12phi := P_d12phi P;
     P_d22phi := P_d22phi P;
     P_theta := P_theta P;
     P_d1theta := P_d1theta P;
     P_d2theta := P_d2theta P;
     P_d3theta := P_d3theta P;
     P_d11theta := P_d11theta P;
     P_d12theta := P_d12theta P;
     P_d13theta := P_d13theta P;
     P_d22theta := P_d22theta P;
     P_d23theta := P_d23theta P;
     P_d33theta := P_d33theta P;
     P_cutoff := cutoff |}.

(** The potential with a table that holds the cutoff of its one pair type. *)
Definition tabulated_potential : Params :=
  with_cutoff potential (CutoffTable {[ 0%nat := 3 ]}).

(** The full stress tensor of a stress in Voigt notation
    (xx, yy, zz, yz, xz, xy). *)
Definition voigt_to_full (s : list R) : mat3 :=
  fun a b =>
    match a, b with
    | cx, cx => nth 0 s 0
    | cy, cy => nth 1 s 0
    | cz, cz => nth 2 s 0
    | cy, cz | cz, cy => nth 3 s 0
    | cx, cz | cz, cx => nth 4 s 0
    | cx, cy | cy, cx => nth 5 s 0
    end.

(** A configuration under stress. *)
Definition stressed : Manybody.StressTensor :=
  {| Manybody.get_stress := fun _ => [1; 2; 3; 4; 5; 6];
     Manybody.Voigt_6_to_full_3x3_stress := voigt_to_full |}.

(** Two atoms out of each other's range, and what the neighbour-list
    functions return for them. *)
Definition far_pair : Atoms :=
  {| numbers := [14; 14]%Z;
     positions := [mk3 0 0 0; mk3 50 0 0];
     masses := [28; 28];
     volume := 1000 |}.

Definition no_neighbours : Neighbours :=
  {| neighbour_list := fun _ _ => [];
     first_neighbours := fun n _ => replicate (S n) 0%nat;
     triplet_list := fun _ => [];
     triplet_list_jk := fun _ _ _ _ _ => [];
     find_indices_of_reversed_pairs := fun _ _ _ => [] |}.

(** What the neighbour-list functions return when the first of two atoms
    is in range of two periodic images of itself and the second atom is
    isolated. *)
Definition self_image_neighbours : Neighbours :=
  {| neighbour_list := fun _ _ =>
       [ {| pair_i := 0; pair_j := 0; pair_d := 1; pair_D := mk3 1 0 0 |};
         {| pair_i := 0; pair_j := 0; pair_d := 1; pair_D := mk3 (-1) 0 0 |} ];
     first_neighbours := fun _ _ => [0; 2; 2]%nat;
     triplet_list := fun _ => [(0, 1); (1, 0)]%nat;
     triplet_list_jk := fun _ _ _ _ _ => [(0, 1, 0); (1, 0, 0)]%nat;
     find_indices_of_reversed_pairs := fun _ _ _ => [1; 0]%nat |}.

(** What the neighbour-list functions return for the dimer with a third,
    isolated atom. *)
Definition dimer_and_atom_neighbours : Neighbours :=
  {| neighbour_list := fun _ _ => dimer_pairs 2;
     first_neighbours := fun _ _ => [0; 1; 2; 2]%nat;
     triplet_list := fun _ => [];
     triplet_list_jk := fun _ _ _ _ _ => [];
     find_indices_of_reversed_pairs := fun _ _ _ => [1; 0]%nat |}.

(** A value of Term 1 for two pairs. *)
Definition term_1_blocks : list mat3 :=
  [ outer2 (mk3 1 2 3) (mk3 0 1 0); eye ].

(** A calculator attached to the dimer that knows its non-affine forces. *)
Definition dimer_calculator : Manybody.AseCalculator :=
  {| Manybody.calc_get_hessian := fun _ _ => Ok HessianNone;
     Manybody.calc_get_non_affine_forces :=
       fun _ => Ok [ (fun c a b => if decide (c = a) then 1 else 0) : ten3;
                     (fun c a b => if decide (c = b) then -1 else 0) : ten3 ] |}.

(** A solver that always converges, and solvers whose exit code reports
    one or the other reason of failure. *)
Definition converging_solver : Manybody.Solver :=
  {| Manybody.cg := fun _ b _ => (b, 0%Z) |}.

Definition solver_with_info (info : Z) : Manybody.Solver :=
  {| Manybody.cg := fun _ b _ => (b, info) |}.

(** The same potential with a cutoff table that has no entry. *)
Definition table_potential : Params :=
  {| P_atom_type := P_atom_type potential;
     P_pair_type := P_pair_type potential;
     P_phi := P_phi potential;
     P_d1phi := P_d1phi potential;
     P_d2phi := P_d2phi potential;
     P_d11phi := P_d11phi potential;
     P_d12phi := P_d12phi potential;
     P_d22phi := P_d22phi potential;
     P_theta := P_theta potential;
     P_d1theta := P_d1theta potential;
     P_d2theta := P_d2theta potential;
     P_d3theta := P_d3theta potential;
     P_d11theta := P_d11theta potential;
     P_d12theta := P_d12theta potential;
     P_d13theta := P_d13theta potential;
     P_d22theta := P_d22theta potential;
     P_d23theta := P_d23theta potential;
     P_d33theta := P_d33theta potential;
     P_cutoff := CutoffTable ∅ |}.

End Example.

(** * Properties *)

(** ** The result monad *)

Lemma map_fmap {A B : Type} (f : A -> B) (l : list A) : map f l = f <$> l.
Proof. reflexivity. Qed.

Lemma bind_Ok {A B : Type} (m : result A) (k : A -> result B) (b : B) :
  bind m k = Ok b -> exists a, m = Ok a /\ k a = Ok b.
Proof. destruct m as [a|e]; simpl; [eauto | discriminate]. Qed.

(** Decompose a successful run into its successful steps. *)
Ltac inv_bind H :=
  repeat
    (let a := fresh "v" in
     let E := fresh "E" in
     apply bind_Ok in H; destruct H as (a & E & H)).

Lemma mapM_Ok_length {A B : Type} (f : A -> result B) l v :
  mapM f l = Ok v -> length v = length l.
Proof.
  revert v; induction l as [|a l IH]; simpl; intros v Hv.
  - injection Hv as <-. reflexivity.
  - inv_bind Hv. injection Hv as <-. simpl. f_equal. eauto.
Qed.

Lemma mapM_Ok_lookup {A B : Type} (f : A -> result B) l v k a :
  mapM f l = Ok v -> l !! k = Some a -> exists b, v !! k = Some b /\ f a = Ok b.
Proof.
  revert v k; induction l as [|a' l IH]; simpl; intros v k Hv Hk; [discriminate|].
  inv_bind Hv. injection Hv as <-.
  destruct k as [|k]; simpl in *.
  - injection Hk as ->. eauto.
  - eauto.
Qed.

Lemma mapM_total {A B : Type} (f : A -> result B) l :
  Forall (fun a => exists b, f a = Ok b) l -> exists v, mapM f l = Ok v.
Proof.
  induction 1 as [|a l [b Hb] _ [v Hv]]; simpl; [eauto|].
  rewrite Hb; simpl. rewrite Hv; simpl. eauto.
Qed.

(** ** Fancy indexing *)

Lemma take_length {A : Type} (a : list A) idx v :
  take a idx = Ok v -> length v = length idx.
Proof. apply mapM_Ok_length. Qed.

Lemma take_lookup {A : Type} (a : list A) idx v k i :
  take a idx = Ok v -> idx !! k = Some i -> exists x, v !! k = Some x /\ a !! i = Some x.
Proof.
  intros Hv Hk. destruct (mapM_Ok_lookup _ _ _ _ _ Hv Hk) as (x & Hx & Hax).
  exists x; split; [exact Hx|]. destruct (a !! i); simpl in Hax; congruence.
Qed.

Lemma take_bounds {A : Type} (a : list A) idx v :
  take a idx = Ok v -> Forall (fun i => (i < length a)%nat) idx.
Proof.
  intros Hv. apply Forall_lookup. intros k i Hk.
  destruct (take_lookup _ _ _ _ _ Hv Hk) as (x & _ & Hx).
  eapply lookup_lt_Some; eauto.
Qed.

Lemma take_total {A : Type} (a : list A) idx :
  Forall (fun i => (i < length a)%nat) idx -> exists v, take a idx = Ok v.
Proof.
  intros Hb. apply mapM_total. eapply Forall_impl; [exact Hb|].
  intros i Hi; simpl in Hi. destruct (lookup_lt_is_Some_2 a i Hi) as [x Hx].
  exists x. rewrite Hx. reflexivity.
Qed.

(** ** Sums and scatter-add *)

Lemma asum_nil : asum (@nil R) = 0.
Proof. reflexivity. Qed.

Lemma asum_cons (x : R) (l : list R) : asum (x :: l) = x + asum l.
Proof. reflexivity. Qed.

Lemma asum_app (l k : list R) : asum (l ++ k) = asum l + asum k.
Proof.
  induction l as [|x l IH]; simpl.
  - rewrite asum_nil. lra.
  - rewrite !asum_cons, IH. lra.
Qed.

Lemma asum_replicate_zero n : asum (replicate n 0) = 0.
Proof.
  induction n as [|n IH]; simpl; [apply asum_nil|].
  rewrite asum_cons, IH. lra.
Qed.

Lemma alter_cons_S {A : Type} (f : A -> A) i x (l : list A) :
  alter f (S i) (x :: l) = x :: alter f i l.
Proof. reflexivity. Qed.

Lemma asum_alter_add (acc : list R) i w :
  (i < length acc)%nat -> asum (alter (fun a => a + w) i acc) = asum acc + w.
Proof.
  revert i; induction acc as [|x acc IH]; intros [|i] Hi; simpl in Hi; try lia.
  - change (alter (fun a => a + w) 0%nat (x :: acc)) with ((x + w) :: acc).
    rewrite !asum_cons. lra.
  - rewrite alter_cons_S, !asum_cons, IH by lia. lra.
Qed.

Lemma scatter_add_length {T : Type} `{Additive T} (acc : list T) x w :
  length (scatter_add acc x w) = length acc.
Proof.
  revert acc w; induction x as [|i x IH]; intros acc [|wi w]; simpl; try reflexivity.
  rewrite IH. apply length_alter.
Qed.

Lemma scatter_add_sum (acc : list R) x w :
  Forall (fun i => (i < length acc)%nat) x -> length x = length w ->
  asum (scatter_add acc x w) = asum acc + asum w.
Proof.
  revert acc w; induction x as [|i x IH]; intros acc [|wi w] Hx Hl; simpl in *; try lia.
  - rewrite asum_nil. lra.
  - inversion Hx as [|? ? Hi Hx']; subst.
    rewrite IH.
    + rewrite (asum_alter_add acc i wi Hi), asum_cons. lra.
    + rewrite length_alter. exact Hx'.
    + lia.
Qed.

Lemma gather_cons i x wi w n :
  gather (i :: x) (wi :: w) n = (if decide (i = n) then wi else 0) + gather x w n.
Proof. reflexivity. Qed.

Lemma gather_nil_l w n : gather [] w n = 0.
Proof. reflexivity. Qed.

Lemma gather_nil_r x n : gather x [] n = 0.
Proof. destruct x; reflexivity. Qed.

(** The content of a bin after accumulation. *)
Lemma scatter_add_lookup (acc : list R) x w n a :
  acc !! n = Some a ->
  scatter_add acc x w !! n = Some (a + gather x w n).
Proof.
  revert acc w a; induction x as [|i x IH]; intros acc [|wi w] a Ha; simpl.
  - rewrite gather_nil_l, Ha. f_equal. lra.
  - rewrite gather_nil_l, Ha. f_equal. lra.
  - rewrite gather_nil_r, Ha. f_equal. lra.
  - rewrite gather_cons. destruct (decide (i = n)) as [->|Hne].
    + rewrite (IH _ _ (a + wi)); [f_equal; lra|].
      rewrite list_lookup_alter_eq, Ha. reflexivity.
    + rewrite (IH _ _ a); [f_equal; lra|].
      rewrite list_lookup_alter_ne by exact Hne. exact Ha.
Qed.

Lemma scatter_add_col c (acc : list vec3) x (w : list vec3) :
  col c (scatter_add acc x w) = scatter_add (col c acc) x (col c w).
Proof.
  revert acc w; induction x as [|i x IH]; intros acc [|wi w]; simpl; try reflexivity.
  rewrite IH. f_equal. unfold col.
  apply (list_fmap_alter (fun u : vec3 => u c)).
  apply Forall_forall. intros u _. reflexivity.
Qed.

Lemma col_replicate_zero c n : col c (replicate n (zero : vec3)) = replicate n 0.
Proof. unfold col. rewrite fmap_replicate. reflexivity. Qed.

Lemma mabincount_length {T : Type} `{Additive T} x (w : list T) n v :
  mabincount x w n = Ok v -> length v = n.
Proof.
  unfold mabincount. repeat case_decide; try discriminate.
  intros [= <-]. rewrite scatter_add_length. apply length_replicate.
Qed.

(** What is scattered onto the atoms adds up to what was contributed. *)
Lemma mabincount_col_sum x (w : list vec3) n v c :
  mabincount x w n = Ok v -> asum (col c v) = asum (col c w).
Proof.
  unfold mabincount. repeat case_decide; try discriminate.
  intros [= <-]. rewrite scatter_add_col, col_replicate_zero.
  rewrite scatter_add_sum.
  - rewrite asum_replicate_zero. lra.
  - rewrite length_replicate. assumption.
  - unfold col. rewrite length_fmap. assumption.
Qed.

Lemma mabincount_lookup x (w : list vec3) N v n :
  mabincount x w N = Ok v -> (n < N)%nat ->
  exists F, v !! n = Some F /\ forall c, F c = gather x (col c w) n.
Proof.
  intros Hv Hn. pose proof (mabincount_length _ _ _ _ Hv) as Hl.
  destruct (lookup_lt_is_Some_2 v n) as [F HF]; [lia|].
  exists F; split; [exact HF|]. intros c.
  assert (Hc : col c v !! n = Some (F c)).
  { unfold col. rewrite map_fmap, list_lookup_fmap.
    unfold vec3 in *. rewrite HF. reflexivity. }
  revert Hv. unfold mabincount. repeat case_decide; try discriminate.
  intros [= <-]. rewrite scatter_add_col, col_replicate_zero in Hc.
  rewrite (scatter_add_lookup _ _ _ _ 0) in Hc by (apply lookup_replicate_2; exact Hn).
  injection Hc as Hc. lra.
Qed.

Lemma bincount_lookup x w N v n :
  bincount x w N = Ok v -> (n < length v)%nat -> v !! n = Some (gather x w n).
Proof.
  unfold bincount. case_decide; [|discriminate]. intros [= <-] Hn.
  rewrite scatter_add_length, length_replicate in Hn.
  rewrite (scatter_add_lookup _ _ _ _ 0) by (apply lookup_replicate_2; exact Hn).
  f_equal. lra.
Qed.

Lemma aadd_lookup (a b : list vec3) n x y :
  a !! n = Some x -> b !! n = Some y -> aadd a b !! n = Some (add x y).
Proof. intros Ha Hb. unfold aadd. rewrite lookup_zip_with, Ha, Hb. reflexivity. Qed.

Lemma asub_lookup (a b : list vec3) n x y :
  a !! n = Some x -> b !! n = Some y -> asub a b !! n = Some (sub x y).
Proof. intros Ha Hb. unfold asub. rewrite lookup_zip_with, Ha, Hb. reflexivity. Qed.

Lemma col_length c l : length (col c l) = length l.
Proof. apply length_fmap. Qed.

Lemma asum_col_aadd c (a b : list vec3) :
  length a = length b -> asum (col c (aadd a b)) = asum (col c a) + asum (col c b).
Proof.
  revert b; induction a as [|x a IH]; intros [|y b] Hl; simpl in *; try lia.
  - rewrite asum_nil. lra.
  - change (aadd (x :: a) (y :: b)) with (add x y :: aadd a b).
    simpl. rewrite !asum_cons, IH by lia. simpl. lra.
Qed.

Lemma asum_col_asub c (a b : list vec3) :
  length a = length b -> asum (col c (asub a b)) = asum (col c a) - asum (col c b).
Proof.
  revert b; induction a as [|x a IH]; intros [|y b] Hl; simpl in *; try lia.
  - rewrite asum_nil. lra.
  - change (asub (x :: a) (y :: b)) with (sub x y :: asub a b).
    simpl. rewrite !asum_cons, IH by lia. simpl. lra.
Qed.

Lemma aadd_length {T : Type} `{Additive T} (a b : list T) :
  length a = length b -> length (aadd a b) = length a.
Proof. intros Hl. unfold aadd. rewrite length_zip_with. lia. Qed.

Lemma asub_length {T : Type} `{Additive T} (a b : list T) :
  length a = length b -> length (asub a b) = length a.
Proof. intros Hl. unfold asub. rewrite length_zip_with. lia. Qed.

Lemma take_Forall {A : Type} (Q : A -> Prop) (a : list A) idx v :
  Forall Q a -> take a idx = Ok v -> Forall Q v.
Proof.
  intros Ha Hv. apply Forall_lookup. intros k x Hx.
  assert (Hk : (k < length idx)%nat).
  { rewrite <- (take_length _ _ _ Hv). eapply lookup_lt_Some; eauto. }
  destruct (lookup_lt_is_Some_2 idx k Hk) as [i Hi].
  destruct (take_lookup _ _ _ _ _ Hv Hi) as (y & Hy & Hay).
  assert (y = x) by congruence. subst y.
  eapply Forall_lookup_1; eauto.
Qed.

(** ** Attribute lookup on instances *)

Lemma is_manybody_new P : is_manybody P (new P).
Proof.
  unfold is_manybody, constructor_attributes.
  repeat (constructor; [ vm_compute; reflexivity | ]). constructor.
Qed.

Lemma is_manybody_setattr P self name v :
  is_manybody P self -> name ∉ (constructor_attributes P).*1 ->
  is_manybody P (setattr self name v).
Proof.
  unfold is_manybody. intros Hs Hn.
  apply Forall_forall. intros [k x] Hin.
  rewrite Forall_forall in Hs. specialize (Hs _ Hin). simpl in Hs |- *.
  unfold setattr. rewrite lookup_insert_ne; [exact Hs|].
  intros ->. apply Hn. apply list_elem_of_fmap. exists (k, x). auto.
Qed.

Lemma is_manybody_atoms P self v :
  is_manybody P self -> is_manybody P (setattr self "atoms" v).
Proof.
  intros Hs. apply is_manybody_setattr; [exact Hs|].
  simpl. intros Hin. repeat (apply elem_of_cons in Hin as [Hin|Hin]; [discriminate|]).
  inversion Hin.
Qed.

Lemma is_manybody_results P self v :
  is_manybody P self -> is_manybody P (setattr self "results" v).
Proof.
  intros Hs. apply is_manybody_setattr; [exact Hs|].
  simpl. intros Hin. repeat (apply elem_of_cons in Hin as [Hin|Hin]; [discriminate|]).
  inversion Hin.
Qed.

Lemma is_manybody_lookup P self k x :
  is_manybody P self -> (k, x) ∈ constructor_attributes P -> getattr self k = Ok x.
Proof.
  unfold is_manybody. rewrite Forall_forall. intros Hs Hin.
  unfold getattr. specialize (Hs _ Hin). simpl in Hs. rewrite Hs. reflexivity.
Qed.

(** ** Lengths *)

Lemma bincount_length_bounded x n :
  Forall (fun i => (i < n)%nat) x -> bincount_length x n = n.
Proof.
  induction 1 as [|i x Hi _ IH]; [reflexivity|].
  change (bincount_length (i :: x) n) with (Nat.max (S i) (bincount_length x n)).
  rewrite IH. lia.
Qed.

Lemma bincount_Ok_length x w n v :
  bincount x w n = Ok v -> length v = bincount_length x n /\ length x = length w.
Proof.
  unfold bincount. case_decide; [|discriminate]. intros [= <-].
  rewrite scatter_add_length, length_replicate. auto.
Qed.

Lemma zip_length {A B : Type} (a : list A) (b : list B) n :
  length a = n -> length b = n -> length (zip a b) = n.
Proof. intros. rewrite length_zip_with. lia. Qed.

Lemma zip_with_length {A B C : Type} (f : A -> B -> C) a b n :
  length a = n -> length b = n -> length (zip_with f a b) = n.
Proof. intros. rewrite length_zip_with. lia. Qed.

Lemma call_phi_length f R_p r_p xi_p ti_p tij_p n :
  length R_p = n -> length r_p = n -> length xi_p = n ->
  length ti_p = n -> length tij_p = n ->
  length (call_phi f R_p r_p xi_p ti_p tij_p) = n.
Proof. intros. unfold call_phi. repeat apply zip_with_length; assumption. Qed.

Lemma call_theta_length f a1 a2 a3 a4 a5 a6 t1 t2 t3 n :
  length a1 = n -> length a2 = n -> length a3 = n -> length a4 = n ->
  length a5 = n -> length a6 = n -> length t1 = n -> length t2 = n -> length t3 = n ->
  length (call_theta f a1 a2 a3 a4 a5 a6 t1 t2 t3) = n.
Proof. intros. unfold call_theta. repeat apply zip_with_length; assumption. Qed.

Lemma map_length_eq {A B : Type} (f : A -> B) l n : length l = n -> length (map f l) = n.
Proof. intros <-. apply length_fmap. Qed.

Create HintDb lengths.
#[export] Hint Resolve zip_with_length zip_length call_phi_length call_theta_length
  map_length_eq : lengths.

Lemma attr_atom_type_is P self :
  is_manybody P self -> attr_atom_type self = Ok (P_atom_type P).
Proof.
  intros Hm. unfold attr_atom_type.
  rewrite (is_manybody_lookup P self "atom_type" (PyAtomType (P_atom_type P)) Hm).
  - reflexivity.
  - repeat constructor.
Qed.

Lemma attr_pair_type_is P self :
  is_manybody P self -> attr_pair_type self = Ok (P_pair_type P).
Proof.
  intros Hm. unfold attr_pair_type.
  rewrite (is_manybody_lookup P self "pair_type" (PyPairType (P_pair_type P)) Hm).
  - reflexivity.
  - repeat constructor.
Qed.

Lemma attr_phi_is P self name g :
  is_manybody P self -> (name, PyPhi g) ∈ constructor_attributes P ->
  attr_phi self name = Ok g.
Proof.
  intros Hm Hin. unfold attr_phi.
  rewrite (is_manybody_lookup P self name (PyPhi g) Hm Hin). reflexivity.
Qed.

Lemma attr_theta_is P self name g :
  is_manybody P self -> (name, PyTheta g) ∈ constructor_attributes P ->
  attr_theta self name = Ok g.
Proof.
  intros Hm Hin. unfold attr_theta.
  rewrite (is_manybody_lookup P self name (PyTheta g) Hm Hin). reflexivity.
Qed.

Lemma for_each_ext {A S : Type} (l : list A) (s : S) (f g : S -> A -> result S) :
  (forall s a, f s a = g s a) -> Manybody.for_each l s f = Manybody.for_each l s g.
Proof.
  intros Hfg. revert s; induction l as [|a l IH]; intros s; simpl; [reflexivity|].
  rewrite Hfg. destruct (g s a); simpl; [apply IH | reflexivity].
Qed.

(** [get_cutoff] reads three attributes only. *)
Lemma get_cutoff_setattr self name v atoms :
  name <> "cutoff" -> name <> "atom_type" -> name <> "pair_type" ->
  Manybody.get_cutoff (setattr self name v) atoms = Manybody.get_cutoff self atoms.
Proof.
  intros H1 H2 H3. unfold Manybody.get_cutoff, getattr, setattr.
  rewrite lookup_insert_ne by exact H1.
  destruct (self !! "cutoff") as [[| | | | | | | | | |[c|t]| |]|]; simpl; try reflexivity.
  apply for_each_ext. intros s a.
  unfold attr_atom_type, attr_pair_type, getattr.
  rewrite lookup_insert_ne by exact H2.
  destruct (self !! "atom_type") as [[]|]; simpl; try reflexivity.
  apply for_each_ext. intros s' a'.
  rewrite lookup_insert_ne by exact H3. reflexivity.
Qed.

Section CalculateProperties.
Context {nb : Neighbours}.

Lemma attr_atoms_set self atoms :
  attr_atoms (setattr self "atoms" (PyAtoms atoms)) = Ok atoms.
Proof. unfold attr_atoms, getattr, setattr. rewrite lookup_insert_eq. reflexivity. Qed.

(** Collect shape and range facts from the successful array accesses. *)
Ltac take_facts :=
  repeat match goal with
         | E : take ?a ?idx = Ok ?v |- _ =>
             pose proof (take_length _ _ _ E);
             pose proof (take_bounds _ _ _ E);
             clear E
         | E : bincount ?x ?w ?n = Ok ?v |- _ =>
             destruct (bincount_Ok_length _ _ _ _ E);
             clear E
         end.

Ltac solve_len :=
  unfold call_pair_type, aadd, asub, ascal;
  repeat first
    [ assumption
    | apply call_theta_length | apply call_phi_length
    | apply zip_with_length | apply map_length_eq ];
  try congruence.

Lemma calculate_fields_wf self atoms f :
  Manybody.calculate_fields self atoms = Ok f -> wf_fields f.
Proof.
  unfold Manybody.calculate_fields, Manybody.Calculator_calculate.
  intros H. inv_bind H. injection H as <-.
  rewrite attr_atoms_set in E1. injection E1 as <-.
  take_facts.
  set (nl := neighbour_list atoms v0) in *.
  set (tl := triplet_list _) in *.
  rewrite ?length_map in *.
  assert (Hb : bincount_length (map fst tl) (length nl) = length nl)
    by (apply bincount_length_bounded; assumption).
  constructor; simpl; rewrite ?length_map; solve_len.
Qed.

Lemma mabincount_total {T : Type} `{Additive T} x (w : list T) n :
  length x = length w -> Forall (fun i => (i < n)%nat) x ->
  exists v, mabincount x w n = Ok v.
Proof.
  intros Hl Hb. unfold mabincount. rewrite !decide_True by assumption. eauto.
Qed.

Ltac solve_bound :=
  try match goal with
      | H : length ?a = _ |- Forall (fun i => (i < length ?a)%nat) _ => rewrite H
      end;
  assumption.

Ltac step_take :=
  match goal with
  | |- context [take ?a ?idx] =>
      let v := fresh "v" in
      let E := fresh "E" in
      destruct (take_total a idx) as [v E]; [ | rewrite E; cbn [bind] ]
  end.

Ltac step_mabincount :=
  match goal with
  | |- context [mabincount ?x ?w ?n] =>
      let v := fresh "v" in
      let E := fresh "E" in
      destruct (mabincount_total x w n) as [v E]; [ | | rewrite E; cbn [bind] ]
  end.

Lemma contributions_total f :
  wf_fields f ->
  exists k, Manybody.contributions f = Ok k /\
    length (Manybody.fij_pc k) = length (Manybody.c_i_p f) /\
    length (Manybody.fij_tc k) = length (Manybody.c_ij_t f) /\
    length (Manybody.fik_tc k) = length (Manybody.c_ij_t f) /\
    length (Manybody.fjk_tc k) = length (Manybody.c_ij_t f) /\
    length (Manybody.rij_c k) = length (Manybody.c_ij_t f) /\
    length (Manybody.rik_c k) = length (Manybody.c_ij_t f).
Proof.
  intros [].
  unfold Manybody.contributions.
  step_take; [solve_bound|].
  step_take; [solve_bound|].
  step_take; [solve_bound|].
  eexists; split; [reflexivity|]. simpl.
  take_facts.
  repeat split; solve_len.
Qed.

Lemma atomic_forces_total f k :
  wf_fields f ->
  length (Manybody.fij_pc k) = length (Manybody.c_i_p f) ->
  length (Manybody.fij_tc k) = length (Manybody.c_ij_t f) ->
  length (Manybody.fik_tc k) = length (Manybody.c_ij_t f) ->
  length (Manybody.fjk_tc k) = length (Manybody.c_ij_t f) ->
  exists f_nc, Manybody.atomic_forces f k = Ok f_nc.
Proof.
  intros [] H1 H2 H3 H4.
  unfold Manybody.atomic_forces.
  step_mabincount; [congruence|assumption|].
  step_mabincount; [congruence|assumption|].
  step_take; [solve_bound|].
  pose proof (take_length _ _ _ E1). pose proof (take_Forall _ _ _ _ wf_i_bound0 E1).
  step_mabincount; [congruence|assumption|].
  step_take; [solve_bound|].
  pose proof (take_length _ _ _ E3). pose proof (take_Forall _ _ _ _ wf_j_bound0 E3).
  step_mabincount; [congruence|assumption|].
  step_take; [solve_bound|].
  pose proof (take_length _ _ _ E5). pose proof (take_Forall _ _ _ _ wf_i_bound0 E5).
  step_mabincount; [congruence|assumption|].
  step_take; [solve_bound|].
  pose proof (take_length _ _ _ E7). pose proof (take_Forall _ _ _ _ wf_j_bound0 E7).
  step_mabincount; [congruence|assumption|].
  step_mabincount; [congruence|assumption|].
  step_mabincount; [congruence|assumption|].
  eauto.
Qed.


Lemma bincount_total x w n :
  length x = length w -> exists v, bincount x w n = Ok v.
Proof. intros Hl. unfold bincount. rewrite decide_True by exact Hl. eauto. Qed.

Ltac solve_bound2 :=
  rewrite ?length_map;
  first [ assumption
        | eapply take_Forall; [ | eassumption ]; rewrite ?length_map; assumption ].

(** One step of a method on an instance whose arrays are in range. *)
Ltac step Hm :=
  first
    [ match goal with
      | |- context [take ?a ?idx] =>
          let v := fresh "v" in
          let E := fresh "E" in
          destruct (take_total a idx) as [v E];
          [ solve_bound2
          | rewrite E; cbn [bind]; pose proof (take_length _ _ _ E) ]
      end
    | rewrite (attr_atom_type_is _ _ Hm); cbn [bind]
    | rewrite (attr_pair_type_is _ _ Hm); cbn [bind]
    | erewrite (attr_theta_is _ _ _ _ Hm) by repeat constructor; cbn [bind]
    | erewrite (attr_phi_is _ _ _ _ Hm) by repeat constructor; cbn [bind]
    | match goal with
      | |- context [bincount ?x ?w ?n] =>
          let v := fresh "v" in
          let E := fresh "E" in
          destruct (bincount_total x w n) as [v E];
          [ rewrite ?length_map in *; symmetry; solve_len
          | rewrite E; cbn [bind] ]
      end ].

Lemma wf_neighbours_bounds atoms rc :
  wf_neighbours atoms rc ->
  let nl := neighbour_list atoms rc in
  let tl := triplet_list (first_neighbours (len atoms) (map pair_i nl)) in
  Forall (fun a => (a < length (numbers atoms))%nat) (map pair_i nl) /\
  Forall (fun a => (a < length (numbers atoms))%nat) (map pair_j nl) /\
  Forall (fun p => (p < length nl)%nat) (map fst tl) /\
  Forall (fun p => (p < length nl)%nat) (map snd tl).
Proof.
  intros [Hp Ht]. simpl. rewrite !map_fmap, !Forall_fmap.
  repeat split; (eapply Forall_impl; [eassumption|]); simpl; intros ? []; assumption.
Qed.

Lemma calculate_fields_total P self atoms rc :
  is_manybody P self -> Manybody.get_cutoff self atoms = Ok rc ->
  wf_neighbours atoms rc ->
  exists f, Manybody.calculate_fields self atoms = Ok f.
Proof.
  intros Hm Hc Hwf.
  destruct (wf_neighbours_bounds _ _ Hwf) as (Bi & Bj & Bij & Bik).
  unfold Manybody.calculate_fields, Manybody.Calculator_calculate.
  pose proof (is_manybody_atoms P self (PyAtoms atoms) Hm) as Hm'.
  rewrite (attr_atom_type_is P _ Hm'); cbn [bind].
  rewrite get_cutoff_setattr, Hc by discriminate; cbn [bind].
  rewrite attr_atoms_set; cbn [bind].
  repeat step Hm'.
  eauto.
Qed.

Lemma atomic_forces_sum_zero f k f_nc c :
  Manybody.atomic_forces f k = Ok f_nc -> asum (col c f_nc) = 0.
Proof.
  unfold Manybody.atomic_forces. intros H. inv_bind H. injection H as <-.
  repeat match goal with
         | E : mabincount _ _ _ = Ok ?v |- _ =>
             pose proof (mabincount_length _ _ _ _ E);
             pose proof (mabincount_col_sum _ _ _ _ c E);
             clear E
         end.
  repeat first
    [ rewrite asum_col_aadd
        by (repeat (rewrite ?aadd_length, ?asub_length); congruence)
    | rewrite asum_col_asub
        by (repeat (rewrite ?aadd_length, ?asub_length); congruence) ].
  lra.
Qed.

Lemma atomic_forces_length f k f_nc :
  Manybody.atomic_forces f k = Ok f_nc -> length f_nc = Manybody.c_nb_atoms f.
Proof.
  unfold Manybody.atomic_forces. intros H. inv_bind H. injection H as <-.
  repeat match goal with
         | E : mabincount _ _ _ = Ok ?v |- _ =>
             pose proof (mabincount_length _ _ _ _ E); clear E
         end.
  repeat (rewrite ?aadd_length, ?asub_length); congruence.
Qed.

(** Every contribution is added to the owner of its bond and subtracted
    from the partner. *)
Lemma atomic_forces_lookup f k f_nc n :
  Manybody.atomic_forces f k = Ok f_nc -> (n < Manybody.c_nb_atoms f)%nat ->
  exists i_t j_t i_t' k_t F,
    take (Manybody.c_i_p f) (Manybody.c_ij_t f) = Ok i_t /\
    take (Manybody.c_j_p f) (Manybody.c_ij_t f) = Ok j_t /\
    take (Manybody.c_i_p f) (Manybody.c_ik_t f) = Ok i_t' /\
    take (Manybody.c_j_p f) (Manybody.c_ik_t f) = Ok k_t /\
    f_nc !! n = Some F /\
    forall c,
      F c = bond_force (Manybody.c_i_p f) (Manybody.c_j_p f) (Manybody.fij_pc k) n c
            + (bond_force i_t j_t (Manybody.fij_tc k) n c
               + bond_force i_t' k_t (Manybody.fik_tc k) n c
               + bond_force j_t k_t (Manybody.fjk_tc k) n c).
Proof.
  unfold Manybody.atomic_forces. intros H Hn. inv_bind H. injection H as <-.
  exists v1, v3, v5, v7.
  repeat match goal with
         | E : mabincount _ _ _ = Ok ?v |- _ =>
             let F := fresh "F" in
             let HF := fresh "HF" in
             let HFc := fresh "HFc" in
             destruct (mabincount_lookup _ _ _ _ n E Hn) as (F & HF & HFc); clear E
         end.
  eexists. repeat (split; [eassumption|]).
  split.
  - repeat first [ eapply aadd_lookup | eapply asub_lookup | eassumption ].
  - intros c. unfold bond_force. simpl.
    repeat match goal with H : forall c : cart, _ = _ |- _ => rewrite (H c); clear H end.
    lra.
Qed.

Lemma calculate_fields_nb_atoms self atoms f :
  Manybody.calculate_fields self atoms = Ok f ->
  Manybody.c_nb_atoms f = len atoms.
Proof.
  unfold Manybody.calculate_fields, Manybody.Calculator_calculate.
  intros H. inv_bind H. injection H as <-.
  rewrite attr_atoms_set in E1. injection E1 as <-. reflexivity.
Qed.

Lemma calculate_unfold self atoms f k f_nc :
  Manybody.calculate_fields self atoms = Ok f ->
  Manybody.contributions f = Ok k ->
  Manybody.atomic_forces f k = Ok f_nc ->
  Manybody.calculate self atoms =
    Ok (setattr (setattr self "atoms" (PyAtoms atoms)) "results"
          (PyResults {| free_energy := 0.5 * asum (Manybody.c_phi_p f);
                        energy := 0.5 * asum (Manybody.c_phi_p f);
                        stress := adiv (Manybody.virial f k) (volume atoms);
                        forces := f_nc |})).
Proof.
  intros Hf Hk Hn. unfold Manybody.calculate.
  rewrite Hf; cbn [bind]. rewrite Hk; cbn [bind]. rewrite Hn; cbn [bind].
  unfold Manybody.Calculator_calculate. rewrite attr_atoms_set. reflexivity.
Qed.

Lemma results_of_set self r : results_of (setattr self "results" (PyResults r)) = Some r.
Proof. unfold results_of, setattr. rewrite lookup_insert_eq. reflexivity. Qed.

(** [calculate] returns on every configuration whose neighbour list is
    well formed. *)
Lemma calculate_total P self atoms rc :
  is_manybody P self -> Manybody.get_cutoff self atoms = Ok rc ->
  wf_neighbours atoms rc ->
  exists f k f_nc,
    Manybody.calculate_fields self atoms = Ok f /\
    Manybody.contributions f = Ok k /\
    Manybody.atomic_forces f k = Ok f_nc.
Proof.
  intros Hm Hc Hwf.
  destruct (calculate_fields_total P self atoms rc Hm Hc Hwf) as [f Hf].
  pose proof (calculate_fields_wf _ _ _ Hf) as Hw.
  destruct (contributions_total f Hw) as (k & Hk & L1 & L2 & L3 & L4 & _).
  destruct (atomic_forces_total f k Hw L1 L2 L3 L4) as [f_nc Hn].
  eauto 6.
Qed.

(** [get_born_elastic_constants] returns on every configuration whose
    neighbour list is well formed, for an instance that holds no
    configuration yet or holds this one. *)
Theorem born_elastic_constants_total P self atoms rc :
  is_manybody P self ->
  self !! "atoms" = Some PyNone \/ self !! "atoms" = Some (PyAtoms atoms) ->
  Manybody.get_cutoff self atoms = Ok rc ->
  wf_neighbours atoms rc ->
  exists C, Manybody.get_born_elastic_constants self atoms = Ok C.
Proof.
  intros Hm Ha Hc Hwf.
  destruct (wf_neighbours_bounds _ _ Hwf) as (Bi & Bj & Bij & Bik).
  assert (Hd : exists s, Manybody.default_atoms self atoms = Ok s /\
             is_manybody P s /\ attr_atoms s = Ok atoms /\
             Manybody.get_cutoff s atoms = Ok rc).
  { unfold Manybody.default_atoms, getattr. destruct Ha as [Ha|Ha]; rewrite Ha; cbn.
    - eexists. split; [reflexivity|]. split; [apply is_manybody_atoms, Hm|].
      split; [apply attr_atoms_set|].
      rewrite get_cutoff_setattr by discriminate. exact Hc.
    - exists self. split; [reflexivity|]. split; [exact Hm|]. split; [|exact Hc].
      unfold attr_atoms, getattr. rewrite Ha. reflexivity. }
  destruct Hd as (s & Hd & Hm' & Hat & Hc').
  unfold Manybody.get_born_elastic_constants, Manybody.born_fields.
  rewrite Hd; cbn [bind].
  rewrite (attr_atom_type_is P _ Hm'); cbn [bind].
  rewrite Hc'; cbn [bind]. rewrite Hat; cbn [bind].
  repeat step Hm'.
  cbn [Manybody.b_d2phi_p Manybody.b_ij_t Manybody.b_d12phi_p Manybody.b_nb_pairs
       Manybody.b_rij_tc Manybody.b_rik_tc Manybody.b_rjk_tc Manybody.b_d1theta_t
       Manybody.b_d2theta_t Manybody.b_d3theta_t Manybody.b_r_pc Manybody.b_d11phi_p
       Manybody.b_d22phi_p Manybody.b_d11theta_t Manybody.b_d12theta_t
       Manybody.b_d13theta_t Manybody.b_d22theta_t Manybody.b_d23theta_t
       Manybody.b_d33theta_t].
  take_facts.
  set (nl := neighbour_list atoms rc) in *.
  set (tl := triplet_list _) in *.
  rewrite ?length_map in *.
  assert (Hb : bincount_length (map fst tl) (length nl) = length nl)
    by (apply bincount_length_bounded; assumption).
  assert (Lphi : forall g,
            length (call_phi g (zip_with Rmult (map pair_d nl) (map pair_d nl))
                      (map pair_d nl) v11 v3 (call_pair_type (P_pair_type P) v3 v4))
            = length nl).
  { intros g. apply call_phi_length; rewrite ?length_map; solve_len. }
  step_take; [rewrite Lphi; assumption|].
  step_take; [rewrite Lphi; assumption|].
  step_mabincount;
    [ symmetry; unfold _o; solve_len; rewrite ?length_map; solve_len
    | assumption
    | eauto ].
Qed.

Ltac attr_facts Hm :=
  repeat match goal with
         | E : attr_atom_type _ = Ok _ |- _ =>
             rewrite (attr_atom_type_is _ _ Hm) in E; injection E as E; subst
         | E : attr_pair_type _ = Ok _ |- _ =>
             rewrite (attr_pair_type_is _ _ Hm) in E; injection E as E; subst
         | E : attr_phi _ _ = Ok _ |- _ =>
             erewrite (attr_phi_is _ _ _ _ Hm) in E by repeat constructor;
             injection E as E; subst
         | E : attr_theta _ _ = Ok _ |- _ =>
             erewrite (attr_theta_is _ _ _ _ Hm) in E by repeat constructor;
             injection E as E; subst
         end.

(** What the local variables of [calculate] are, on an instance built by
    the constructor. *)
Lemma calculate_fields_spec P self atoms f :
  is_manybody P self -> Manybody.calculate_fields self atoms = Ok f ->
  exists rc tj_p,
    Manybody.get_cutoff self atoms = Ok rc /\
    Manybody.c_i_p f = map pair_i (neighbour_list atoms rc) /\
    Manybody.c_j_p f = map pair_j (neighbour_list atoms rc) /\
    Manybody.c_r_p f = map pair_d (neighbour_list atoms rc) /\
    Manybody.c_r_pc f = map pair_D (neighbour_list atoms rc) /\
    Manybody.c_R_p f = zip_with Rmult (Manybody.c_r_p f) (Manybody.c_r_p f) /\
    Manybody.c_nb_pairs f = length (neighbour_list atoms rc) /\
    Manybody.c_ij_t f =
      map fst (triplet_list (first_neighbours (len atoms) (Manybody.c_i_p f))) /\
    Manybody.c_ik_t f =
      map snd (triplet_list (first_neighbours (len atoms) (Manybody.c_i_p f))) /\
    take (map (P_atom_type P) (numbers atoms)) (Manybody.c_i_p f) = Ok (Manybody.c_ti_p f) /\
    take (map (P_atom_type P) (numbers atoms)) (Manybody.c_j_p f) = Ok tj_p /\
    Manybody.c_tij_p f = call_pair_type (P_pair_type P) (Manybody.c_ti_p f) tj_p /\
    Manybody.c_theta_t f =
      call_theta (P_theta P) (Manybody.c_Rij_t f) (Manybody.c_rij_t f)
        (Manybody.c_Rik_t f) (Manybody.c_rik_t f) (Manybody.c_Rjk_t f) (Manybody.c_rjk_t f)
        (Manybody.c_ti_t f) (Manybody.c_tij_t f) (Manybody.c_tik_t f) /\
    bincount (Manybody.c_ij_t f) (Manybody.c_theta_t f) (Manybody.c_nb_pairs f)
      = Ok (Manybody.c_xi_p f) /\
    Manybody.c_phi_p f =
      call_phi (P_phi P) (Manybody.c_R_p f) (Manybody.c_r_p f) (Manybody.c_xi_p f)
        (Manybody.c_ti_p f) (Manybody.c_tij_p f) /\
    Manybody.c_d1phi_p f =
      call_phi (P_d1phi P) (Manybody.c_R_p f) (Manybody.c_r_p f) (Manybody.c_xi_p f)
        (Manybody.c_ti_p f) (Manybody.c_tij_p f) /\
    Manybody.c_d2phi_p f =
      call_phi (P_d2phi P) (Manybody.c_R_p f) (Manybody.c_r_p f) (Manybody.c_xi_p f)
        (Manybody.c_ti_p f) (Manybody.c_tij_p f).
Proof.
  intros Hm.
  pose proof (is_manybody_atoms P self (PyAtoms atoms) Hm) as Hm'.
  unfold Manybody.calculate_fields, Manybody.Calculator_calculate.
  intros H. inv_bind H. injection H as <-.
  rewrite attr_atoms_set in E1. injection E1 as <-.
  rewrite get_cutoff_setattr in E0 by discriminate.
  attr_facts Hm'.
  exists v0, v8. simpl.
  repeat (split; [first [reflexivity | assumption | apply length_map]|]).
  reflexivity.
Qed.

Lemma call_phi_lookup g R_p r_p xi_p ti_p tij_p p a b c d e :
  R_p !! p = Some a -> r_p !! p = Some b -> xi_p !! p = Some c ->
  ti_p !! p = Some d -> tij_p !! p = Some e ->
  call_phi g R_p r_p xi_p ti_p tij_p !! p = Some (g a b c d e).
Proof.
  intros H1 H2 H3 H4 H5. unfold call_phi.
  rewrite !lookup_zip_with, H1, H2, H3, H4, H5. reflexivity.
Qed.

Lemma lookup_map {A B : Type} (g : A -> B) (l : list A) p :
  map g l !! p = g <$> l !! p.
Proof. rewrite map_fmap. apply list_lookup_fmap. Qed.

(** The arguments one pair contributes to a call of the phi family. *)
Lemma pair_arguments P self atoms f rc p pr :
  is_manybody P self -> Manybody.calculate_fields self atoms = Ok f ->
  Manybody.get_cutoff self atoms = Ok rc ->
  neighbour_list atoms rc !! p = Some pr ->
  exists xi zi zj,
    Manybody.c_xi_p f !! p = Some xi /\
    numbers atoms !! pair_i pr = Some zi /\
    numbers atoms !! pair_j pr = Some zj /\
    Manybody.c_R_p f !! p = Some (pair_d pr * pair_d pr) /\
    Manybody.c_r_p f !! p = Some (pair_d pr) /\
    Manybody.c_ti_p f !! p = Some (P_atom_type P zi) /\
    Manybody.c_tij_p f !! p =
      Some (P_pair_type P (P_atom_type P zi) (P_atom_type P zj)).
Proof.
  intros Hm Hf Hc Hp.
  pose proof (calculate_fields_wf _ _ _ Hf) as Hw.
  destruct (calculate_fields_spec P self atoms f Hm Hf)
    as (rc' & tj_p & Hc' & Hi & Hj & Hr & Hrc & HR & Hnb & Hij & Hik & Hti & Htj
        & Htij & _).
  assert (rc' = rc) by congruence. subst rc'.
  assert (Hpl : (p < length (neighbour_list atoms rc))%nat)
    by (eapply lookup_lt_Some; eassumption).
  assert (Hip : Manybody.c_i_p f !! p = Some (pair_i pr))
    by (rewrite Hi, lookup_map, Hp; reflexivity).
  assert (Hjp : Manybody.c_j_p f !! p = Some (pair_j pr))
    by (rewrite Hj, lookup_map, Hp; reflexivity).
  assert (Hrp : Manybody.c_r_p f !! p = Some (pair_d pr))
    by (rewrite Hr, lookup_map, Hp; reflexivity).
  destruct (lookup_lt_is_Some_2 (Manybody.c_xi_p f) p) as [xi Hxi].
  { rewrite (wf_xi_p _ Hw), Hi, length_map. exact Hpl. }
  destruct (take_lookup _ _ _ _ _ Hti Hip) as (ti & Hti1 & Hti2).
  destruct (take_lookup _ _ _ _ _ Htj Hjp) as (tj & Htj1 & Htj2).
  rewrite lookup_map in Hti2, Htj2.
  destruct (numbers atoms !! pair_i pr) as [zi|] eqn:Hzi; [|discriminate].
  destruct (numbers atoms !! pair_j pr) as [zj|] eqn:Hzj; [|discriminate].
  simpl in Hti2, Htj2. injection Hti2 as <-. injection Htj2 as <-.
  exists xi, zi, zj. repeat (split; [first [assumption | reflexivity]|]).
  split; [rewrite HR, lookup_zip_with, Hrp; reflexivity|].
  split; [assumption|]. split; [assumption|].
  rewrite Htij. unfold call_pair_type. rewrite lookup_zip_with, Hti1. simpl.
  rewrite Htj1. reflexivity.
Qed.

(** C1: the atomic forces computed by [calculate] sum to the zero vector.
    On every configuration with a well-formed neighbour list [calculate]
    returns; each pairwise contribution and each of the three contributions
    of a triplet (bonds ij, ik, jk) enters the force of the owner atom of
    its bond with sign +1 and that of the partner atom with sign -1; hence
    every Cartesian component of the N x 3 force array adds up to zero. *)
Theorem forces_sum_to_zero P self atoms rc :
  is_manybody P self -> Manybody.get_cutoff self atoms = Ok rc ->
  wf_neighbours atoms rc ->
  exists self' res f k i_t j_t i_t' k_t,
    Manybody.calculate self atoms = Ok self' /\
    results_of self' = Some res /\
    Manybody.calculate_fields self atoms = Ok f /\
    Manybody.contributions f = Ok k /\
    take (Manybody.c_i_p f) (Manybody.c_ij_t f) = Ok i_t /\
    take (Manybody.c_j_p f) (Manybody.c_ij_t f) = Ok j_t /\
    take (Manybody.c_i_p f) (Manybody.c_ik_t f) = Ok i_t' /\
    take (Manybody.c_j_p f) (Manybody.c_ik_t f) = Ok k_t /\
    length (forces res) = len atoms /\
    (forall n F c, forces res !! n = Some F ->
       F c = bond_force (Manybody.c_i_p f) (Manybody.c_j_p f) (Manybody.fij_pc k) n c
             + (bond_force i_t j_t (Manybody.fij_tc k) n c
                + bond_force i_t' k_t (Manybody.fik_tc k) n c
                + bond_force j_t k_t (Manybody.fjk_tc k) n c)) /\
    (forall c, asum (col c (forces res)) = 0).
Proof.
  intros Hm Hc Hwf.
  destruct (calculate_total P self atoms rc Hm Hc Hwf) as (f & k & f_nc & Hf & Hk & Hn).
  pose proof (atomic_forces_length _ _ _ Hn) as Hl.
  pose proof (calculate_fields_nb_atoms _ _ _ Hf) as Hnb. rewrite Hnb in Hl.
  assert (Ht : exists i_t j_t i_t' k_t,
    take (Manybody.c_i_p f) (Manybody.c_ij_t f) = Ok i_t /\
    take (Manybody.c_j_p f) (Manybody.c_ij_t f) = Ok j_t /\
    take (Manybody.c_i_p f) (Manybody.c_ik_t f) = Ok i_t' /\
    take (Manybody.c_j_p f) (Manybody.c_ik_t f) = Ok k_t).
  { pose proof Hn as Hn'. unfold Manybody.atomic_forces in Hn'. inv_bind Hn'. eauto 8. }
  destruct Ht as (i_t & j_t & i_t' & k_t & T1 & T2 & T3 & T4).
  eexists _, _, f, k, i_t, j_t, i_t', k_t.
  split; [apply (calculate_unfold _ _ _ _ _ Hf Hk Hn)|].
  split; [apply results_of_set|].
  repeat (split; [assumption|]). simpl.
  split; [|intros c; eapply atomic_forces_sum_zero; eassumption].
  intros n F c HF.
  assert (Hlt : (n < Manybody.c_nb_atoms f)%nat).
  { rewrite Hnb, <- Hl. eapply lookup_lt_Some; eassumption. }
  destruct (atomic_forces_lookup _ _ _ n Hn Hlt)
    as (a & b & a' & d & F' & A1 & A2 & A3 & A4 & HF' & HFc).
  assert (a = i_t) by congruence. assert (b = j_t) by congruence.
  assert (a' = i_t') by congruence. assert (d = k_t) by congruence. subst.
  assert (F' = F) by congruence. subst. apply HFc.
Qed.

Lemma phi_p_lookup P self atoms f rc p pr :
  is_manybody P self -> Manybody.calculate_fields self atoms = Ok f ->
  Manybody.get_cutoff self atoms = Ok rc ->
  neighbour_list atoms rc !! p = Some pr ->
  exists zi zj,
    numbers atoms !! pair_i pr = Some zi /\
    numbers atoms !! pair_j pr = Some zj /\
    Manybody.c_phi_p f !! p =
      Some (P_phi P (pair_d pr * pair_d pr) (pair_d pr)
              (gather (Manybody.c_ij_t f) (Manybody.c_theta_t f) p)
              (P_atom_type P zi)
              (P_pair_type P (P_atom_type P zi) (P_atom_type P zj))).
Proof.
  intros Hm Hf Hc Hp.
  destruct (pair_arguments P self atoms f rc p pr Hm Hf Hc Hp)
    as (xi & zi & zj & Hxi & Hzi & Hzj & HR & Hr & Hti & Htij).
  destruct (calculate_fields_spec P self atoms f Hm Hf)
    as (_ & _ & _ & _ & _ & _ & _ & _ & _ & _ & _ & _ & _ & _ & _ & Hb & Hphi & _).
  assert (Hx : Manybody.c_xi_p f !! p
               = Some (gather (Manybody.c_ij_t f) (Manybody.c_theta_t f) p)).
  { eapply bincount_lookup; [exact Hb|]. eapply lookup_lt_Some; exact Hxi. }
  exists zi, zj. repeat (split; [assumption|]).
  rewrite Hphi. apply call_phi_lookup; assumption.
Qed.

Lemma list_two {A : Type} (l : list A) a b :
  length l = 2%nat -> l !! 0%nat = Some a -> l !! 1%nat = Some b -> l = [a; b].
Proof.
  destruct l as [|x [|y [|z l]]]; simpl; intros Hl Ha Hb; try discriminate.
  congruence.
Qed.

(** C2: the potential energy returned by [calculate] is one half of the sum
    of phi over all pairs of the full pair list, phi of a pair being
    evaluated at the squared distance, the distance, the coordination of the
    pair and its type codes.  In particular, for exactly two atoms of one
    species at distance [r0], each the only neighbour of the other (no
    triplet), the energy is phi at [r0] with coordination zero. *)
Theorem energy_half_sum_phi P self atoms rc :
  is_manybody P self -> Manybody.get_cutoff self atoms = Ok rc ->
  wf_neighbours atoms rc ->
  (exists self' res f,
     Manybody.calculate self atoms = Ok self' /\
     results_of self' = Some res /\
     Manybody.calculate_fields self atoms = Ok f /\
     energy res = 0.5 * asum (Manybody.c_phi_p f) /\
     free_energy res = energy res /\
     length (Manybody.c_phi_p f) = length (neighbour_list atoms rc) /\
     (forall p pr, neighbour_list atoms rc !! p = Some pr ->
        exists zi zj,
          numbers atoms !! pair_i pr = Some zi /\
          numbers atoms !! pair_j pr = Some zj /\
          Manybody.c_phi_p f !! p =
            Some (P_phi P (pair_d pr * pair_d pr) (pair_d pr)
                    (gather (Manybody.c_ij_t f) (Manybody.c_theta_t f) p)
                    (P_atom_type P zi)
                    (P_pair_type P (P_atom_type P zi) (P_atom_type P zj))))) /\
  (forall z r0 D D',
     numbers atoms = [z; z] ->
     neighbour_list atoms rc =
       [ {| pair_i := 0; pair_j := 1; pair_d := r0; pair_D := D |};
         {| pair_i := 1; pair_j := 0; pair_d := r0; pair_D := D' |} ] ->
     triplet_list (first_neighbours 2 [0; 1]%nat) = [] ->
     exists self' res,
       Manybody.calculate self atoms = Ok self' /\
       results_of self' = Some res /\
       energy res =
         P_phi P (r0 * r0) r0 0 (P_atom_type P z)
           (P_pair_type P (P_atom_type P z) (P_atom_type P z))).
Proof.
  intros Hm Hc Hwf.
  destruct (calculate_total P self atoms rc Hm Hc Hwf) as (f & k & f_nc & Hf & Hk & Hn).
  pose proof (calculate_unfold _ _ _ _ _ Hf Hk Hn) as Hcalc.
  pose proof (calculate_fields_wf _ _ _ Hf) as Hw.
  assert (Hlen : length (Manybody.c_phi_p f) = length (neighbour_list atoms rc)).
  { rewrite (wf_phi_p _ Hw).
    destruct (calculate_fields_spec P self atoms f Hm Hf) as (rc' & _ & Hc' & Hi & _).
    assert (rc' = rc) by congruence. subst rc'. rewrite Hi. apply length_map. }
  split.
  - eexists _, _, f. split; [exact Hcalc|]. split; [apply results_of_set|].
    split; [exact Hf|]. simpl. repeat (split; [reflexivity || assumption|]).
    intros p pr Hp. eapply phi_p_lookup; eassumption.
  - intros z r0 D D' Hz Hnl Htl.
    eexists _, _. split; [exact Hcalc|]. split; [apply results_of_set|]. simpl.
    assert (Hij : Manybody.c_ij_t f = []).
    { destruct (calculate_fields_spec P self atoms f Hm Hf)
        as (rc' & _ & Hc' & Hi & _ & _ & _ & _ & _ & Hij & _).
      assert (rc' = rc) by congruence. subst rc'.
      rewrite Hij, Hi, Hnl. unfold len. rewrite Hz. simpl. rewrite Htl. reflexivity. }
    destruct (phi_p_lookup P self atoms f rc 0 _ Hm Hf Hc ltac:(rewrite Hnl; reflexivity))
      as (zi & zj & Hzi & Hzj & H0).
    destruct (phi_p_lookup P self atoms f rc 1 _ Hm Hf Hc ltac:(rewrite Hnl; reflexivity))
      as (zi' & zj' & Hzi' & Hzj' & H1).
    rewrite Hz in Hzi, Hzj, Hzi', Hzj'. simpl in *.
    injection Hzi as <-. injection Hzj as <-. injection Hzi' as <-. injection Hzj' as <-.
    rewrite Hij in H0, H1. rewrite gather_nil_l in H0, H1.
    rewrite Hnl in Hlen. simpl in Hlen.
    rewrite (list_two _ _ _ Hlen H0 H1).
    rewrite !asum_cons, asum_nil. lra.
Qed.

Lemma asum_mat_apply (l : list mat3) a b :
  (asum l) a b = asum (map (fun m : mat3 => m a b) l).
Proof.
  induction l as [|m l IH]; [reflexivity|].
  change (asum (m :: l) a b) with (m a b + asum l a b).
  rewrite IH. reflexivity.
Qed.

Lemma outer_components a b (r f : list vec3) :
  map (fun m : mat3 => m a b) (_o r f) = Manybody.comp_prod a b r f.
Proof.
  revert f; induction r as [|x r IH]; intros [|y f]; try reflexivity.
  unfold _o, Manybody.comp_prod in *. simpl. f_equal. apply IH.
Qed.

Lemma outer_sum_component a b r f :
  outer_sum r f a b = asum (Manybody.comp_prod a b r f).
Proof. unfold outer_sum. rewrite asum_mat_apply, outer_components. reflexivity. Qed.

Lemma asum_aadd (x y : list R) :
  length x = length y -> asum (aadd x y) = asum x + asum y.
Proof.
  revert y; induction x as [|a x IH]; intros [|b y] Hl; simpl in Hl; try lia.
  - change (aadd [] []) with (@nil R). rewrite asum_nil. lra.
  - change (aadd (a :: x) (b :: y)) with ((a + b) :: aadd x y).
    rewrite !asum_cons, IH by lia. lra.
Qed.

Lemma comp_prod_length a b r f n :
  length r = n -> length f = n -> length (Manybody.comp_prod a b r f) = n.
Proof. intros. unfold Manybody.comp_prod. apply zip_with_length; assumption. Qed.

(** One Voigt component of the virial as [calculate] accumulates it. *)
Lemma virial_component f k a b :
  length (Manybody.rij_c k) = length (Manybody.fij_tc k) ->
  length (Manybody.rik_c k) = length (Manybody.fij_tc k) ->
  length (Manybody.fik_tc k) = length (Manybody.fij_tc k) ->
  length (Manybody.fjk_tc k) = length (Manybody.fij_tc k) ->
  asum (Manybody.comp_prod a b (Manybody.c_r_pc f) (Manybody.fij_pc k))
  + asum (aadd (aadd (Manybody.comp_prod a b (Manybody.rij_c k) (Manybody.fij_tc k))
                     (Manybody.comp_prod a b (Manybody.rik_c k) (Manybody.fik_tc k)))
               (Manybody.comp_prod a b (asub (Manybody.rik_c k) (Manybody.rij_c k))
                  (Manybody.fjk_tc k)))
  = virial_tensor f k a b.
Proof.
  intros L1 L2 L3 L4. set (n := length (Manybody.fij_tc k)) in *.
  assert (Ls : length (asub (Manybody.rik_c k) (Manybody.rij_c k)) = n)
    by (unfold asub; apply zip_with_length; assumption).
  rewrite !asum_aadd.
  - unfold virial_tensor. simpl. rewrite !outer_sum_component. lra.
  - rewrite !(comp_prod_length _ _ _ _ n); auto.
  - rewrite aadd_length; rewrite !(comp_prod_length _ _ _ _ n); auto.
Qed.

Lemma contributions_spec f k :
  Manybody.contributions f = Ok k ->
  Manybody.fij_pc k = ascal (Manybody.c_d1phi_p f) (Manybody.c_r_pc f) /\
  take (Manybody.c_r_pc f) (Manybody.c_ij_t f) = Ok (Manybody.rij_c k) /\
  take (Manybody.c_r_pc f) (Manybody.c_ik_t f) = Ok (Manybody.rik_c k).
Proof.
  unfold Manybody.contributions. intros H. inv_bind H. injection H as <-.
  simpl. auto.
Qed.

Lemma list6_eq {A : Type} (a1 a2 a3 a4 a5 a6 b1 b2 b3 b4 b5 b6 : A) :
  a1 = b1 -> a2 = b2 -> a3 = b3 -> a4 = b4 -> a5 = b5 -> a6 = b6 ->
  [a1; a2; a3; a4; a5; a6] = [b1; b2; b3; b4; b5; b6].
Proof. congruence. Qed.

Lemma contributions_triplet_forces f k :
  Manybody.contributions f = Ok k ->
  exists d2phi_t,
    take (Manybody.c_d2phi_p f) (Manybody.c_ij_t f) = Ok d2phi_t /\
    Manybody.fij_tc k
    = ascal (zip_with Rmult d2phi_t (Manybody.c_d1theta_t f)) (Manybody.rij_c k) /\
    Manybody.fik_tc k
    = ascal (zip_with Rmult d2phi_t (Manybody.c_d2theta_t f)) (Manybody.rik_c k) /\
    Manybody.fjk_tc k
    = ascal (zip_with Rmult d2phi_t (Manybody.c_d3theta_t f))
        (asub (Manybody.rik_c k) (Manybody.rij_c k)).
Proof.
  unfold Manybody.contributions. intros H. inv_bind H. injection H as <-.
  simpl. eauto.
Qed.

Lemma getattr_cutoff_is P self :
  is_manybody P self -> getattr self "cutoff" = Ok (PyCutoff (P_cutoff P)).
Proof. intros Hm. apply (is_manybody_lookup P self _ _ Hm). repeat constructor. Qed.

(** The cutoff is a function of the constructor arguments. *)
Lemma get_cutoff_state P self self' atoms :
  is_manybody P self -> is_manybody P self' ->
  Manybody.get_cutoff self atoms = Manybody.get_cutoff self' atoms.
Proof.
  intros Hm Hm'. unfold Manybody.get_cutoff.
  rewrite (getattr_cutoff_is P self Hm), (getattr_cutoff_is P self' Hm'). cbn [bind].
  destruct (P_cutoff P) as [c|t]; [reflexivity|].
  rewrite (attr_atom_type_is P self Hm), (attr_atom_type_is P self' Hm').
  rewrite (attr_pair_type_is P self Hm), (attr_pair_type_is P self' Hm').
  reflexivity.
Qed.

(** The local variables of [calculate] do not depend on the state an
    earlier call has left in the instance. *)
Lemma calculate_fields_state P self self' atoms :
  is_manybody P self -> is_manybody P self' ->
  Manybody.calculate_fields self atoms = Manybody.calculate_fields self' atoms.
Proof.
  intros Hm Hm'.
  pose proof (is_manybody_atoms P self (PyAtoms atoms) Hm) as H1.
  pose proof (is_manybody_atoms P self' (PyAtoms atoms) Hm') as H1'.
  unfold Manybody.calculate_fields, Manybody.Calculator_calculate.
  rewrite (attr_atom_type_is P _ H1), (attr_atom_type_is P _ H1'). cbn [bind].
  rewrite (get_cutoff_state P _ _ atoms H1 H1').
  destruct (Manybody.get_cutoff _ atoms) as [rc|e]; cbn [bind]; [|reflexivity].
  rewrite !attr_atoms_set. cbn [bind].
  repeat first
    [ reflexivity
    | rewrite (attr_pair_type_is P _ H1), (attr_pair_type_is P _ H1'); cbn [bind]
    | erewrite (attr_theta_is P _ _ _ H1), (attr_theta_is P _ _ _ H1')
        by repeat constructor; cbn [bind]
    | erewrite (attr_phi_is P _ _ _ H1), (attr_phi_is P _ _ _ H1')
        by repeat constructor; cbn [bind]
    | match goal with
      | |- context [take ?a ?i] => destruct (take a i); cbn [bind]; [|reflexivity]
      | |- context [bincount ?a ?w ?n] => destruct (bincount a w n); cbn [bind]; [|reflexivity]
      end ].
Qed.

Lemma calculate_state P self self' atoms :
  is_manybody P self -> is_manybody P self' ->
  observables self atoms = observables self' atoms.
Proof.
  intros Hm Hm'. unfold observables, Manybody.calculate.
  rewrite (calculate_fields_state P self self' atoms Hm Hm').
  destruct (Manybody.calculate_fields self' atoms) as [f|e]; cbn [bind]; [|reflexivity].
  destruct (Manybody.contributions f) as [k|e]; cbn [bind]; [|reflexivity].
  destruct (Manybody.atomic_forces f k) as [f_nc|e]; cbn [bind]; [|reflexivity].
  unfold Manybody.Calculator_calculate. rewrite !attr_atoms_set. cbn [bind].
  rewrite !results_of_set. reflexivity.
Qed.

Lemma calculate_Ok_state self atoms self1 :
  Manybody.calculate self atoms = Ok self1 ->
  exists r, self1 = setattr (setattr self "atoms" (PyAtoms atoms)) "results" (PyResults r).
Proof.
  unfold Manybody.calculate. intros H. inv_bind H. injection H as <-. eauto.
Qed.

(** C9: invoking [calculate] twice on an unchanged configuration yields
    identical observables.  Every call recomputes its results from the
    constructor arguments and the configuration alone: what an earlier call
    has left in [self.atoms] and [self.results] does not influence them, and
    a second call on the same configuration reproduces the observables and
    leaves the instance as the first call left it. *)
Theorem calculate_deterministic P self atoms :
  is_manybody P self ->
  (forall self', is_manybody P self' -> observables self' atoms = observables self atoms) /\
  (forall self1, Manybody.calculate self atoms = Ok self1 ->
     Manybody.calculate self1 atoms = Ok self1 /\
     observables self1 atoms = observables self atoms).
Proof.
  intros Hm. split.
  - intros self' Hm'. apply (calculate_state P); assumption.
  - intros self1 H1.
    destruct (calculate_Ok_state _ _ _ H1) as [r Hr].
    assert (Hm1 : is_manybody P self1).
    { subst self1. apply is_manybody_results, is_manybody_atoms, Hm. }
    pose proof (calculate_state P self1 self atoms Hm1 Hm) as Hobs.
    split; [|exact Hobs].
    unfold observables in Hobs. rewrite H1 in Hobs. cbn [bind] in Hobs.
    destruct (Manybody.calculate self1 atoms) as [self2|e] eqn:H2; cbn [bind] in Hobs.
    + destruct (calculate_Ok_state _ _ _ H2) as [r2 Hr2].
      rewrite Hr, Hr2 in Hobs. rewrite !results_of_set in Hobs. simpl in Hobs.
      injection Hobs as ->.
      rewrite Hr2, Hr. unfold setattr. f_equal.
      rewrite (insert_insert_ne _ "atoms" "results") by discriminate.
      rewrite !insert_insert_eq. reflexivity.
    + rewrite Hr, results_of_set in Hobs. discriminate.
Qed.

Lemma gather_not_in x w p : p ∉ x -> gather x w p = 0.
Proof.
  revert w; induction x as [|i x IH]; intros w Hp; [apply gather_nil_l|].
  destruct w as [|wi w]; [apply gather_nil_r|].
  rewrite gather_cons. apply not_elem_of_cons in Hp as [Hne Hp].
  rewrite decide_False by congruence. rewrite IH by exact Hp. lra.
Qed.

Lemma xi_full_sum ij_t theta_t nb_pairs xi_p :
  Forall (fun i => (i < nb_pairs)%nat) ij_t ->
  bincount ij_t theta_t nb_pairs = Ok xi_p ->
  xi_is_full_sum nb_pairs ij_t theta_t xi_p.
Proof.
  intros Hbd Hb.
  destruct (bincount_Ok_length _ _ _ _ Hb) as [Hx _].
  rewrite (bincount_length_bounded _ _ Hbd) in Hx.
  split; [exact Hx|]. split.
  - intros p Hp. eapply bincount_lookup; [exact Hb | lia].
  - intros p Hp Hn. rewrite (bincount_lookup _ _ _ _ p Hb) by lia.
    rewrite gather_not_in by exact Hn. reflexivity.
Qed.

(** ** The arrays of a configuration *)

Lemma call_theta_lookup g a1 a2 a3 a4 a5 a6 t1 t2 t3 t x1 x2 x3 x4 x5 x6 y1 y2 y3 :
  a1 !! t = Some x1 -> a2 !! t = Some x2 -> a3 !! t = Some x3 ->
  a4 !! t = Some x4 -> a5 !! t = Some x5 -> a6 !! t = Some x6 ->
  t1 !! t = Some y1 -> t2 !! t = Some y2 -> t3 !! t = Some y3 ->
  call_theta g a1 a2 a3 a4 a5 a6 t1 t2 t3 !! t = Some (g x1 x2 x3 x4 x5 x6 y1 y2 y3).
Proof.
  intros H1 H2 H3 H4 H5 H6 H7 H8 H9. unfold call_theta.
  rewrite !lookup_zip_with, H1, H2, H3, H4, H5, H6, H7, H8, H9. reflexivity.
Qed.

(** A successful access through an index array, read at one position. *)
Ltac take_at E Hidx x Hx Hsrc :=
  destruct (take_lookup _ _ _ _ _ E Hidx) as (x & Hx & Hsrc).

Lemma theta_evaluated_intro P atoms cutoff Rjk g
    rij_t rik_t rij_tc rik_tc i_t ti_t j_t tj_t k_t tk_t :
  let nl := neighbour_list atoms cutoff in
  let t_n := map (P_atom_type P) (numbers atoms) in
  take (map pair_d nl) (map fst (triplets atoms cutoff)) = Ok rij_t ->
  take (map pair_d nl) (map snd (triplets atoms cutoff)) = Ok rik_t ->
  take (map pair_D nl) (map snd (triplets atoms cutoff)) = Ok rik_tc ->
  take (map pair_D nl) (map fst (triplets atoms cutoff)) = Ok rij_tc ->
  take (map pair_i nl) (map fst (triplets atoms cutoff)) = Ok i_t ->
  take t_n i_t = Ok ti_t ->
  take (map pair_j nl) (map fst (triplets atoms cutoff)) = Ok j_t ->
  take t_n j_t = Ok tj_t ->
  take (map pair_j nl) (map snd (triplets atoms cutoff)) = Ok k_t ->
  take t_n k_t = Ok tk_t ->
  theta_evaluated P atoms cutoff Rjk g
    (call_theta g (zip_with Rmult rij_t rij_t) rij_t (zip_with Rmult rik_t rik_t) rik_t
       (map Rjk (asub rik_tc rij_tc)) (map sqrt (map Rjk (asub rik_tc rij_tc)))
       ti_t (call_pair_type (P_pair_type P) ti_t tj_t)
       (call_pair_type (P_pair_type P) ti_t tk_t)).
Proof.
  intros nl t_n E1 E2 E3 E4 E5 E6 E7 E8 E9 E10.
  pose proof (take_length _ _ _ E1) as L1. pose proof (take_length _ _ _ E2) as L2.
  pose proof (take_length _ _ _ E3) as L3. pose proof (take_length _ _ _ E4) as L4.
  pose proof (take_length _ _ _ E5) as L5. pose proof (take_length _ _ _ E6) as L6.
  pose proof (take_length _ _ _ E7) as L7. pose proof (take_length _ _ _ E8) as L8.
  pose proof (take_length _ _ _ E9) as L9. pose proof (take_length _ _ _ E10) as L10.
  rewrite ?length_map in *.
  split; [apply call_theta_length; solve_len|].
  intros t [p q] Ht.
  assert (Hp : map fst (triplets atoms cutoff) !! t = Some p)
    by (rewrite lookup_map, Ht; reflexivity).
  assert (Hq : map snd (triplets atoms cutoff) !! t = Some q)
    by (rewrite lookup_map, Ht; reflexivity).
  take_at E1 Hp dij Hrij Hdij. take_at E2 Hq dik Hrik Hdik.
  take_at E3 Hq Dik HrikD HDik. take_at E4 Hp Dij HrijD HDij.
  take_at E5 Hp i Hi Hi'. take_at E7 Hp j Hj Hj'. take_at E9 Hq k Hk Hk'.
  take_at E6 Hi ti Hti Hti'. take_at E8 Hj tj Htj Htj'. take_at E10 Hk tk Htk Htk'.
  unfold vec3 in *.
  repeat match goal with H : map _ _ !! _ = Some _ |- _ => rewrite lookup_map in H end.
  destruct (nl !! p) as [ij|] eqn:Hij; [|discriminate].
  destruct (nl !! q) as [ik|] eqn:Hik; [|discriminate].
  simpl in Hdij, Hdik, HDik, HDij, Hi', Hj', Hk'.
  injection Hdij as <-. injection Hdik as <-. injection HDik as <-. injection HDij as <-.
  injection Hi' as <-. injection Hj' as <-. injection Hk' as <-.
  unfold t_n in Hti', Htj', Htk'.
  repeat match goal with H : map _ _ !! _ = Some _ |- _ => rewrite lookup_map in H end.
  destruct (numbers atoms !! pair_i ij) as [zi|] eqn:Hzi; [|discriminate].
  destruct (numbers atoms !! pair_j ij) as [zj|] eqn:Hzj; [|discriminate].
  destruct (numbers atoms !! pair_j ik) as [zk|] eqn:Hzk; [|discriminate].
  simpl in Hti', Htj', Htk'. injection Hti' as <-. injection Htj' as <-. injection Htk' as <-.
  unfold triplet_theta. cbn [fst snd]. fold nl. rewrite Hij, Hik, Hzi, Hzj, Hzk.
  assert (HR : map Rjk (asub rik_tc rij_tc) !! t
               = Some (Rjk (sub (pair_D ik) (pair_D ij)))).
  { rewrite lookup_map. unfold asub. rewrite lookup_zip_with, HrikD. simpl.
    rewrite HrijD. reflexivity. }
  apply call_theta_lookup; try assumption.
  - rewrite lookup_zip_with, Hrij. reflexivity.
  - rewrite lookup_zip_with, Hrik. reflexivity.
  - rewrite lookup_map, HR. reflexivity.
  - unfold call_pair_type. rewrite lookup_zip_with, Hti. simpl. rewrite Htj. reflexivity.
  - unfold call_pair_type. rewrite lookup_zip_with, Hti. simpl. rewrite Htk. reflexivity.
Qed.

Lemma phi_evaluated_intro P atoms cutoff xi_p g ti_p tj_p :
  let nl := neighbour_list atoms cutoff in
  let t_n := map (P_atom_type P) (numbers atoms) in
  take t_n (map pair_i nl) = Ok ti_p ->
  take t_n (map pair_j nl) = Ok tj_p ->
  length xi_p = length nl ->
  phi_evaluated P atoms cutoff xi_p g
    (call_phi g (zip_with Rmult (map pair_d nl) (map pair_d nl)) (map pair_d nl) xi_p
       ti_p (call_pair_type (P_pair_type P) ti_p tj_p)).
Proof.
  intros nl t_n E1 E2 Lx. subst nl t_n.
  pose proof (take_length _ _ _ E1) as L1. pose proof (take_length _ _ _ E2) as L2.
  rewrite ?length_map in *.
  split; [apply call_phi_length; unfold call_pair_type;
          rewrite ?length_zip_with, ?length_map; lia|].
  intros p pr Hp.
  assert (Hi : map pair_i (neighbour_list atoms cutoff) !! p = Some (pair_i pr)) by (rewrite lookup_map, Hp; reflexivity).
  assert (Hj : map pair_j (neighbour_list atoms cutoff) !! p = Some (pair_j pr)) by (rewrite lookup_map, Hp; reflexivity).
  take_at E1 Hi ti Hti Hti'. take_at E2 Hj tj Htj Htj'.
  repeat match goal with H : map _ _ !! _ = Some _ |- _ => rewrite lookup_map in H end.
  destruct (numbers atoms !! pair_i pr) as [zi|] eqn:Hzi; [|discriminate].
  destruct (numbers atoms !! pair_j pr) as [zj|] eqn:Hzj; [|discriminate].
  simpl in Hti', Htj'. injection Hti' as <-. injection Htj' as <-.
  destruct (lookup_lt_is_Some_2 xi_p p) as [xi Hxi];
    [rewrite Lx; eapply lookup_lt_Some; exact Hp|].
  exists xi. split; [exact Hxi|].
  unfold pair_phi. rewrite Hzi, Hzj.
  apply call_phi_lookup; try assumption.
  - rewrite lookup_zip_with, lookup_map, Hp. reflexivity.
  - rewrite lookup_map, Hp. reflexivity.
  - unfold call_pair_type. rewrite lookup_zip_with, Hti. simpl. rewrite Htj. reflexivity.
Qed.

Lemma default_atoms_manybody P self atoms s :
  Manybody.default_atoms self atoms = Ok s -> is_manybody P self -> is_manybody P s.
Proof.
  unfold Manybody.default_atoms. intros H Hm. inv_bind H.
  destruct v; injection H as <-; try exact Hm. apply is_manybody_atoms, Hm.
Qed.

(** The energy and force path: the coordination is complete when the phi
    family is evaluated on it. *)
Lemma calculate_xi P self atoms f :
  is_manybody P self -> Manybody.calculate_fields self atoms = Ok f ->
  xi_is_full_sum (Manybody.c_nb_pairs f) (Manybody.c_ij_t f) (Manybody.c_theta_t f)
    (Manybody.c_xi_p f) /\
  Manybody.c_theta_t f =
    call_theta (P_theta P) (Manybody.c_Rij_t f) (Manybody.c_rij_t f)
      (Manybody.c_Rik_t f) (Manybody.c_rik_t f) (Manybody.c_Rjk_t f) (Manybody.c_rjk_t f)
      (Manybody.c_ti_t f) (Manybody.c_tij_t f) (Manybody.c_tik_t f) /\
  Manybody.c_phi_p f =
    call_phi (P_phi P) (Manybody.c_R_p f) (Manybody.c_r_p f) (Manybody.c_xi_p f)
      (Manybody.c_ti_p f) (Manybody.c_tij_p f) /\
  Manybody.c_d1phi_p f =
    call_phi (P_d1phi P) (Manybody.c_R_p f) (Manybody.c_r_p f) (Manybody.c_xi_p f)
      (Manybody.c_ti_p f) (Manybody.c_tij_p f) /\
  Manybody.c_d2phi_p f =
    call_phi (P_d2phi P) (Manybody.c_R_p f) (Manybody.c_r_p f) (Manybody.c_xi_p f)
      (Manybody.c_ti_p f) (Manybody.c_tij_p f).
Proof.
  intros Hm Hf.
  pose proof (calculate_fields_wf _ _ _ Hf) as Hw.
  destruct (calculate_fields_spec P self atoms f Hm Hf)
    as (_ & _ & _ & _ & _ & _ & _ & _ & _ & _ & _ & _ & _ & _ & Hth & Hb & Hphi).
  split; [|split; assumption].
  apply xi_full_sum; [|exact Hb].
  rewrite (wf_nb_pairs _ Hw). apply (wf_ij_bound _ Hw).
Qed.

(** The Born path. *)
Lemma born_xi P self atoms f :
  is_manybody P self -> Manybody.born_fields self atoms = Ok f ->
  xi_is_full_sum (Manybody.b_nb_pairs f) (Manybody.b_ij_t f) (Manybody.b_theta_t f)
    (Manybody.b_xi_p f) /\
  Manybody.b_theta_t f =
    call_theta (P_theta P) (Manybody.b_Rij_t f) (Manybody.b_rij_t f)
      (Manybody.b_Rik_t f) (Manybody.b_rik_t f) (Manybody.b_Rjk_t f) (Manybody.b_rjk_t f)
      (Manybody.b_ti_t f) (Manybody.b_tij_t f) (Manybody.b_tik_t f) /\
  Manybody.b_d2phi_p f =
    call_phi (P_d2phi P) (Manybody.b_R_p f) (Manybody.b_r_p f) (Manybody.b_xi_p f)
      (Manybody.b_ti_p f) (Manybody.b_tij_p f) /\
  Manybody.b_d11phi_p f =
    call_phi (P_d11phi P) (Manybody.b_R_p f) (Manybody.b_r_p f) (Manybody.b_xi_p f)
      (Manybody.b_ti_p f) (Manybody.b_tij_p f) /\
  Manybody.b_d22phi_p f =
    call_phi (P_d22phi P) (Manybody.b_R_p f) (Manybody.b_r_p f) (Manybody.b_xi_p f)
      (Manybody.b_ti_p f) (Manybody.b_tij_p f) /\
  Manybody.b_d12phi_p f =
    call_phi (P_d12phi P) (Manybody.b_R_p f) (Manybody.b_r_p f) (Manybody.b_xi_p f)
      (Manybody.b_ti_p f) (Manybody.b_tij_p f).
Proof.
  intros Hm. unfold Manybody.born_fields. intros H. inv_bind H. injection H as <-.
  pose proof (default_atoms_manybody P _ _ _ E Hm) as Hm'.
  attr_facts Hm'. simpl.
  split; [|repeat split; reflexivity].
  apply xi_full_sum; [|eassumption].
  match goal with
  | E : take (map pair_d _) (map fst _) = Ok _ |- _ => pose proof (take_bounds _ _ _ E) as Hb
  end.
  rewrite length_map in *. exact Hb.
Qed.

(** The Hessian path: the coordination is complete, and the evaluation of
    the phi family then stops at the unassigned name [R_p]. *)
Lemma hessian_xi P self atoms f :
  is_manybody P self -> Manybody.hessian_fields self atoms = Ok f ->
  xi_is_full_sum (Manybody.h_nb_pairs f) (Manybody.h_ij_t f) (Manybody.h_theta_t f)
    (Manybody.h_xi_p f) /\
  Manybody.h_theta_t f =
    call_theta (P_theta P) (Manybody.h_Rij_t f) (Manybody.h_rij_t f)
      (Manybody.h_Rik_t f) (Manybody.h_rik_t f) (Manybody.h_Rjk_t f) (Manybody.h_rjk_t f)
      (Manybody.h_ti_t f) (Manybody.h_tij_t f) (Manybody.h_tik_t f) /\
  Manybody.hessian_phi f = Raise (NameError "R_p").
Proof.
  intros Hm. unfold Manybody.hessian_fields. intros H. inv_bind H. injection H as <-.
  pose proof (default_atoms_manybody P _ _ _ E Hm) as Hm'.
  attr_facts Hm'. simpl.
  split; [|split; [reflexivity|]].
  - apply xi_full_sum; [|eassumption].
    match goal with
    | E : take (map pair_d _) (map fst _) = Ok _ |- _ =>
        pose proof (take_bounds _ _ _ E) as Hb
    end.
    rewrite length_map in *. exact Hb.
  - unfold Manybody.hessian_phi. simpl.
    erewrite (attr_phi_is P _ _ _ Hm') by repeat constructor. reflexivity.
Qed.

Lemma default_atoms_ready P self atoms rc :
  is_manybody P self ->
  self !! "atoms" = Some PyNone \/ self !! "atoms" = Some (PyAtoms atoms) ->
  Manybody.get_cutoff self atoms = Ok rc ->
  exists s, Manybody.default_atoms self atoms = Ok s /\
    is_manybody P s /\ attr_atoms s = Ok atoms /\
    Manybody.get_cutoff s atoms = Ok rc /\
    (forall name, name <> "atoms" -> s !! name = self !! name).
Proof.
  intros Hm Ha Hc.
  unfold Manybody.default_atoms, getattr. destruct Ha as [Ha|Ha]; rewrite Ha; cbn.
  - eexists. split; [reflexivity|]. split; [apply is_manybody_atoms, Hm|].
    split; [apply attr_atoms_set|].
    split; [rewrite get_cutoff_setattr by discriminate; exact Hc|].
    intros name Hn. unfold setattr. apply lookup_insert_ne. congruence.
  - exists self. split; [reflexivity|]. split; [exact Hm|].
    split; [unfold attr_atoms, getattr; rewrite Ha; reflexivity|].
    split; [exact Hc | reflexivity].
Qed.

(** On every configuration whose neighbour and triplet lists (built with
    twice the cutoff) are well formed, [get_hessian] completes its set-up
    and then raises the name error for [R_p], in every format, with or
    without division by the masses, whatever Term 1 is. *)
Theorem get_hessian_name_error P self atoms rc term_1 format divide_by_masses :
  is_manybody P self ->
  self !! "atoms" = Some PyNone \/ self !! "atoms" = Some (PyAtoms atoms) ->
  Manybody.get_cutoff self atoms = Ok rc ->
  wf_neighbours atoms (2 * rc) ->
  Manybody.get_hessian term_1 self atoms format divide_by_masses
  = Raise (NameError "R_p").
Proof.
  intros Hm Ha Hc Hwf.
  destruct (wf_neighbours_bounds _ _ Hwf) as (Bi & Bj & Bij & Bik).
  destruct (default_atoms_ready P self atoms rc Hm Ha Hc) as (s & Hd & Hm' & Hat & Hc' & _).
  assert (Hf : exists f, Manybody.hessian_fields self atoms = Ok f).
  { unfold Manybody.hessian_fields.
    rewrite Hd; cbn [bind].
    rewrite (attr_atom_type_is P _ Hm'); cbn [bind].
    rewrite Hc'; cbn [bind]. rewrite Hat; cbn [bind].
    repeat step Hm'.
    eauto. }
  destruct Hf as [f Hf].
  unfold Manybody.get_hessian. rewrite Hf; cbn [bind].
  destruct (hessian_xi P self atoms f Hm Hf) as (_ & _ & ->). reflexivity.
Qed.

(** The local variables of [calculate], read off the configuration. *)
Lemma calculate_fields_pinned P self atoms rc :
  is_manybody P self -> Manybody.get_cutoff self atoms = Ok rc ->
  wf_neighbours atoms rc ->
  exists f,
    Manybody.calculate_fields self atoms = Ok f /\
    Manybody.c_r_pc f = map pair_D (neighbour_list atoms rc) /\
    Manybody.c_ij_t f = map fst (triplets atoms rc) /\
    Manybody.c_ik_t f = map snd (triplets atoms rc) /\
    coordination P atoms rc Manybody.sum_sq (Manybody.c_theta_t f) (Manybody.c_xi_p f) /\
    theta_evaluated P atoms rc Manybody.sum_sq (P_d1theta P) (Manybody.c_d1theta_t f) /\
    theta_evaluated P atoms rc Manybody.sum_sq (P_d2theta P) (Manybody.c_d2theta_t f) /\
    theta_evaluated P atoms rc Manybody.sum_sq (P_d3theta P) (Manybody.c_d3theta_t f) /\
    phi_evaluated P atoms rc (Manybody.c_xi_p f) (P_phi P) (Manybody.c_phi_p f) /\
    phi_evaluated P atoms rc (Manybody.c_xi_p f) (P_d1phi P) (Manybody.c_d1phi_p f) /\
    phi_evaluated P atoms rc (Manybody.c_xi_p f) (P_d2phi P) (Manybody.c_d2phi_p f).
Proof.
  intros Hm Hc Hwf.
  destruct (wf_neighbours_bounds _ _ Hwf) as (Bi & Bj & Bij & Bik).
  unfold Manybody.calculate_fields, Manybody.Calculator_calculate.
  pose proof (is_manybody_atoms P self (PyAtoms atoms) Hm) as Hm'.
  rewrite (attr_atom_type_is P _ Hm'); cbn [bind].
  rewrite get_cutoff_setattr, Hc by discriminate; cbn [bind].
  rewrite attr_atoms_set; cbn [bind].
  repeat step Hm'.
  eexists. split; [reflexivity|].
  cbn [Manybody.c_r_pc Manybody.c_ij_t Manybody.c_ik_t Manybody.c_theta_t
       Manybody.c_xi_p Manybody.c_d1theta_t Manybody.c_d2theta_t Manybody.c_d3theta_t
       Manybody.c_phi_p Manybody.c_d1phi_p Manybody.c_d2phi_p].
  repeat (split; [reflexivity|]).
  match goal with
  | E : bincount _ _ _ = Ok ?xi |- _ =>
      rewrite length_map in E;
      pose proof (xi_full_sum _ _ _ _ Bij E) as Hxi
  end.
  split; [split; [eapply theta_evaluated_intro; eassumption | exact Hxi]|].
  do 3 (split; [eapply theta_evaluated_intro; eassumption|]).
  repeat split;
    (eapply phi_evaluated_intro; [eassumption | eassumption | exact (proj1 Hxi)]).
Qed.




(** C4: on a configuration whose neighbour and triplet lists are well
    formed, [calculate] returns and the stress it stores is the virial
    divided by the cell volume.  The virial is the sum over the pairs of the
    neighbour list of the outer product of the distance vector of the pair
    with the pairwise force d1phi times that vector, plus the outer-product
    sums over the three bond vectors ij, ik and jk = ik - ij of every
    triplet of the configuration with their forces: d2phi of the pair ij
    times d1theta, d2theta and d3theta of the triplet times the bond vector.
    The six components are stored in the order (xx, yy, zz, yz, xz, xy): the
    fourth entry is the sum of the products y times f_z, the fifth of x
    times f_z, the sixth of x times f_y. *)
Theorem stress_is_virial P self atoms rc :
  is_manybody P self -> Manybody.get_cutoff self atoms = Ok rc ->
  wf_neighbours atoms rc ->
  exists self' res f k d2phi_t,
    Manybody.calculate self atoms = Ok self' /\
    results_of self' = Some res /\
    Manybody.calculate_fields self atoms = Ok f /\
    Manybody.contributions f = Ok k /\
    (* the bonds: the pairs and the triplets of the configuration *)
    Manybody.c_r_pc f = map pair_D (neighbour_list atoms rc) /\
    Manybody.c_ij_t f = map fst (triplets atoms rc) /\
    Manybody.c_ik_t f = map snd (triplets atoms rc) /\
    take (Manybody.c_r_pc f) (Manybody.c_ij_t f) = Ok (Manybody.rij_c k) /\
    take (Manybody.c_r_pc f) (Manybody.c_ik_t f) = Ok (Manybody.rik_c k) /\
    (* the derivatives of the potential on these bonds *)
    coordination P atoms rc Manybody.sum_sq (Manybody.c_theta_t f) (Manybody.c_xi_p f) /\
    theta_evaluated P atoms rc Manybody.sum_sq (P_d1theta P) (Manybody.c_d1theta_t f) /\
    theta_evaluated P atoms rc Manybody.sum_sq (P_d2theta P) (Manybody.c_d2theta_t f) /\
    theta_evaluated P atoms rc Manybody.sum_sq (P_d3theta P) (Manybody.c_d3theta_t f) /\
    phi_evaluated P atoms rc (Manybody.c_xi_p f) (P_d1phi P) (Manybody.c_d1phi_p f) /\
    phi_evaluated P atoms rc (Manybody.c_xi_p f) (P_d2phi P) (Manybody.c_d2phi_p f) /\
    take (Manybody.c_d2phi_p f) (Manybody.c_ij_t f) = Ok d2phi_t /\
    (* the force contributions *)
    Manybody.fij_pc k = ascal (Manybody.c_d1phi_p f) (Manybody.c_r_pc f) /\
    Manybody.fij_tc k
    = ascal (zip_with Rmult d2phi_t (Manybody.c_d1theta_t f)) (Manybody.rij_c k) /\
    Manybody.fik_tc k
    = ascal (zip_with Rmult d2phi_t (Manybody.c_d2theta_t f)) (Manybody.rik_c k) /\
    Manybody.fjk_tc k
    = ascal (zip_with Rmult d2phi_t (Manybody.c_d3theta_t f))
        (asub (Manybody.rik_c k) (Manybody.rij_c k)) /\
    (* the stress *)
    stress res = map (fun ab => virial_tensor f k ab.1 ab.2 / volume atoms) voigt.
Proof.
  intros Hm Hc Hwf.
  destruct (calculate_fields_pinned P self atoms rc Hm Hc Hwf)
    as (f & Hf & Hr & Hij & Hik & Hco & T1 & T2 & T3 & _ & P1 & P2).
  pose proof (calculate_fields_wf _ _ _ Hf) as Hw.
  destruct (contributions_total f Hw) as (k & Hk & L1 & L2 & L3 & L4 & L5 & L6).
  destruct (atomic_forces_total f k Hw L1 L2 L3 L4) as [f_nc Hn].
  destruct (contributions_spec _ _ Hk) as (S1 & S2 & S3).
  destruct (contributions_triplet_forces _ _ Hk) as (d2phi_t & D0 & D1 & D2 & D3).
  eexists _, _, f, k, d2phi_t.
  split; [apply (calculate_unfold _ _ _ _ _ Hf Hk Hn)|].
  split; [apply results_of_set|].
  repeat (split; [assumption|]).
  unfold Manybody.virial, adiv, aadd, voigt.
  cbn [map zip_with fst snd].
  apply list6_eq;
    (rewrite <- virial_component by congruence;
     unfold aadd; cbn [scal R_additive add]; unfold Rdiv; ring).
Qed.

(** ** The G and F families *)

Lemma instance_lacks P a r name :
  name ∈ missing_attributes -> instance P a r !! name = None.
Proof.
  unfold missing_attributes. intros H.
  repeat (apply elem_of_cons in H as [->|H]; [vm_compute; reflexivity|]).
  inversion H.
Qed.

Lemma default_atoms_lookup self atoms s name :
  Manybody.default_atoms self atoms = Ok s -> name <> "atoms" -> s !! name = self !! name.
Proof.
  unfold Manybody.default_atoms. intros H Hn. inv_bind H.
  destruct v; injection H as <-; try reflexivity.
  unfold setattr. apply lookup_insert_ne. congruence.
Qed.

Lemma potential_GF_raises self r_p r_pc nb_pairs ij_t ik_t ti_p tij_p ti_t tij_t tik_t :
  self !! "G" = None ->
  Manybody.potential_GF self r_p r_pc nb_pairs ij_t ik_t ti_p tij_p ti_t tij_t tik_t
  = Raise (AttributeError "G").
Proof.
  intros HG. unfold Manybody.potential_GF, attr_G, getattr. rewrite HG. reflexivity.
Qed.

Lemma second_derivative_fields_self self atoms drda drdb pairs f :
  Manybody.second_derivative_fields self atoms drda drdb pairs = Ok f ->
  Manybody.s_self f !! "G" = self !! "G".
Proof.
  unfold Manybody.second_derivative_fields. intros H. inv_bind H. injection H as <-.
  simpl. eapply default_atoms_lookup; [eassumption | discriminate].
Qed.

Lemma non_affine_fields_self self atoms f :
  Manybody.non_affine_fields self atoms = Ok f ->
  Manybody.n_self f !! "G" = self !! "G".
Proof.
  unfold Manybody.non_affine_fields. intros H. inv_bind H. injection H as <-.
  simpl. eapply default_atoms_lookup; [eassumption | discriminate].
Qed.

(** Without an attribute [G] the second derivative fails: in its set-up,
    or else at the first call of the potential. *)
Lemma get_second_derivative_raises self atoms drda drdb pairs :
  self !! "G" = None ->
  Manybody.get_second_derivative self atoms drda drdb pairs =
    match Manybody.second_derivative_fields self atoms drda drdb pairs with
    | Ok _ => Raise (AttributeError "G")
    | Raise e => Raise e
    end.
Proof.
  intros HG. unfold Manybody.get_second_derivative.
  destruct (Manybody.second_derivative_fields self atoms drda drdb pairs) as [f|e] eqn:Hf;
    cbn [bind]; [|reflexivity].
  rewrite potential_GF_raises; [reflexivity|].
  rewrite (second_derivative_fields_self _ _ _ _ _ _ Hf). exact HG.
Qed.

Lemma get_non_affine_forces_raises self atoms :
  self !! "G" = None ->
  Manybody.get_non_affine_forces self atoms =
    match Manybody.non_affine_fields self atoms with
    | Ok _ => Raise (AttributeError "G")
    | Raise e => Raise e
    end.
Proof.
  intros HG. unfold Manybody.get_non_affine_forces.
  destruct (Manybody.non_affine_fields self atoms) as [f|e] eqn:Hf;
    cbn [bind]; [|reflexivity].
  rewrite potential_GF_raises; [reflexivity|].
  rewrite (non_affine_fields_self _ _ _ Hf). exact HG.
Qed.

Lemma mapM_all_raise {A B : Type} (g : A -> result B) l v :
  (forall a, exists e, g a = Raise e) -> mapM g l = Ok v -> l = [] /\ v = [].
Proof.
  intros Hg. destruct l as [|a l]; simpl.
  - intros [= <-]. auto.
  - destruct (Hg a) as [e ->]. discriminate.
Qed.

Lemma from_second_derivative_empty self atoms v :
  self !! "G" = None ->
  Manybody.get_non_affine_forces_from_second_derivative self atoms = Ok v -> v = [].
Proof.
  intros HG. unfold Manybody.get_non_affine_forces_from_second_derivative.
  intros H. inv_bind H. injection H as <-.
  apply mapM_all_raise in E2 as [_ ->]; [reflexivity|].
  intros m. unfold Manybody.loop_indices. simpl.
  rewrite get_second_derivative_raises.
  - destruct (Manybody.second_derivative_fields _ _ _ _ _); simpl; eauto.
  - rewrite (default_atoms_lookup _ _ _ "G" E) by discriminate. exact HG.
Qed.

Lemma instance_atoms P a r : instance P a r !! "atoms" = Some a.
Proof.
  unfold instance, setattr.
  rewrite lookup_insert_ne by discriminate. apply lookup_insert_eq.
Qed.

(** On every configuration whose neighbour and triplet lists are well
    formed, [get_non_affine_forces] and [get_second_derivative] complete
    their set-up on an instance built by the constructor and then raise the
    attribute error for [G]. *)
Theorem non_affine_forces_attribute_error P a r atoms rc :
  a = PyNone \/ a = PyAtoms atoms ->
  Manybody.get_cutoff (instance P a r) atoms = Ok rc ->
  wf_neighbours_jk atoms rc ->
  Manybody.get_non_affine_forces (instance P a r) atoms = Raise (AttributeError "G") /\
  forall drda_pc drdb_pc,
    length drda_pc = length (neighbour_list atoms rc) ->
    length drdb_pc = length (neighbour_list atoms rc) ->
    Manybody.get_second_derivative (instance P a r) atoms drda_pc drdb_pc None
    = Raise (AttributeError "G").
Proof.
  intros Ha Hc [Hp Ht].
  assert (Hm : is_manybody P (instance P a r))
    by (apply is_manybody_results, is_manybody_atoms, is_manybody_new).
  assert (HG : instance P a r !! "G" = None)
    by (apply instance_lacks; repeat constructor).
  assert (Ha' : instance P a r !! "atoms" = Some PyNone \/
                instance P a r !! "atoms" = Some (PyAtoms atoms))
    by (rewrite instance_atoms; destruct Ha as [-> | ->]; auto).
  destruct (default_atoms_ready P _ atoms rc Hm Ha' Hc) as (s & Hd & Hm' & Hat & Hc' & _).
  set (nl := neighbour_list atoms rc) in *.
  assert (Bi : Forall (fun i => (i < length (numbers atoms))%nat) (map pair_i nl)).
  { rewrite map_fmap, Forall_fmap. eapply Forall_impl; [exact Hp|].
    intros p [H1 _]. exact H1. }
  assert (Bj : Forall (fun i => (i < length (numbers atoms))%nat) (map pair_j nl)).
  { rewrite map_fmap, Forall_fmap. eapply Forall_impl; [exact Hp|].
    intros p [_ H2]. exact H2. }
  set (tl := triplet_list_jk (first_neighbours (len atoms) (map pair_i nl))
               (map pair_d nl) rc (map pair_i nl) (map pair_j nl)) in *.
  assert (Bij : Forall (fun p => (p < length nl)%nat) (map (fun t => t.1.1) tl)).
  { rewrite map_fmap, Forall_fmap. eapply Forall_impl; [exact Ht|].
    intros t [H1 _]. exact H1. }
  assert (Bik : Forall (fun p => (p < length nl)%nat) (map (fun t => t.1.2) tl)).
  { rewrite map_fmap, Forall_fmap. eapply Forall_impl; [exact Ht|].
    intros t [_ H2]. exact H2. }
  split.
  - rewrite (get_non_affine_forces_raises _ atoms HG).
    assert (Hf : exists f, Manybody.non_affine_fields (instance P a r) atoms = Ok f).
    { unfold Manybody.non_affine_fields.
      rewrite Hd; cbn [bind].
      rewrite (attr_atom_type_is P _ Hm'); cbn [bind].
      rewrite Hc'; cbn [bind]. rewrite Hat; cbn [bind].
      fold nl. fold tl.
      repeat step Hm'.
      eauto. }
    destruct Hf as [f ->]. reflexivity.
  - intros drda_pc drdb_pc Hla Hlb.
    rewrite (get_second_derivative_raises _ atoms _ _ _ HG).
    assert (Hf : exists f, Manybody.second_derivative_fields (instance P a r) atoms
                             drda_pc drdb_pc None = Ok f).
    { unfold Manybody.second_derivative_fields.
      rewrite Hd; cbn [bind].
      rewrite (attr_atom_type_is P _ Hm'); cbn [bind].
      rewrite Hc'; cbn [bind]. rewrite Hat; cbn [bind].
      fold nl.
      unfold broadcast2.
      rewrite !decide_True
        by (rewrite length_zip_with, !length_map; fold nl; rewrite ?Hla, ?Hlb; lia).
      cbn [bind]. fold tl.
      repeat step Hm'.
      eauto. }
    destruct Hf as [f ->]. reflexivity.
Qed.

(** The set-up of [get_second_derivative] on the instance that
    [if self.atoms is None: self.atoms = atoms] has left. *)
Lemma second_derivative_fields_default self atoms s drda drdb pairs :
  Manybody.default_atoms self atoms = Ok s ->
  Manybody.second_derivative_fields s atoms drda drdb pairs
  = Manybody.second_derivative_fields self atoms drda drdb pairs.
Proof.
  intros Hd.
  assert (Hs : Manybody.default_atoms s atoms = Ok s).
  { revert Hd. unfold Manybody.default_atoms.
    destruct (getattr self "atoms") as [v|e] eqn:Hv; cbn [bind]; [|discriminate].
    destruct v; intros [= <-]; try (rewrite Hv; reflexivity).
    unfold getattr, setattr. rewrite lookup_insert_eq. reflexivity. }
  unfold Manybody.second_derivative_fields. rewrite Hd, Hs. reflexivity.
Qed.

(** The loop of [get_non_affine_forces_from_second_derivative] runs over the
    atoms of the stored configuration [self.atoms], which is the argument
    if none was stored.  Without atoms the method returns an empty array;
    with at least one atom it fails: in the cutoff lookup, or in the first
    call of [get_second_derivative]. *)
Lemma from_second_derivative_cases P a r atoms stored :
  a = PyAtoms stored \/ (a = PyNone /\ stored = atoms) ->
  (len stored = 0%nat ->
   forall rc, Manybody.get_cutoff (instance P a r) atoms = Ok rc ->
     Manybody.get_non_affine_forces_from_second_derivative (instance P a r) atoms = Ok []) /\
  ((0 < len stored)%nat ->
   exists e,
     Manybody.get_non_affine_forces_from_second_derivative (instance P a r) atoms = Raise e /\
     (Manybody.get_cutoff (instance P a r) atoms = Raise e \/
      e = AttributeError "G" \/
      exists drda_pc drdb_pc pairs,
        Manybody.second_derivative_fields (instance P a r) atoms drda_pc drdb_pc pairs
        = Raise e)).
Proof.
  intros Ha.
  assert (HG : instance P a r !! "G" = None)
    by (apply instance_lacks; repeat constructor).
  assert (Hd : exists s, Manybody.default_atoms (instance P a r) atoms = Ok s /\
                 attr_atoms s = Ok stored /\
                 Manybody.get_cutoff s atoms = Manybody.get_cutoff (instance P a r) atoms).
  { unfold Manybody.default_atoms, getattr. rewrite instance_atoms. cbn [bind].
    destruct Ha as [-> | [-> ->]].
    - eexists. split; [reflexivity|]. split; [|reflexivity].
      unfold attr_atoms, getattr. rewrite instance_atoms. reflexivity.
    - eexists. split; [reflexivity|]. split; [apply attr_atoms_set|].
      apply get_cutoff_setattr; discriminate. }
  destruct Hd as (s & Hd & Hat & Hcs).
  assert (HGs : s !! "G" = None)
    by (rewrite (default_atoms_lookup _ _ _ "G" Hd) by discriminate; exact HG).
  unfold Manybody.get_non_affine_forces_from_second_derivative.
  rewrite Hd; cbn [bind]. rewrite Hcs.
  split.
  - intros H0 rc Hc. rewrite Hc; cbn [bind]. rewrite Hat; cbn [bind].
    rewrite H0. reflexivity.
  - intros Hpos.
    destruct (Manybody.get_cutoff (instance P a r) atoms) as [rc|e] eqn:Hc; cbn [bind];
      [|exists e; auto].
    rewrite Hat; cbn [bind].
    destruct (len stored) as [|n]; [lia|].
    unfold Manybody.loop_indices. simpl.
    rewrite (get_second_derivative_raises _ atoms _ _ _ HGs).
    rewrite (second_derivative_fields_default _ _ _ _ _ _ Hd).
    match goal with
    | |- context [Manybody.second_derivative_fields ?o ?x ?d1 ?d2 ?q] =>
        destruct (Manybody.second_derivative_fields o x d1 d2 q) as [f|e] eqn:Hf
    end; cbn [bind].
    + exists (AttributeError "G"). auto.
    + exists e. split; [reflexivity|]. right. right. eauto.
Qed.

(** C10, as amended: on an instance built by the constructor, in whatever
    state of [self.atoms] and [self.results], none of the attributes [G],
    [d1G], [d2G], [d11G], [d12G], [d22G], [d1F], [d2F], [d11F], [d12F],
    [d22F] exists.  Every call of [get_second_derivative] and of
    [get_non_affine_forces] fails before producing a result: with the error
    of its set-up if that fails, and otherwise with the attribute error for
    [G].  [get_non_affine_forces_from_second_derivative] loops over the atoms
    of the stored configuration, which is the argument if none was stored:
    when that configuration has at least one atom the call fails, with the
    error of the cutoff lookup, with the error of the set-up of
    [get_second_derivative], or with the attribute error for [G]; when it
    has no atom and the cutoff lookup succeeds the call returns the empty
    array; and an empty array is all it ever returns. *)
Theorem missing_attributes_fail P a r atoms :
  (forall name, name ∈ missing_attributes ->
     getattr (instance P a r) name = Raise (AttributeError name)) /\
  (forall drda_pc drdb_pc pairs,
     Manybody.get_second_derivative (instance P a r) atoms drda_pc drdb_pc pairs =
       match Manybody.second_derivative_fields (instance P a r) atoms drda_pc drdb_pc pairs
       with
       | Ok _ => Raise (AttributeError "G")
       | Raise e => Raise e
       end) /\
  Manybody.get_non_affine_forces (instance P a r) atoms =
    match Manybody.non_affine_fields (instance P a r) atoms with
    | Ok _ => Raise (AttributeError "G")
    | Raise e => Raise e
    end /\
  (forall v,
     Manybody.get_non_affine_forces_from_second_derivative (instance P a r) atoms = Ok v ->
     v = []) /\
  (forall stored,
     a = PyAtoms stored \/ (a = PyNone /\ stored = atoms) ->
     (len stored = 0%nat ->
      forall rc, Manybody.get_cutoff (instance P a r) atoms = Ok rc ->
        Manybody.get_non_affine_forces_from_second_derivative (instance P a r) atoms
        = Ok []) /\
     ((0 < len stored)%nat ->
      exists e,
        Manybody.get_non_affine_forces_from_second_derivative (instance P a r) atoms
        = Raise e /\
        (Manybody.get_cutoff (instance P a r) atoms = Raise e \/
         e = AttributeError "G" \/
         exists drda_pc drdb_pc pairs,
           Manybody.second_derivative_fields (instance P a r) atoms drda_pc drdb_pc pairs
           = Raise e))).
Proof.
  assert (HG : instance P a r !! "G" = None)
    by (apply instance_lacks; repeat constructor).
  split; [|split; [|split; [|split]]].
  - intros name Hn. unfold getattr. rewrite (instance_lacks P a r name Hn). reflexivity.
  - intros. apply get_second_derivative_raises, HG.
  - apply get_non_affine_forces_raises, HG.
  - intros v. apply from_second_derivative_empty, HG.
  - intros stored. apply from_second_derivative_cases.
Qed.

End CalculateProperties.

(** The hypotheses of the theorems on [calculate] hold for the trimer. *)
Lemma trimer_is_manybody : is_manybody Example.potential (new Example.potential).
Proof. apply is_manybody_new. Qed.

Lemma trimer_cutoff :
  Manybody.get_cutoff (new Example.potential) Example.trimer = Ok 3.
Proof. reflexivity. Qed.

Lemma trimer_wf : wf_neighbours (nb := Example.trimer_neighbours) Example.trimer 3.
Proof.
  split; simpl; repeat constructor; simpl; lia.
Qed.

Lemma forces_sum_to_zero_witness :
  exists self' res,
    Manybody.calculate (nb := Example.trimer_neighbours)
      (new Example.potential) Example.trimer = Ok self' /\
    results_of self' = Some res /\
    forall c, asum (col c (forces res)) = 0.
Proof.
  destruct (forces_sum_to_zero (nb := Example.trimer_neighbours)
              Example.potential (new Example.potential) Example.trimer 3
              trimer_is_manybody trimer_cutoff trimer_wf)
    as (self' & res & f & k & i_t & j_t & i_t' & k_t & H1 & H2 & _ & _ & _ & _ & _ & _ & _ & _ & H3).
  exists self', res. auto.
Defined.


Lemma dimer_cutoff :
  Manybody.get_cutoff (new Example.potential) Example.dimer = Ok 3.
Proof. reflexivity. Qed.

Lemma dimer_wf : wf_neighbours (nb := Example.dimer_neighbours) Example.dimer 3.
Proof.
  split; simpl; repeat constructor; simpl; lia.
Qed.

Lemma energy_half_sum_phi_witness :
  exists self' res,
    Manybody.calculate (nb := Example.dimer_neighbours)
      (new Example.potential) Example.dimer = Ok self' /\
    results_of self' = Some res /\
    energy res = P_phi Example.potential (2 * 2) 2 0 0%nat 0%nat.
Proof.
  destruct (energy_half_sum_phi (nb := Example.dimer_neighbours)
              Example.potential (new Example.potential) Example.dimer 3
              trimer_is_manybody dimer_cutoff dimer_wf) as [_ H].
  apply (H 14%Z 2 (mk3 2 0 0) (mk3 (- 2) 0 0)); reflexivity.
Defined.

Lemma stress_is_virial_witness :
  exists self' res f k,
    Manybody.calculate (nb := Example.trimer_neighbours)
      (new Example.potential) Example.trimer = Ok self' /\
    results_of self' = Some res /\
    Manybody.calculate_fields (nb := Example.trimer_neighbours)
      (new Example.potential) Example.trimer = Ok f /\
    Manybody.contributions f = Ok k /\
    Manybody.c_r_pc f = map pair_D Example.trimer_pairs /\
    stress res = map (fun ab => virial_tensor f k ab.1 ab.2 / 1000) voigt.
Proof.
  destruct (stress_is_virial (nb := Example.trimer_neighbours)
              Example.potential (new Example.potential) Example.trimer 3
              trimer_is_manybody trimer_cutoff trimer_wf)
    as (self' & res & f & k & d2phi_t & H1 & H2 & H3 & H4 & H5
        & _ & _ & _ & _ & _ & _ & _ & _ & _ & _ & _ & _ & _ & _ & _ & H).
  exists self', res, f, k.
  repeat (split; [assumption|]). exact H.
Defined.

Lemma calculate_deterministic_witness :
  exists self1,
    Manybody.calculate (nb := Example.trimer_neighbours)
      (new Example.potential) Example.trimer = Ok self1 /\
    Manybody.calculate (nb := Example.trimer_neighbours) self1 Example.trimer = Ok self1.
Proof.
  destruct (calculate_total (nb := Example.trimer_neighbours)
              Example.potential (new Example.potential) Example.trimer 3
              trimer_is_manybody trimer_cutoff trimer_wf)
    as (f & k & f_nc & Hf & Hk & Hn).
  pose proof (calculate_unfold (nb := Example.trimer_neighbours) _ _ _ _ _ Hf Hk Hn) as H1.
  eexists. split; [exact H1|].
  destruct (calculate_deterministic (nb := Example.trimer_neighbours)
              Example.potential (new Example.potential) Example.trimer
              trimer_is_manybody) as [_ H].
  apply (H _ H1).
Defined.

Lemma born_elastic_constants_total_witness :
  exists C,
    Manybody.get_born_elastic_constants (nb := Example.trimer_neighbours)
      (new Example.potential) Example.trimer = Ok C.
Proof.
  apply (born_elastic_constants_total (nb := Example.trimer_neighbours)
           Example.potential (new Example.potential) Example.trimer 3).
  - apply is_manybody_new.
  - left. reflexivity.
  - reflexivity.
  - exact trimer_wf.
Defined.

Lemma get_hessian_name_error_witness :
  Manybody.get_hessian (nb := Example.trimer_neighbours) (fun _ _ => [])
    (new Example.potential) Example.trimer "sparse" true
  = Raise (NameError "R_p").
Proof.
  apply (get_hessian_name_error (nb := Example.trimer_neighbours)
           Example.potential (new Example.potential) Example.trimer 3).
  - apply is_manybody_new.
  - left. reflexivity.
  - reflexivity.
  - split; simpl; repeat constructor; simpl; lia.
Defined.

Lemma non_affine_forces_attribute_error_witness :
  Manybody.get_non_affine_forces (nb := Example.trimer_neighbours)
    (instance Example.potential PyNone PyEmptyDict) Example.trimer
  = Raise (AttributeError "G") /\
  Manybody.get_second_derivative (nb := Example.trimer_neighbours)
    (instance Example.potential PyNone PyEmptyDict) Example.trimer
    (map pair_D Example.trimer_pairs) (map pair_D Example.trimer_pairs) None
  = Raise (AttributeError "G").
Proof.
  destruct (non_affine_forces_attribute_error (nb := Example.trimer_neighbours)
              Example.potential PyNone PyEmptyDict Example.trimer 3) as [H1 H2].
  - left. reflexivity.
  - reflexivity.
  - split; simpl; repeat constructor; simpl; lia.
  - split; [exact H1|]. apply H2; reflexivity.
Defined.



(** On the trimer the set-up succeeds and the calls stop at [self.G]. *)
Lemma trimer_second_derivative :
  Manybody.get_second_derivative (nb := Example.trimer_neighbours)
    (new Example.potential) Example.trimer
    (map pair_D Example.trimer_pairs) (map pair_D Example.trimer_pairs) None
  = Raise (AttributeError "G").
Proof. reflexivity. Qed.

Lemma trimer_non_affine_forces :
  Manybody.get_non_affine_forces (nb := Example.trimer_neighbours)
    (new Example.potential) Example.trimer
  = Raise (AttributeError "G").
Proof. reflexivity. Qed.

Lemma trimer_from_second_derivative :
  Manybody.get_non_affine_forces_from_second_derivative (nb := Example.trimer_neighbours)
    (new Example.potential) Example.trimer
  = Raise (AttributeError "G").
Proof. reflexivity. Qed.

(** The loop over the atoms: it fails on the trimer and is empty on the
    configuration without atoms. *)
Lemma missing_attributes_fail_witness :
  (exists e,
     Manybody.get_non_affine_forces_from_second_derivative (nb := Example.trimer_neighbours)
       (instance Example.potential PyNone PyEmptyDict) Example.trimer = Raise e) /\
  Manybody.get_non_affine_forces_from_second_derivative (nb := Example.no_neighbours)
    (instance Example.potential PyNone PyEmptyDict) Example.no_atoms = Ok [].
Proof.
  split.
  - destruct (missing_attributes_fail (nb := Example.trimer_neighbours)
                Example.potential PyNone PyEmptyDict Example.trimer)
      as (_ & _ & _ & _ & H).
    destruct (H Example.trimer (or_intror (conj eq_refl eq_refl))) as [_ H2].
    destruct H2 as (e & He & _); [unfold len; simpl; lia|].
    exists e. exact He.
  - destruct (missing_attributes_fail (nb := Example.no_neighbours)
                Example.potential PyNone PyEmptyDict Example.no_atoms)
      as (_ & _ & _ & _ & H).
    destruct (H Example.no_atoms (or_intror (conj eq_refl eq_refl))) as [H1 _].
    apply (H1 eq_refl 3). reflexivity.
Defined.

(** With a cutoff table that lacks the entry of the pair type, the calls
    fail in [get_cutoff], before any attribute of the G family is read: the
    error is a key error, not an attribute error. *)
Lemma attribute_error_counterexample :
  Manybody.get_second_derivative (nb := Example.trimer_neighbours)
    (new Example.table_potential) Example.trimer
    (map pair_D Example.trimer_pairs) (map pair_D Example.trimer_pairs) None
  = Raise KeyError /\
  Manybody.get_non_affine_forces (nb := Example.trimer_neighbours)
    (new Example.table_potential) Example.trimer
  = Raise KeyError /\
  ~ (exists name,
       Manybody.get_non_affine_forces (nb := Example.trimer_neighbours)
         (new Example.table_potential) Example.trimer
       = Raise (AttributeError name)).
Proof.
  assert (H : Manybody.get_non_affine_forces (nb := Example.trimer_neighbours)
                (new Example.table_potential) Example.trimer = Raise KeyError)
    by reflexivity.
  split; [reflexivity|]. split; [exact H|].
  intros [name Hn]. rewrite H in Hn. discriminate.
Qed.

(** ** The Hessian request *)

Section HessianRequest.
Context {nb : Neighbours}.

(** [get_hessian] stops where the phi family is evaluated. *)
Lemma get_hessian_raises P term_1 self atoms format divide_by_masses :
  is_manybody P self ->
  Manybody.get_hessian term_1 self atoms format divide_by_masses =
    match Manybody.hessian_fields self atoms with
    | Ok _ => Raise (NameError "R_p")
    | Raise e => Raise e
    end.
Proof.
  intros Hm. unfold Manybody.get_hessian.
  destruct (Manybody.hessian_fields self atoms) as [f|e] eqn:Hf; cbn [bind]; [|reflexivity].
  destruct (hessian_xi P self atoms f Hm Hf) as (_ & _ & ->). reflexivity.
Qed.

End HessianRequest.

(** ** Atoms without neighbours *)

Section Isolated.
Context {nb : Neighbours}.

Lemma Forall_not_elem_of (l : list nat) n : Forall (fun a => a <> n) l -> n ∉ l.
Proof.
  intros Hl Hin. rewrite Forall_forall in Hl. apply (Hl n Hin). reflexivity.
Qed.

(** An atom that owns no pair and is the partner in no pair feels no
    force. *)
Theorem isolated_atom_force P self atoms rc n :
  is_manybody P self -> Manybody.get_cutoff self atoms = Ok rc ->
  wf_neighbours atoms rc ->
  (n < len atoms)%nat ->
  Forall (fun p => pair_i p <> n /\ pair_j p <> n) (neighbour_list atoms rc) ->
  exists self' res F,
    Manybody.calculate self atoms = Ok self' /\
    results_of self' = Some res /\
    forces res !! n = Some F /\
    forall c, F c = 0.
Proof.
  intros Hm Hc Hwf Hn Hiso.
  destruct (calculate_total P self atoms rc Hm Hc Hwf) as (f & k & f_nc & Hf & Hk & Hfn).
  rewrite (calculate_unfold _ _ _ _ _ Hf Hk Hfn).
  pose proof (calculate_fields_nb_atoms _ _ _ Hf) as HN.
  destruct (atomic_forces_lookup f k f_nc n Hfn) as
    (i_t & j_t & i_t' & k_t & F & T1 & T2 & T3 & T4 & HF & HFc); [lia|].
  destruct (calculate_fields_spec P self atoms f Hm Hf) as
    (rc' & tj_p & Hc' & Hi & Hj & _).
  rewrite Hc in Hc'. injection Hc' as <-.
  assert (Ni : Forall (fun a => a <> n) (Manybody.c_i_p f)).
  { rewrite Hi, map_fmap, Forall_fmap. eapply Forall_impl; [exact Hiso|].
    intros p [H1 _]. exact H1. }
  assert (Nj : Forall (fun a => a <> n) (Manybody.c_j_p f)).
  { rewrite Hj, map_fmap, Forall_fmap. eapply Forall_impl; [exact Hiso|].
    intros p [_ H2]. exact H2. }
  pose proof (take_Forall _ _ _ _ Ni T1) as N1.
  pose proof (take_Forall _ _ _ _ Nj T2) as N2.
  pose proof (take_Forall _ _ _ _ Ni T3) as N3.
  pose proof (take_Forall _ _ _ _ Nj T4) as N4.
  eexists _, _, F. split; [reflexivity|]. rewrite results_of_set.
  split; [reflexivity|]. split; [exact HF|].
  intros c. rewrite HFc. unfold bond_force.
  rewrite !gather_not_in by (apply Forall_not_elem_of; assumption). lra.
Qed.

(** A configuration without a pair within the cutoff has zero energy and
    zero stress. *)
Theorem calculate_without_pairs P self atoms rc :
  is_manybody P self -> Manybody.get_cutoff self atoms = Ok rc ->
  wf_neighbours atoms rc ->
  neighbour_list atoms rc = [] ->
  exists self' res,
    Manybody.calculate self atoms = Ok self' /\
    results_of self' = Some res /\
    energy res = 0 /\ free_energy res = 0 /\
    length (stress res) = 6%nat /\ Forall (fun s => s = 0) (stress res) /\
    length (forces res) = len atoms.
Proof.
  intros Hm Hc Hwf Hnl.
  destruct (calculate_total P self atoms rc Hm Hc Hwf) as (f & k & f_nc & Hf & Hk & Hfn).
  rewrite (calculate_unfold _ _ _ _ _ Hf Hk Hfn).
  pose proof (calculate_fields_nb_atoms _ _ _ Hf) as HN.
  pose proof (calculate_fields_wf _ _ _ Hf) as Hw.
  destruct (calculate_fields_spec P self atoms f Hm Hf) as
    (rc' & tj_p & Hc' & Hi & _ & _ & Hr & _).
  rewrite Hc in Hc'. injection Hc' as <-.
  rewrite Hnl in Hi, Hr. simpl in Hi, Hr.
  assert (Hphi : Manybody.c_phi_p f = []).
  { apply nil_length_inv. rewrite (wf_phi_p f Hw), Hi. reflexivity. }
  assert (Hd1 : Manybody.c_d1phi_p f = []).
  { apply nil_length_inv. rewrite (wf_d1phi_p f Hw), Hi. reflexivity. }
  assert (Hij : Manybody.c_ij_t f = []).
  { pose proof (wf_ij_bound f Hw) as Hb. rewrite Hi in Hb.
    destruct (Manybody.c_ij_t f) as [|t l]; [reflexivity|].
    inversion Hb as [|? ? Ht _]. simpl in Ht. lia. }
  assert (Hik : Manybody.c_ik_t f = []).
  { pose proof (wf_ik_bound f Hw) as Hb. rewrite Hi in Hb.
    destruct (Manybody.c_ik_t f) as [|t l]; [reflexivity|].
    inversion Hb as [|? ? Ht _]. simpl in Ht. lia. }
  destruct (contributions_spec _ _ Hk) as (Kf & Kij & Kik).
  rewrite Hr, Hij in Kij. rewrite Hr, Hik in Kik. simpl in Kij, Kik.
  injection Kij as Kij. injection Kik as Kik.
  rewrite Hd1 in Kf. simpl in Kf.
  eexists _, _. split; [reflexivity|]. rewrite results_of_set.
  split; [reflexivity|]. cbn [energy free_energy stress forces].
  rewrite Hphi, asum_nil.
  split; [lra|]. split; [lra|].
  unfold Manybody.virial. rewrite Hr, Kf, <- Kij, <- Kik.
  unfold Manybody.comp_prod, aadd, asub, adiv. simpl. rewrite !asum_nil.
  split; [reflexivity|].
  split; [repeat constructor; cbn; lra|].
  rewrite (atomic_forces_length _ _ _ Hfn). exact HN.
Qed.

End Isolated.

Lemma dimer_and_atom_wf :
  wf_neighbours (nb := Example.dimer_and_atom_neighbours) Example.dimer_and_atom 3.
Proof. split; simpl; repeat constructor; simpl; lia. Defined.

Lemma isolated_atom_force_witness :
  exists self' res F,
    Manybody.calculate (nb := Example.dimer_and_atom_neighbours)
      (new Example.potential) Example.dimer_and_atom = Ok self' /\
    results_of self' = Some res /\
    forces res !! 2%nat = Some F /\
    forall c, F c = 0.
Proof.
  apply (isolated_atom_force (nb := Example.dimer_and_atom_neighbours)
           Example.potential (new Example.potential) Example.dimer_and_atom 3 2).
  - apply is_manybody_new.
  - reflexivity.
  - exact dimer_and_atom_wf.
  - unfold len. simpl. lia.
  - repeat (constructor; [simpl; split; lia|]). constructor.
Defined.

Lemma far_pair_wf : wf_neighbours (nb := Example.no_neighbours) Example.far_pair 3.
Proof. split; simpl; constructor. Defined.

Lemma calculate_without_pairs_witness :
  exists self' res,
    Manybody.calculate (nb := Example.no_neighbours)
      (new Example.potential) Example.far_pair = Ok self' /\
    results_of self' = Some res /\
    energy res = 0 /\ free_energy res = 0 /\
    length (stress res) = 6%nat /\ Forall (fun s => s = 0) (stress res) /\
    length (forces res) = 2%nat.
Proof.
  apply (calculate_without_pairs (nb := Example.no_neighbours)
           Example.potential (new Example.potential) Example.far_pair 3).
  - apply is_manybody_new.
  - reflexivity.
  - exact far_pair_wf.
  - reflexivity.
Defined.

(** ** What [calculate] writes *)

(** A successful [calculate] stores the configuration in [self.atoms] and
    the four results in [self.results], and leaves every other attribute of
    the instance, the potential functions and the cutoff among them, as it
    was. *)
Theorem calculate_writes_atoms_and_results {nb : Neighbours} self atoms self' :
  Manybody.calculate self atoms = Ok self' ->
  self' !! "atoms" = Some (PyAtoms atoms) /\
  (exists res, self' !! "results" = Some (PyResults res) /\
     free_energy res = energy res /\
     length (stress res) = 6%nat) /\
  forall name, name <> "atoms" -> name <> "results" -> self' !! name = self !! name.
Proof.
  unfold Manybody.calculate. intros H. inv_bind H. injection H as <-.
  unfold Manybody.Calculator_calculate, setattr.
  split; [rewrite lookup_insert_ne by discriminate; apply lookup_insert_eq|].
  split.
  - eexists. split; [apply lookup_insert_eq|]. split; [reflexivity|].
    cbn [stress]. reflexivity.
  - intros name Ha Hr. rewrite !lookup_insert_ne by congruence. reflexivity.
Qed.

Lemma calculate_writes_atoms_and_results_witness :
  exists self',
    Manybody.calculate (nb := Example.trimer_neighbours)
      (new Example.potential) Example.trimer = Ok self' /\
    self' !! "atoms" = Some (PyAtoms Example.trimer) /\
    forall name, name <> "atoms" -> name <> "results" ->
      self' !! name = new Example.potential !! name.
Proof.
  assert (H : exists self',
    Manybody.calculate (nb := Example.trimer_neighbours)
      (new Example.potential) Example.trimer = Ok self') by (eexists; reflexivity).
  destruct H as [self' H]. exists self'. split; [exact H|].
  destruct (calculate_writes_atoms_and_results (nb := Example.trimer_neighbours) _ _ _ H)
    as (Ha & _ & Hf).
  split; [exact Ha | exact Hf].
Defined.

(** ** The cutoff *)

Lemma for_each_prefix {A S : Type} (I : list A -> S -> Prop) l s body :
  I [] s ->
  (forall pre a s, I pre s -> a ∈ l ->
     exists s', body s a = Ok s' /\ I (pre ++ [a]) s') ->
  exists s', Manybody.for_each l s body = Ok s' /\ I l s'.
Proof.
  intros H0 Hstep.
  assert (G : forall pre s, I pre s ->
    (forall pre' a s, I pre' s -> a ∈ l ->
       exists s', body s a = Ok s' /\ I (pre' ++ [a]) s') ->
    exists s', Manybody.for_each l s body = Ok s' /\ I (pre ++ l) s').
  { clear H0 Hstep s. induction l as [|a l IH]; intros pre s Hs Hstep; simpl.
    - exists s. rewrite app_nil_r. auto.
    - destruct (Hstep pre a s Hs) as (s1 & Hb & H1); [left|].
      rewrite Hb. cbn [bind].
      destruct (IH (pre ++ [a]) s1 H1) as (s' & Hf & H').
      + intros pre' b s2 H2 Hin. apply Hstep; [exact H2 | right; exact Hin].
      + exists s'. split; [exact Hf|]. rewrite <- app_assoc in H'. exact H'. }
  apply (G [] s H0 Hstep).
Qed.

Lemma for_each_Ok_all {A S : Type} (l : list A) (s : S) body s' :
  Manybody.for_each l s body = Ok s' ->
  forall a, a ∈ l -> exists s1 s2, body s1 a = Ok s2.
Proof.
  revert s; induction l as [|b l IH]; intros s Hf a Ha; [inversion Ha|].
  simpl in Hf. apply bind_Ok in Hf as (s1 & Hb & Hf).
  apply elem_of_cons in Ha as [->|Ha]; [eauto | eapply IH; eauto].
Qed.

Lemma for_each_errors {A S : Type} (E : exn -> Prop) (l : list A) (s : S) body :
  (forall s a e, body s a = Raise e -> E e) ->
  forall e, Manybody.for_each l s body = Raise e -> E e.
Proof.
  intros Hb. revert s; induction l as [|a l IH]; intros s e Hf; simpl in Hf; [discriminate|].
  destruct (body s a) as [s1|e1] eqn:H1; cbn [bind] in Hf.
  - eapply IH; exact Hf.
  - injection Hf as <-. eapply Hb; exact H1.
Qed.

(** The loops of [get_cutoff] on an instance built by the constructor. *)
Lemma get_cutoff_table_unfold P self atoms table :
  is_manybody P self -> P_cutoff P = CutoffTable table ->
  Manybody.get_cutoff self atoms =
    Manybody.for_each (remove_dups (numbers atoms)) 0 (fun cutoff i =>
      Manybody.for_each (remove_dups (numbers atoms)) cutoff (fun cutoff j =>
        let* c_p := of_option KeyError (pair_cutoff P table i j) in
        Ok (Rmax cutoff c_p))).
Proof.
  intros Hm Hc. unfold Manybody.get_cutoff.
  rewrite (getattr_cutoff_is P self Hm), Hc. cbn [bind].
  rewrite (attr_atom_type_is P self Hm), (attr_pair_type_is P self Hm).
  reflexivity.
Qed.

(** [get_cutoff] with a table of cutoffs: when the table has an entry for
    the pair type of every two elements of the configuration, the result is
    the largest of these entries, and zero when none is positive. *)
Theorem get_cutoff_table P self atoms table :
  is_manybody P self -> P_cutoff P = CutoffTable table ->
  (forall i j, i ∈ numbers atoms -> j ∈ numbers atoms ->
     is_Some (pair_cutoff P table i j)) ->
  exists c,
    Manybody.get_cutoff self atoms = Ok c /\ 0 <= c /\
    (forall i j v, i ∈ numbers atoms -> j ∈ numbers atoms ->
       pair_cutoff P table i j = Some v -> v <= c) /\
    (c = 0 \/ exists i j, i ∈ numbers atoms /\ j ∈ numbers atoms /\
                          pair_cutoff P table i j = Some c).
Proof.
  intros Hm Hc Hall. rewrite (get_cutoff_table_unfold P self atoms table Hm Hc).
  set (els := remove_dups (numbers atoms)).
  assert (Hels : forall i, i ∈ els <-> i ∈ numbers atoms)
    by (intros i; apply elem_of_remove_dups).
  destruct (for_each_prefix
    (fun pre c => 0 <= c /\
       (forall i j v, i ∈ pre -> j ∈ els -> pair_cutoff P table i j = Some v -> v <= c) /\
       (c = 0 \/ exists i j, i ∈ els /\ j ∈ els /\ pair_cutoff P table i j = Some c))
    els 0
    (fun cutoff i =>
      Manybody.for_each els cutoff (fun cutoff j =>
        let* c_p := of_option KeyError (pair_cutoff P table i j) in
        Ok (Rmax cutoff c_p)))) as (c & Hf & H0 & Hub & Hatt).
  - split; [lra|]. split; [|left; reflexivity].
    intros i j v Hi. inversion Hi.
  - intros pre i c0 (H0 & Hub & Hatt) Hi.
    destruct (for_each_prefix
      (fun pre' c => c0 <= c /\
         (forall j v, j ∈ pre' -> pair_cutoff P table i j = Some v -> v <= c) /\
         (c = c0 \/ exists j, j ∈ els /\ pair_cutoff P table i j = Some c))
      els c0
      (fun cutoff j =>
        let* c_p := of_option KeyError (pair_cutoff P table i j) in
        Ok (Rmax cutoff c_p))) as (c & Hf & Hge & Hub' & Hatt').
    + split; [lra|]. split; [|left; reflexivity]. intros j v Hj. inversion Hj.
    + intros pre' j c1 (Hge & Hub' & Hatt') Hj.
      destruct (Hall i j) as [v Hv]; [apply Hels, Hi | apply Hels, Hj |].
      rewrite Hv. cbn [of_option bind]. eexists. split; [reflexivity|].
      pose proof (Rmax_l c1 v) as Hl. pose proof (Rmax_r c1 v) as Hr.
      split; [lra|]. split.
      * intros j' v' Hj' Hv'. apply elem_of_app in Hj' as [Hj'|Hj'].
        -- specialize (Hub' j' v' Hj' Hv'). lra.
        -- apply list_elem_of_singleton in Hj'. subst j'.
           rewrite Hv in Hv'. injection Hv' as <-. exact Hr.
      * unfold Rmax. destruct (Rle_dec c1 v) as [Hle|Hgt].
        -- right. exists j. split; [exact Hj | exact Hv].
        -- exact Hatt'.
    + exists c. split; [exact Hf|]. split; [lra|]. split.
      * intros i' j v Hi' Hj Hv. apply elem_of_app in Hi' as [Hi'|Hi'].
        -- specialize (Hub i' j v Hi' Hj Hv). lra.
        -- apply list_elem_of_singleton in Hi'. subst i'. apply (Hub' j v Hj Hv).
      * destruct Hatt' as [->|(j & Hj & Hv)]; [exact Hatt|].
        right. exists i, j. auto.
  - exists c. split; [exact Hf|]. split; [exact H0|]. split.
    + intros i j v Hi Hj Hv. apply (Hub i j v); [apply Hels, Hi | apply Hels, Hj | exact Hv].
    + destruct Hatt as [->|(i & j & Hi & Hj & Hv)]; [left; reflexivity|].
      right. exists i, j. repeat split; [apply Hels, Hi | apply Hels, Hj | exact Hv].
Qed.

(** [get_cutoff] with a table of cutoffs that lacks the pair type of two
    elements of the configuration raises a key error. *)
Lemma get_cutoff_missing_entry P self atoms table i j :
  is_manybody P self -> P_cutoff P = CutoffTable table ->
  i ∈ numbers atoms -> j ∈ numbers atoms ->
  pair_cutoff P table i j = None ->
  Manybody.get_cutoff self atoms = Raise KeyError.
Proof.
  intros Hm Hc Hi Hj Hnone. rewrite (get_cutoff_table_unfold P self atoms table Hm Hc).
  match goal with |- ?m = _ => destruct m as [c|e] eqn:Hf end.
  - exfalso.
    destruct (for_each_Ok_all _ _ _ _ Hf i) as (s1 & s2 & Hin);
      [apply elem_of_remove_dups, Hi|].
    destruct (for_each_Ok_all _ _ _ _ Hin j) as (s3 & s4 & Hb);
      [apply elem_of_remove_dups, Hj|].
    rewrite Hnone in Hb. discriminate.
  - f_equal. revert Hf.
    apply (for_each_errors (fun e => e = KeyError)).
    intros s a e'. apply (for_each_errors (fun e => e = KeyError)).
    intros s' b e''. destruct (pair_cutoff P table a b); cbn [of_option bind];
      [discriminate | intros [= <-]; reflexivity].
Qed.

Lemma get_cutoff_table_witness :
  exists c,
    Manybody.get_cutoff (new Example.tabulated_potential) Example.trimer = Ok c /\
    0 <= c /\
    (forall i j v, i ∈ numbers Example.trimer -> j ∈ numbers Example.trimer ->
       pair_cutoff Example.tabulated_potential {[ 0%nat := 3 ]} i j = Some v -> v <= c) /\
    (c = 0 \/ exists i j, i ∈ numbers Example.trimer /\ j ∈ numbers Example.trimer /\
                pair_cutoff Example.tabulated_potential {[ 0%nat := 3 ]} i j = Some c).
Proof.
  apply (get_cutoff_table Example.tabulated_potential).
  - apply is_manybody_new.
  - reflexivity.
  - intros i j _ _. exists 3. reflexivity.
Defined.

(** ** Symmetries of the Born elastic constants *)

Lemma Forall_aadd_closed {T : Type} `{Additive T} (Q : T -> Prop) (a b : list T) :
  (forall x y, Q x -> Q y -> Q (add x y)) ->
  Forall Q a -> Forall Q b -> Forall Q (aadd a b).
Proof.
  intros Hadd Ha. revert b. induction Ha as [|x a Hx _ IH]; intros b Hb; [constructor|].
  destruct Hb as [|y b Hy Hb]; [constructor|].
  change (aadd (x :: a) (y :: b)) with (add x y :: aadd a b).
  constructor; [apply Hadd; assumption | apply IH; assumption].
Qed.

Lemma Forall_ascal_closed {T : Type} `{Additive T} (Q : T -> Prop) (r : list R) (l : list T) :
  (forall c x, Q x -> Q (scal c x)) ->
  Forall Q l -> Forall Q (ascal r l).
Proof.
  intros Hscal Hl. revert r. induction Hl as [|x l Hx _ IH]; intros [|c r];
    try constructor.
  - apply Hscal, Hx.
  - apply IH.
Qed.

Lemma asum_closed {T : Type} `{Additive T} (Q : T -> Prop) (l : list T) :
  Q zero -> (forall x y, Q x -> Q y -> Q (add x y)) ->
  Forall Q l -> Q (asum l).
Proof.
  intros H0 Hadd Hl. induction Hl as [|x l Hx _ IH]; [exact H0|].
  change (asum (x :: l)) with (add x (asum l)). apply Hadd; assumption.
Qed.

Lemma scatter_add_closed {T : Type} `{Additive T} (Q : T -> Prop) acc x (w : list T) :
  (forall u v, Q u -> Q v -> Q (add u v)) ->
  Forall Q acc -> Forall Q w -> Forall Q (scatter_add acc x w).
Proof.
  intros Hadd. revert acc w. induction x as [|i x IH]; intros acc [|wi w] Hacc Hw;
    simpl; try assumption.
  inversion Hw as [|? ? Hwi Hw']; subst.
  apply IH; [|exact Hw'].
  apply Forall_alter; [exact Hacc|]. intros u _ Hu. apply Hadd; assumption.
Qed.

Lemma voigt_symmetric_zero : voigt_symmetric zero.
Proof. intros a b c d. repeat split; reflexivity. Qed.

Lemma voigt_symmetric_add (A B : ten4) :
  voigt_symmetric A -> voigt_symmetric B -> voigt_symmetric (add A B).
Proof.
  intros HA HB a b c d. destruct (HA a b c d) as (A1 & A2 & A3).
  destruct (HB a b c d) as (B1 & B2 & B3).
  cbn. rewrite <- A1, <- A2, <- A3, <- B1, <- B2, <- B3. repeat split; reflexivity.
Qed.

Lemma voigt_symmetric_scal r (A : ten4) :
  voigt_symmetric A -> voigt_symmetric (scal r A).
Proof.
  intros HA a b c d. destruct (HA a b c d) as (A1 & A2 & A3).
  cbn. rewrite <- A1, <- A2, <- A3. repeat split; reflexivity.
Qed.

Lemma symmetric_matrix_add (A B : mat3) :
  symmetric_matrix A -> symmetric_matrix B -> symmetric_matrix (add A B).
Proof. intros HA HB a b. cbn. rewrite (HA a b), (HB a b). reflexivity. Qed.

Lemma symmetric_matrix_scal r (A : mat3) :
  symmetric_matrix A -> symmetric_matrix (scal r A).
Proof. intros HA a b. cbn. rewrite (HA a b). reflexivity. Qed.

Lemma o4_same_symmetric x : Forall voigt_symmetric (_o4 x x x x).
Proof.
  induction x as [|u x IH]; [constructor|].
  unfold _o4 in *. simpl. constructor; [|exact IH].
  intros a b c d. unfold outer4. simpl. repeat split; ring.
Qed.

Lemma o4_pair_symmetric x y :
  Forall voigt_symmetric (aadd (_o4 x x y y) (_o4 y y x x)).
Proof.
  revert y; induction x as [|u x IH]; intros [|v y]; try constructor.
  - intros a b c d. unfold outer4. cbn. repeat split; ring.
  - apply IH.
Qed.

Lemma o2_same_symmetric x : Forall symmetric_matrix (_o x x).
Proof.
  induction x as [|u x IH]; [constructor|].
  unfold _o in *. simpl. constructor; [|exact IH].
  intros a b. unfold outer2. ring.
Qed.

Lemma voigt_symmetric_sum4 (T2 T3 T4 T5 : ten4) v :
  voigt_symmetric T2 -> voigt_symmetric T3 -> voigt_symmetric T4 -> voigt_symmetric T5 ->
  voigt_symmetric
    (fun a b c d => 2 * (T2 a b c d + T3 a b c d + T4 a b c d + T5 a b c d) / v).
Proof.
  intros H2 H3 H4 H5 a b c d.
  destruct (H2 a b c d) as (A1 & A2 & A3). destruct (H3 a b c d) as (B1 & B2 & B3).
  destruct (H4 a b c d) as (C1 & C2 & C3). destruct (H5 a b c d) as (D1 & D2 & D3).
  rewrite <- A1, <- A2, <- A3, <- B1, <- B2, <- B3, <- C1, <- C2, <- C3, <- D1, <- D2, <- D3.
  repeat split; reflexivity.
Qed.

Lemma Forall_zip_with_snd_closed {A B C : Type} (g : A -> B -> C)
    (Q : B -> Prop) (Q' : C -> Prop) (a : list A) (b : list B) :
  (forall x y, Q y -> Q' (g x y)) -> Forall Q b -> Forall Q' (zip_with g a b).
Proof.
  intros Hg Hb. revert a. induction Hb as [|y b Hy _ IH]; intros [|x a];
    try constructor.
  - apply Hg, Hy.
  - apply IH.
Qed.

(** Pieces of the sum that are symmetric by their form. *)
Ltac symmetric_terms :=
  repeat first
    [ apply o4_same_symmetric
    | apply o4_pair_symmetric
    | apply o2_same_symmetric
    | apply voigt_symmetric_add
    | apply (asum_closed voigt_symmetric);
        [ apply voigt_symmetric_zero | apply voigt_symmetric_add | ]
    | apply (Forall_ascal_closed voigt_symmetric); [ apply voigt_symmetric_scal | ]
    | apply (Forall_aadd_closed voigt_symmetric); [ apply voigt_symmetric_add | | ]
    | apply (Forall_ascal_closed symmetric_matrix); [ apply symmetric_matrix_scal | ]
    | apply (Forall_aadd_closed symmetric_matrix); [ apply symmetric_matrix_add | | ] ].

Section BornProperties.
Context {nb : Neighbours}.

Lemma born_symmetries self atoms C :
  Manybody.get_born_elastic_constants self atoms = Ok C ->
  voigt_symmetric C.
Proof.
  unfold Manybody.get_born_elastic_constants. intros H.
  inv_bind H. injection H as <-.
  assert (Htmp : Forall symmetric_matrix v2).
  { revert E2. unfold mabincount. repeat case_decide; try discriminate.
    intros [= <-]. apply scatter_add_closed.
    - apply symmetric_matrix_add.
    - apply Forall_forall. intros m Hm. apply elem_of_replicate in Hm as [-> _].
      intros a b. reflexivity.
    - symmetric_terms. }
  apply voigt_symmetric_sum4; symmetric_terms.
  eapply Forall_zip_with_snd_closed; [|exact Htmp].
  intros d22 tmp Hs a b c d. rewrite (Hs b a), (Hs d c). repeat split; ring.
Qed.

(** The tensor returned by [get_born_elastic_constants] has the symmetries
    of an elastic tensor: it is unchanged when the first two indices are
    exchanged, when the last two are exchanged, and when the first pair is
    exchanged with the second. *)
Theorem born_elastic_constants_symmetric self atoms C :
  Manybody.get_born_elastic_constants self atoms = Ok C ->
  forall a b c d,
    C a b c d = C b a c d /\ C a b c d = C a b d c /\ C a b c d = C c d a b.
Proof. intros HC. exact (born_symmetries self atoms C HC). Qed.

End BornProperties.

Lemma born_elastic_constants_symmetric_witness :
  exists C,
    Manybody.get_born_elastic_constants (nb := Example.trimer_neighbours)
      (new Example.potential) Example.trimer = Ok C /\
    voigt_symmetric C.
Proof.
  assert (H : exists C,
    Manybody.get_born_elastic_constants (nb := Example.trimer_neighbours)
      (new Example.potential) Example.trimer = Ok C) by (eexists; reflexivity).
  destruct H as [C HC]. exists C. split; [exact HC|].
  exact (born_elastic_constants_symmetric (nb := Example.trimer_neighbours) _ _ C HC).
Defined.

(** ** Stress contribution and Birch coefficients *)

Section BirchProperties.
Context {nb : Neighbours} {st : Manybody.StressTensor}.

Lemma stress_symmetries self atoms :
  symmetric_matrix (Manybody.Voigt_6_to_full_3x3_stress (Manybody.get_stress atoms)) ->
  forall a b c d,
    let C := Manybody.get_stress_contribution_to_elastic_constants self atoms in
    let stress_ab := Manybody.Voigt_6_to_full_3x3_stress (Manybody.get_stress atoms) in
    C a b c d = C b a c d /\ C a b c d = C a b d c /\
    C a b c d - C c d a b = stress_ab c d * eye a b - stress_ab a b * eye c d.
Proof.
  intros Hs a b c d. cbv zeta.
  unfold Manybody.get_stress_contribution_to_elastic_constants.
  set (s := Manybody.Voigt_6_to_full_3x3_stress (Manybody.get_stress atoms)) in *.
  pose proof (Hs cx cy) as Hxy. pose proof (Hs cx cz) as Hxz. pose proof (Hs cy cz) as Hyz.
  cbn [add fun_additive R_additive]. unfold eye.
  destruct a, b, c, d; simpl; repeat split; lra.
Qed.

(** The stress contribution to the elastic constants, for a symmetric
    stress tensor: it has both minor symmetries, and its defect of major
    symmetry is the defect of the term [-stress_ab delta_cd]. *)
Theorem stress_contribution_symmetries self atoms :
  symmetric_matrix (Manybody.Voigt_6_to_full_3x3_stress (Manybody.get_stress atoms)) ->
  forall a b c d,
    let C := Manybody.get_stress_contribution_to_elastic_constants self atoms in
    let stress_ab := Manybody.Voigt_6_to_full_3x3_stress (Manybody.get_stress atoms) in
    C a b c d = C b a c d /\ C a b c d = C a b d c /\
    C a b c d - C c d a b = stress_ab c d * eye a b - stress_ab a b * eye c d.
Proof. exact (stress_symmetries self atoms). Qed.

(** Without stress there is no stress contribution. *)
Lemma stress_contribution_zero self atoms :
  (forall a b, Manybody.Voigt_6_to_full_3x3_stress (Manybody.get_stress atoms) a b = 0) ->
  forall a b c d,
    Manybody.get_stress_contribution_to_elastic_constants self atoms a b c d = 0.
Proof.
  intros H0 a b c d. unfold Manybody.get_stress_contribution_to_elastic_constants.
  cbn [add fun_additive R_additive]. rewrite !H0. lra.
Qed.

(** The Birch coefficients of the calculator attached to the configuration
    are the Born constants plus the stress contribution; for a symmetric
    stress tensor they keep both minor symmetries, and they lose the major
    symmetry by the stress term alone. *)
Theorem birch_coefficients_symmetries self self' atoms B :
  symmetric_matrix (Manybody.Voigt_6_to_full_3x3_stress (Manybody.get_stress atoms)) ->
  Manybody.get_birch_coefficients self (Manybody.attached_elastic self') atoms = Ok B ->
  exists bornC,
    Manybody.get_born_elastic_constants self' atoms = Ok bornC /\
    B = add bornC (Manybody.get_stress_contribution_to_elastic_constants self' atoms) /\
    forall a b c d,
      let stress_ab := Manybody.Voigt_6_to_full_3x3_stress (Manybody.get_stress atoms) in
      B a b c d = B b a c d /\ B a b c d = B a b d c /\
      B a b c d - B c d a b = stress_ab c d * eye a b - stress_ab a b * eye c d.
Proof.
  intros Hs HB. unfold Manybody.get_birch_coefficients in HB.
  inv_bind HB. cbn [Manybody.attached_elastic
                    Manybody.calc_get_born_elastic_constants
                    Manybody.calc_get_stress_contribution_to_elastic_constants] in *.
  injection E1 as <-. injection HB as <-.
  exists v0. split; [exact E0|]. split; [reflexivity|].
  intros a b c d. cbv zeta.
  destruct (born_symmetries _ _ _ E0 a b c d) as (B1 & B2 & B3).
  destruct (stress_symmetries self' atoms Hs a b c d) as (S1 & S2 & S3).
  cbv zeta in S1, S2, S3. cbn [add fun_additive R_additive].
  repeat split; lra.
Qed.

End BirchProperties.

Lemma stressed_symmetric :
  symmetric_matrix
    (Manybody.Voigt_6_to_full_3x3_stress (StressTensor := Example.stressed)
       (Manybody.get_stress (StressTensor := Example.stressed) Example.trimer)).
Proof. intros a b. destruct a, b; reflexivity. Defined.

Lemma stress_contribution_symmetries_witness :
  symmetric_matrix
    (Manybody.Voigt_6_to_full_3x3_stress (StressTensor := Example.stressed)
       (Manybody.get_stress (StressTensor := Example.stressed) Example.trimer)) /\
  forall a b c d,
    let C := Manybody.get_stress_contribution_to_elastic_constants
               (st := Example.stressed) (new Example.potential) Example.trimer in
    C a b c d = C b a c d /\ C a b c d = C a b d c /\
    C a b c d - C c d a b
    = Example.voigt_to_full [1; 2; 3; 4; 5; 6] c d * eye a b
      - Example.voigt_to_full [1; 2; 3; 4; 5; 6] a b * eye c d.
Proof.
  split; [exact stressed_symmetric|].
  exact (stress_contribution_symmetries (st := Example.stressed)
           (new Example.potential) Example.trimer stressed_symmetric).
Defined.

Lemma birch_coefficients_symmetries_witness :
  exists B bornC,
    Manybody.get_birch_coefficients (new Example.potential)
      (Manybody.attached_elastic (nb := Example.trimer_neighbours) (st := Example.stressed)
         (new Example.potential)) Example.trimer = Ok B /\
    Manybody.get_born_elastic_constants (nb := Example.trimer_neighbours)
      (new Example.potential) Example.trimer = Ok bornC /\
    forall a b c d,
      B a b c d = B b a c d /\ B a b c d = B a b d c /\
      B a b c d - B c d a b
      = Example.voigt_to_full [1; 2; 3; 4; 5; 6] c d * eye a b
        - Example.voigt_to_full [1; 2; 3; 4; 5; 6] a b * eye c d.
Proof.
  assert (H : exists B,
    Manybody.get_birch_coefficients (new Example.potential)
      (Manybody.attached_elastic (nb := Example.trimer_neighbours) (st := Example.stressed)
         (new Example.potential)) Example.trimer = Ok B) by (eexists; reflexivity).
  destruct H as [B HB].
  destruct (birch_coefficients_symmetries (nb := Example.trimer_neighbours)
              (st := Example.stressed) _ _ _ B stressed_symmetric HB)
    as (bornC & Hborn & _ & Hsym).
  exists B, bornC. split; [exact HB|]. split; [exact Hborn|]. exact Hsym.
Defined.

(** ** Assembly of the Hessian from the value of Term 1 *)

Lemma set_component_length H x y v :
  length v = length H -> length (Manybody.set_component H x y v) = length H.
Proof. intros Hl. unfold Manybody.set_component. rewrite length_zip_with, Hl. apply Nat.min_id. Qed.

Lemma set_component_lookup H x y v n M :
  Manybody.set_component H x y v !! n = Some M ->
  exists m vn, H !! n = Some m /\ v !! n = Some vn /\ M x y = vn /\
    forall a b, (a, b) <> (x, y) -> M a b = m a b.
Proof.
  unfold Manybody.set_component. intros HM.
  apply lookup_zip_with_Some in HM as (m & vn & -> & Hm & Hv).
  exists m, vn. repeat split; try assumption.
  - rewrite decide_True by auto. reflexivity.
  - intros a b Hne. rewrite decide_False; [reflexivity|].
    intros [-> ->]. apply Hne. reflexivity.
Qed.

Lemma assign_broadcast_same {A : Type} n (v : list A) :
  length v = n -> assign_broadcast n v = Ok v.
Proof. intros Hl. unfold assign_broadcast. rewrite decide_True by exact Hl. reflexivity. Qed.

Lemma bincount_value x w n :
  length x = length w ->
  bincount x w n = Ok (scatter_add (replicate (bincount_length x n) 0) x w).
Proof. intros Hl. unfold bincount. rewrite decide_True by exact Hl. reflexivity. Qed.

(** One assignment [H_acc[:, x, y] = -np.bincount(i_p, weights=H_pcc[:, x, y])]. *)
Lemma hessian_diagonal_step S N i_p H H_acc x y b v :
  length H_acc = N /\ minus_owner_sum S i_p H H_acc ->
  bincount_length i_p 0 = N ->
  bincount i_p (map (fun m : mat3 => m x y) H) 0 = Ok b ->
  assign_broadcast N (map Ropp b) = Ok v ->
  length (Manybody.set_component H_acc x y v) = N /\
  minus_owner_sum ((x, y) :: S) i_p H (Manybody.set_component H_acc x y v).
Proof.
  intros [Hl Hinv] HN Hb Hv.
  destruct (bincount_Ok_length _ _ _ _ Hb) as [Hlb _]. rewrite HN in Hlb.
  rewrite assign_broadcast_same in Hv by (rewrite length_map; exact Hlb).
  injection Hv as <-.
  split; [rewrite set_component_length; rewrite ?length_map; congruence|].
  intros n M HM x' y' Hin.
  apply set_component_lookup in HM as (m & vn & Hm & Hvn & Hxy & Hother).
  destruct (decide ((x', y') = (x, y))) as [Heq|Hne].
  - injection Heq as -> ->. rewrite Hxy.
    rewrite lookup_map in Hvn.
    destruct (b !! n) as [bn|] eqn:Hbn; [|discriminate]. injection Hvn as <-.
    rewrite (bincount_lookup _ _ _ _ n Hb) in Hbn
      by (eapply lookup_lt_Some; exact Hbn).
    injection Hbn as <-. reflexivity.
  - rewrite (Hother _ _ Hne). apply (Hinv n m Hm).
    destruct Hin as [Hin|Hin]; [congruence | exact Hin].
Qed.

(** Decompose a successful run of nested loops into its steps. *)
Ltac inv_binds :=
  repeat match goal with
  | H : bind _ _ = Ok _ |- _ =>
      let a := fresh "s" in
      let E := fresh "E" in
      apply bind_Ok in H; destruct H as (a & E & H)
  | H : Ok _ = Ok _ |- _ => injection H as H
  end.

(** One assignment of the loop, on the goal and on the invariant. *)
Ltac diag_step Hstep HN x y :=
  match goal with
  | J : length ?A = _ /\ minus_owner_sum ?S _ _ ?A |- _ =>
      let b := fresh "b" in
      let v := fresh "v" in
      let Hb := fresh "Hb" in
      let Hv := fresh "Hv" in
      let J' := fresh "J" in
      destruct (Hstep A x y (proj1 J)) as (b & v & Hb & Hv & _);
      pose proof (hessian_diagonal_step S _ _ _ A x y b v J HN Hb Hv) as J';
      clear J; rewrite Hb; cbn [bind]; rewrite Hv; cbn [bind]; clear Hb Hv
  end.

(** When the last atom owns a pair, the loop of lines 291 to 294 returns,
    and every component of the block of atom [n] is minus the sum of that
    component over the blocks of the pairs owned by [n]. *)
Lemma hessian_diagonal_spec N i_p H :
  length i_p = length H ->
  bincount_length i_p 0 = N ->
  exists H_acc,
    Manybody.hessian_diagonal N i_p H = Ok H_acc /\
    length H_acc = N /\
    forall n M, H_acc !! n = Some M -> forall x y,
      M x y = - gather i_p (map (fun m : mat3 => m x y) H) n.
Proof.
  intros Hl HN.
  assert (Hstep : forall H_acc x y, length H_acc = N ->
            exists b v,
              bincount i_p (map (fun m : mat3 => m x y) H) 0 = Ok b /\
              assign_broadcast N (map Ropp b) = Ok v /\
              length (Manybody.set_component H_acc x y v) = N).
  { intros H_acc x y Hacc.
    destruct (bincount_total i_p (map (fun m : mat3 => m x y) H) 0%nat) as [b Hb];
      [rewrite length_map; exact Hl|].
    destruct (bincount_Ok_length _ _ _ _ Hb) as [Hlb _]. rewrite HN in Hlb.
    exists b, (map Ropp b). split; [exact Hb|].
    split; [apply assign_broadcast_same; rewrite length_map; exact Hlb|].
    rewrite set_component_length; rewrite ?length_map; congruence. }
  unfold Manybody.hessian_diagonal, carts. cbn [Manybody.for_each].
  assert (H0 : length (replicate N (zero : mat3)) = N) by apply length_replicate.
  assert (I0 : minus_owner_sum [] i_p H (replicate N (zero : mat3)))
    by (intros n M _ x y []).
  pose proof (conj H0 I0) as J. clear H0 I0.
  diag_step Hstep HN cx cx. diag_step Hstep HN cx cy. diag_step Hstep HN cx cz.
  diag_step Hstep HN cy cx. diag_step Hstep HN cy cy. diag_step Hstep HN cy cz.
  diag_step Hstep HN cz cx. diag_step Hstep HN cz cy. diag_step Hstep HN cz cz.
  match goal with J' : _ /\ minus_owner_sum _ _ _ _ |- _ => destruct J' as [Hlen Hinv] end.
  eexists. split; [reflexivity|]. split; [exact Hlen|].
  intros n M HM x y. apply (Hinv n M HM).
  destruct x, y; simpl; tauto.
Qed.

Lemma assign_broadcast_mismatch {A : Type} n (v : list A) :
  length v <> n -> length v <> 1%nat -> assign_broadcast n v = Raise ValueError.
Proof.
  intros Hn H1. unfold assign_broadcast. rewrite decide_False by exact Hn.
  destruct v as [|x [|y v]]; try reflexivity. exfalso. apply H1. reflexivity.
Qed.

(** [np.bincount(i_p, ...)] of line 294 has no [minlength]: when the atoms of
    highest index own no pair, its result is shorter than [nb_atoms] and the
    assignment into [H_acc[:, x, y]] raises. *)
Lemma hessian_diagonal_short N i_p H :
  length i_p = length H ->
  bincount_length i_p 0 <> N -> bincount_length i_p 0 <> 1%nat ->
  Manybody.hessian_diagonal N i_p H = Raise ValueError.
Proof.
  intros Hl HN H1. unfold Manybody.hessian_diagonal, carts. cbn [Manybody.for_each].
  rewrite (bincount_value i_p (map (fun m : mat3 => m cx cx) H))
    by (rewrite length_map; exact Hl).
  cbn [bind].
  rewrite assign_broadcast_mismatch;
    rewrite ?length_map, ?scatter_add_length, ?length_replicate; try assumption.
  reflexivity.
Qed.

(** The symmetrisation of line 287: with one reversed pair per pair, every
    block receives the transpose of the block of its reversed pair. *)
Lemma hessian_symmetrize tr_p H :
  length tr_p = length H -> Forall (fun q => (q < length H)%nat) tr_p ->
  exists Ht,
    take (map transpose H) tr_p = Ok Ht /\
    assign_broadcast (length H) Ht = Ok Ht /\
    symmetrized tr_p H (aadd H Ht).
Proof.
  intros Hl Hb.
  destruct (take_total (map transpose H) tr_p) as [Ht HHt];
    [rewrite length_map; exact Hb|].
  pose proof (take_length _ _ _ HHt) as HlHt.
  exists Ht. split; [exact HHt|].
  split; [apply assign_broadcast_same; congruence|].
  split; [rewrite aadd_length; congruence|].
  intros p q m mq Hp Hm Hq.
  destruct (take_lookup _ _ _ _ _ HHt Hp) as (x & Hx & Hxq).
  rewrite lookup_map, Hq in Hxq. injection Hxq as <-.
  unfold aadd. rewrite lookup_zip_with, Hm. simpl. rewrite Hx. reflexivity.
Qed.

(** ** Block rows of the assembled matrix *)

Lemma asum_map_ext {A : Type} (g h : A -> R) l :
  (forall b, g b = h b) -> asum (map g l) = asum (map h l).
Proof. intros Hgh. f_equal. apply map_ext. exact Hgh. Qed.

Lemma asum_map_plus {A : Type} (g h : A -> R) l :
  asum (map (fun b => g b + h b) l) = asum (map g l) + asum (map h l).
Proof.
  induction l as [|b l IH]; simpl map; rewrite ?asum_nil, ?asum_cons; [lra|].
  rewrite IH. lra.
Qed.

(** A weight deposited in column [i] is found once along a row. *)
Lemma asum_indicator i d s n :
  asum (map (fun b => if decide (i = b) then d else 0) (seq s n))
  = if decide (s <= i < s + n)%nat then d else 0.
Proof.
  revert s; induction n as [|n IH]; intros s; simpl seq; simpl map.
  - rewrite asum_nil, decide_False by lia. reflexivity.
  - rewrite asum_cons, IH.
    destruct (decide (i = s)); repeat case_decide; try lia; lra.
Qed.

Lemma filter_block_cons b i (d : mat3) idx data x y :
  asum (map snd (filter (fun kv : nat * mat3 => kv.1 = b) (zip (i :: idx) (d :: data)))) x y
  = (if decide (i = b) then d x y else 0)
    + asum (map snd (filter (fun kv : nat * mat3 => kv.1 = b) (zip idx data))) x y.
Proof.
  simpl zip. rewrite filter_cons. simpl.
  destruct (decide (i = b)); [|lra].
  simpl map.
  match goal with |- asum (d :: ?l) x y = _ =>
    change (asum (d :: l) x y) with (d x y + asum l x y) end.
  reflexivity.
Qed.

(** The blocks stored in one block row, summed over the block columns. *)
Lemma filter_column_sum (idx : list nat) (data : list mat3) N x y :
  Forall (fun j => (j < N)%nat) idx -> length idx = length data ->
  asum (map (fun b =>
               asum (map snd (filter (fun kv : nat * mat3 => kv.1 = b) (zip idx data))) x y)
          (seq 0 N))
  = asum (map (fun m : mat3 => m x y) data).
Proof.
  intros Hb. revert data. induction Hb as [|i idx Hi _ IH]; intros [|d data] Hl;
    simpl in Hl; try discriminate.
  - change (map (fun m : mat3 => m x y) []) with (@nil R). rewrite asum_nil.
    rewrite (asum_map_ext _ (fun _ => 0)) by reflexivity.
    generalize (seq 0 N). intros l. induction l as [|b l IHl]; simpl map;
      rewrite ?asum_nil, ?asum_cons; lra.
  - rewrite (asum_map_ext _ (fun b =>
               (if decide (i = b) then d x y else 0)
               + asum (map snd (filter (fun kv : nat * mat3 => kv.1 = b) (zip idx data))) x y))
      by (intros b; apply filter_block_cons).
    rewrite asum_map_plus, asum_indicator, decide_True by lia.
    rewrite IH by (injection Hl as Hl; exact Hl).
    simpl map. rewrite asum_cons. reflexivity.
Qed.

(** When the keys equal to [a] are those at the positions [lo .. hi - 1],
    the accumulation by key is the sum of the slice. *)
Lemma gather_range x w a lo hi :
  length x = length w -> (lo <= hi)%nat ->
  (forall k i, x !! k = Some i -> (i = a <-> (lo <= k < hi)%nat)) ->
  gather x w a = asum (slice w lo hi).
Proof.
  revert w lo hi. induction x as [|i x IH]; intros [|wi w] lo hi Hl Hle Hk;
    simpl in Hl; try discriminate.
  - unfold slice. rewrite drop_nil, take_nil. reflexivity.
  - rewrite gather_cons. pose proof (Hk 0%nat i eq_refl) as H0.
    assert (Hk' : forall lo' hi', (forall k, (lo <= S k < hi)%nat <-> (lo' <= k < hi')%nat) ->
              forall k i', x !! k = Some i' -> (i' = a <-> (lo' <= k < hi')%nat)).
    { intros lo' hi' Hs k i' Hi'. rewrite <- Hs. apply (Hk (S k) i'). exact Hi'. }
    injection Hl as Hl.
    destruct lo as [|l]; [destruct hi as [|h]|destruct hi as [|h]; [lia|]].
    + rewrite decide_False by (intros ->; lia).
      rewrite (IH w 0%nat 0%nat Hl (le_n 0)) by (apply Hk'; intros; lia).
      unfold slice. rewrite ?Nat.sub_0_r, ?drop_0. simpl. rewrite ?take_0, ?asum_nil. lra.
    + rewrite decide_True by (apply H0; lia).
      rewrite (IH w 0%nat h Hl) by (first [lia | apply Hk'; intros; lia]).
      unfold slice. rewrite ?Nat.sub_0_r, ?drop_0. simpl. rewrite asum_cons. reflexivity.
    + rewrite decide_False by (intros ->; lia).
      rewrite (IH w l h Hl) by (first [lia | apply Hk'; intros; lia]).
      unfold slice. simpl. lra.
Qed.

Lemma gather_scal x w a r : gather x (map (Rmult r) w) a = r * gather x w a.
Proof.
  revert w; induction x as [|i x IH]; intros [|wi w]; simpl map;
    rewrite ?gather_nil_l, ?gather_nil_r, ?gather_cons; try lra.
  rewrite IH. destruct (decide (i = a)); lra.
Qed.

Lemma slice_one {A : Type} (l : list A) a v :
  l !! a = Some v -> slice l a (S a) = [v].
Proof.
  intros Hv. unfold slice. replace (S a - a)%nat with 1%nat by lia.
  rewrite (drop_S _ _ _ Hv). reflexivity.
Qed.

Lemma slice_map {A B : Type} (g : A -> B) l lo hi :
  slice (map g l) lo hi = map g (slice l lo hi).
Proof. unfold slice. rewrite List.skipn_map, List.firstn_map. reflexivity. Qed.

Lemma slice_length {A B : Type} (l : list A) (k : list B) lo hi :
  length l = length k -> length (slice l lo hi) = length (slice k lo hi).
Proof. intros Hl. unfold slice. rewrite !length_take, !length_drop, Hl. reflexivity. Qed.

Lemma slice_Forall {A : Type} (Q : A -> Prop) l lo hi :
  Forall Q l -> Forall Q (slice l lo hi).
Proof. intros Hl. unfold slice. apply Forall_take, Forall_drop, Hl. Qed.

(** Block rows of the sum of the off-diagonal and the diagonal matrix of
    lines 304 to 307 add up to zero. *)
Lemma hessian_row_sums N i_p j_p first_n Hs H_acc shape a :
  length i_p = length Hs -> length j_p = length Hs ->
  Forall (fun j => (j < N)%nat) j_p ->
  owner_ranges N first_n i_p ->
  length H_acc = N ->
  (forall n M, H_acc !! n = Some M -> forall x y,
     M x y = - gather i_p (map (fun m : mat3 => m x y) Hs) n) ->
  (a < N)%nat ->
  forall x y,
    block_row_sum
      (SparseAdd
         (Bsr {| bsr_data := adiv Hs 2; bsr_indices := j_p;
                 bsr_indptr := first_n; bsr_shape := shape |})
         (Bsr {| bsr_data := adiv H_acc 2; bsr_indices := arange N;
                 bsr_indptr := arange (N + 1); bsr_shape := shape |})) N a x y = 0.
Proof.
  intros Hli Hlj Hj [Hlf Hr] Hlacc Hacc Ha x y.
  destruct (lookup_lt_is_Some_2 first_n a) as [lo Hlo]; [lia|].
  destruct (lookup_lt_is_Some_2 first_n (S a)) as [hi Hhi]; [lia|].
  destruct (Hr a lo hi Hlo Hhi) as [Hle Hown].
  destruct (lookup_lt_is_Some_2 H_acc a) as [M HM]; [lia|].
  unfold block_row_sum. rewrite asum_mat_apply, map_map. cbn [block].
  match goal with |- asum (map (fun b => add (bsr_block ?A a b) (bsr_block ?B a b) x y) _) = _ =>
    rewrite (asum_map_ext _ (fun b => bsr_block A a b x y + bsr_block B a b x y))
      by reflexivity
  end.
  rewrite asum_map_plus.
  unfold bsr_block at 1. cbn [bsr_indptr bsr_indices bsr_data]. rewrite Hlo, Hhi.
  unfold arange.
  rewrite filter_column_sum
    by (first [ apply slice_Forall; exact Hj
              | apply slice_length; unfold adiv; rewrite length_map; congruence ]).
  unfold bsr_block. cbn [bsr_indptr bsr_indices bsr_data].
  rewrite !lookup_seq_lt by lia. cbn [Nat.add].
  rewrite (slice_one (seq 0 N) a a) by (rewrite lookup_seq_lt by lia; reflexivity).
  rewrite (slice_one (adiv H_acc 2) a (scal (/ 2) M))
    by (unfold adiv; rewrite lookup_map, HM; reflexivity).
  rewrite (filter_column_sum [a] [scal (/ 2) M] N x y)
    by (first [ repeat constructor; exact Ha | reflexivity ]).
  rewrite <- slice_map.
  assert (Hmap : map (fun m : mat3 => m x y) (adiv Hs 2)
                 = map (Rmult (/ 2)) (map (fun m : mat3 => m x y) Hs)).
  { unfold adiv. rewrite !map_map. apply map_ext. intros m. reflexivity. }
  rewrite Hmap.
  rewrite <- (gather_range i_p _ a lo hi)
    by (first [ rewrite !length_map; exact Hli | exact Hle | exact Hown ]).
  rewrite gather_scal. simpl map. rewrite asum_cons, asum_nil.
  change (scal (/ 2) M x y) with (/ 2 * M x y).
  rewrite (Hacc a M HM x y). lra.
Qed.

Lemma adiv_component (Hs : list mat3) x y :
  map (fun m : mat3 => m x y) (adiv Hs 2)
  = map (Rmult (/ 2)) (map (fun m : mat3 => m x y) Hs).
Proof. unfold adiv. rewrite !map_map. apply map_ext. intros m. reflexivity. Qed.

(** Run the symmetrisation at the head of [hessian_assemble]. *)
Ltac assemble_head f H Htr Hb Ht Hsym :=
  let HHt := fresh "HHt" in
  let Hbc := fresh "Hbc" in
  destruct (hessian_symmetrize (Manybody.h_tr_p f) H Htr Hb) as (Ht & HHt & Hbc & Hsym);
  unfold Manybody.hessian_assemble;
  rewrite HHt; cbn [bind]; rewrite Hbc; cbn [bind].

(** The sparse Hessian of lines 287 to 307, for any value [H] of Term 1:
    when the atom of highest index owns a pair and the index pointer that
    [first_neighbours] has returned delimits the pairs of every atom and is
    one that [bsr_matrix] accepts, the call returns the sum of the matrix of
    the symmetrized, halved pair blocks and a block-diagonal matrix whose
    block of atom [n] is minus the sum of the stored pair blocks owned by
    [n]; the arguments of both matrices are well formed. *)
Theorem hessian_sparse_diagonal f atoms H :
  length (Manybody.h_tr_p f) = length H ->
  Forall (fun q => (q < length H)%nat) (Manybody.h_tr_p f) ->
  length (Manybody.h_i_p f) = length H ->
  length (Manybody.h_j_p f) = length H ->
  bincount_length (Manybody.h_i_p f) 0 = Manybody.h_nb_atoms f ->
  owner_ranges (Manybody.h_nb_atoms f) (Manybody.h_first_n f) (Manybody.h_i_p f) ->
  Manybody.h_first_n f !! 0%nat = Some 0%nat ->
  Manybody.h_first_n f !! Manybody.h_nb_atoms f = Some (length H) ->
  exists Hs off diag,
    Manybody.hessian_assemble f atoms H "sparse" false
      = Ok (HessianSparse (SparseAdd (Bsr off) (Bsr diag))) /\
    symmetrized (Manybody.h_tr_p f) H Hs /\
    bsr_data off = adiv Hs 2 /\
    bsr_indices off = Manybody.h_j_p f /\
    bsr_indptr off = Manybody.h_first_n f /\
    bsr_format (Manybody.h_nb_atoms f) (bsr_data off) (bsr_indices off) (bsr_indptr off) /\
    bsr_indices diag = arange (Manybody.h_nb_atoms f) /\
    bsr_indptr diag = arange (Manybody.h_nb_atoms f + 1) /\
    bsr_format (Manybody.h_nb_atoms f) (bsr_data diag) (bsr_indices diag)
      (bsr_indptr diag) /\
    length (bsr_data diag) = Manybody.h_nb_atoms f /\
    forall n D, bsr_data diag !! n = Some D -> forall x y,
      D x y = - gather (Manybody.h_i_p f) (map (fun m : mat3 => m x y) (bsr_data off)) n.
Proof.
  intros Htr Hb Hli Hlj HN Hown Hf0 HfN.
  assemble_head f H Htr Hb Ht Hsym.
  rewrite decide_True by reflexivity.
  destruct (hessian_diagonal_spec (Manybody.h_nb_atoms f) (Manybody.h_i_p f) (aadd H Ht))
    as (H_acc & Hd & Hlen & Hspec);
    [destruct Hsym as [-> _]; exact Hli | exact HN |].
  rewrite Hd. cbn [bind].
  eexists (aadd H Ht), _, _. split; [reflexivity|].
  split; [exact Hsym|]. cbn [bsr_data bsr_indices bsr_indptr].
  repeat (split; [reflexivity|]).
  split.
  { split; [unfold adiv; rewrite length_map; destruct Hsym as [-> _]; congruence|].
    split; [exact (proj1 Hown)|]. split; [exact Hf0|].
    exists (length H). split; [exact HfN | lia]. }
  repeat (split; [reflexivity|]).
  split.
  { unfold arange.
    split; [unfold adiv; rewrite length_map, Hlen, length_seq; reflexivity|].
    split; [rewrite length_seq; lia|].
    split; [apply (lookup_seq_lt 0); lia|].
    exists (Manybody.h_nb_atoms f).
    split; [apply (lookup_seq_lt 0); lia | rewrite length_seq; lia]. }
  split; [unfold adiv; rewrite length_map; exact Hlen|].
  intros n D HD x y. unfold adiv in HD. rewrite lookup_map in HD.
  destruct (H_acc !! n) as [M|] eqn:HM; [|discriminate]. injection HD as <-.
  change (scal (/ 2) M x y) with (/ 2 * M x y).
  rewrite (Hspec n M HM x y), adiv_component, gather_scal. lra.
Qed.

(** Translational invariance of the sparse Hessian of lines 287 to 307, for
    any value [H] of Term 1: with the contract of the neighbour list, the
    3 x 3 blocks of every block row of the returned matrix add up to
    zero. *)
Theorem hessian_sparse_row_sums f atoms H :
  length (Manybody.h_tr_p f) = length H ->
  Forall (fun q => (q < length H)%nat) (Manybody.h_tr_p f) ->
  length (Manybody.h_i_p f) = length H ->
  length (Manybody.h_j_p f) = length H ->
  Forall (fun j => (j < Manybody.h_nb_atoms f)%nat) (Manybody.h_j_p f) ->
  bincount_length (Manybody.h_i_p f) 0 = Manybody.h_nb_atoms f ->
  owner_ranges (Manybody.h_nb_atoms f) (Manybody.h_first_n f) (Manybody.h_i_p f) ->
  exists M,
    Manybody.hessian_assemble f atoms H "sparse" false = Ok (HessianSparse M) /\
    forall a, (a < Manybody.h_nb_atoms f)%nat ->
      forall x y, block_row_sum M (Manybody.h_nb_atoms f) a x y = 0.
Proof.
  intros Htr Hb Hli Hlj Hj HN Hown.
  assemble_head f H Htr Hb Ht Hsym.
  rewrite decide_True by reflexivity.
  destruct Hsym as [Hls _].
  destruct (hessian_diagonal_spec (Manybody.h_nb_atoms f) (Manybody.h_i_p f) (aadd H Ht))
    as (H_acc & Hd & Hlen & Hspec); [congruence | exact HN |].
  rewrite Hd. cbn [bind].
  eexists. split; [reflexivity|].
  intros a Ha x y.
  apply (hessian_row_sums _ (Manybody.h_i_p f)); try assumption; congruence.
Qed.

(** The neighbour-list Hessian of lines 287 and 311, for any value [H] of
    Term 1: the call returns, with the pair arrays, the halved symmetrized
    blocks: the block of pair [p] is half the sum of block [p] of [H] and
    the transpose of the block of the reversed pair of [p].  The blocks of
    a pair and of its reversed pair are then transposes of one another. *)
Theorem hessian_neighbour_list_symmetric f atoms H divide_by_masses :
  length (Manybody.h_tr_p f) = length H ->
  Forall (fun q => (q < length H)%nat) (Manybody.h_tr_p f) ->
  exists Hs,
    Manybody.hessian_assemble f atoms H "neighbour-list" divide_by_masses
      = Ok (HessianNeighbourList (adiv Hs 2) (Manybody.h_i_p f) (Manybody.h_j_p f)
              (Manybody.h_r_pc f) (Manybody.h_r_p f)) /\
    symmetrized (Manybody.h_tr_p f) H Hs /\
    length (adiv Hs 2) = length H /\
    (forall p, (p < length H)%nat ->
       exists q m mq B,
         Manybody.h_tr_p f !! p = Some q /\ H !! p = Some m /\ H !! q = Some mq /\
         adiv Hs 2 !! p = Some B /\
         forall x y, B x y = (m x y + mq y x) / 2) /\
    forall p q Bp Bq,
      Manybody.h_tr_p f !! p = Some q -> Manybody.h_tr_p f !! q = Some p ->
      adiv Hs 2 !! p = Some Bp -> adiv Hs 2 !! q = Some Bq ->
      forall x y, Bq x y = Bp y x.
Proof.
  intros Htr Hb.
  assemble_head f H Htr Hb Ht Hsym.
  rewrite decide_False by discriminate. rewrite decide_True by reflexivity.
  exists (aadd H Ht). split; [reflexivity|]. split; [exact Hsym|].
  destruct Hsym as [Hls Hsym].
  split; [unfold adiv; rewrite length_map; exact Hls|].
  split.
  - intros p Hp.
    destruct (lookup_lt_is_Some_2 (Manybody.h_tr_p f) p) as [q Hq]; [lia|].
    destruct (lookup_lt_is_Some_2 H p) as [m Hm]; [exact Hp|].
    assert (Hq' : (q < length H)%nat).
    { rewrite Forall_forall in Hb. apply Hb. eapply list_elem_of_lookup_2; exact Hq. }
    destruct (lookup_lt_is_Some_2 H q) as [mq Hmq]; [exact Hq'|].
    eexists q, m, mq, _. repeat (split; [eassumption|]).
    split; [unfold adiv; rewrite lookup_map, (Hsym p q m mq Hq Hm Hmq); reflexivity|].
    intros x y. unfold transpose. cbn. lra.
  - intros p q Bp Bq Hpq Hqp HBp HBq x y.
    unfold adiv in HBp, HBq. rewrite lookup_map in HBp, HBq.
    destruct (lookup_lt_is_Some_2 H p) as [m Hm];
      [rewrite <- Htr; eapply lookup_lt_Some; exact Hpq|].
    destruct (lookup_lt_is_Some_2 H q) as [mq Hmq];
      [rewrite <- Htr; eapply lookup_lt_Some; exact Hqp|].
    rewrite (Hsym p q m mq Hpq Hm Hmq) in HBp.
    rewrite (Hsym q p mq m Hqp Hmq Hm) in HBq.
    injection HBp as <-. injection HBq as <-.
    unfold transpose. cbn. lra.
Qed.

(** Line 294 calls [np.bincount] without [minlength]: when the atoms of
    highest index own no pair (and the bins are not a single one), the
    sparse Hessian is not returned; the assignment of the diagonal blocks
    raises a value error. *)
Theorem hessian_sparse_isolated_atom f atoms H divide_by_masses :
  length (Manybody.h_tr_p f) = length H ->
  Forall (fun q => (q < length H)%nat) (Manybody.h_tr_p f) ->
  length (Manybody.h_i_p f) = length H ->
  bincount_length (Manybody.h_i_p f) 0 <> Manybody.h_nb_atoms f ->
  bincount_length (Manybody.h_i_p f) 0 <> 1%nat ->
  Manybody.hessian_assemble f atoms H "sparse" divide_by_masses = Raise ValueError.
Proof.
  intros Htr Hb Hli HN H1.
  assemble_head f H Htr Hb Ht Hsym.
  rewrite decide_True by reflexivity.
  rewrite hessian_diagonal_short; try assumption; [reflexivity|].
  destruct Hsym as [-> _]. exact Hli.
Qed.

(** A format other than "sparse" and "neighbour-list" is not rejected: after
    the symmetrisation the call falls off the end of the function and
    returns [None]. *)
Theorem hessian_unknown_format f atoms H format divide_by_masses :
  length (Manybody.h_tr_p f) = length H ->
  Forall (fun q => (q < length H)%nat) (Manybody.h_tr_p f) ->
  format <> "sparse" -> format <> "neighbour-list" ->
  Manybody.hessian_assemble f atoms H format divide_by_masses = Ok HessianNone.
Proof.
  intros Htr Hb Hs Hn.
  assemble_head f H Htr Hb Ht Hsym.
  rewrite !decide_False by assumption. reflexivity.
Qed.

Lemma asum_map_scal c (w : list R) : asum (map (Rmult c) w) = c * asum w.
Proof.
  induction w as [|x w IH]; simpl map; rewrite ?asum_nil, ?asum_cons; [lra|].
  rewrite IH. lra.
Qed.

Lemma assign_broadcast_single {A : Type} n (x : A) :
  assign_broadcast n [x] = Ok (replicate n x).
Proof.
  unfold assign_broadcast. case_decide as Hn; [|reflexivity].
  simpl in Hn. subst n. reflexivity.
Qed.

Lemma bincount_length_zeros x :
  x <> [] -> Forall (fun i => i = 0%nat) x -> bincount_length x 0 = 1%nat.
Proof.
  intros Hne Hx. induction Hx as [|i x -> Hx IH]; [congruence|].
  change (bincount_length (0%nat :: x) 0) with (Nat.max 1 (bincount_length x 0)).
  destruct x as [|j x]; [reflexivity|]. rewrite IH by discriminate. reflexivity.
Qed.

(** One assignment of the loop when [np.bincount] returns a single bin:
    the bin is broadcast to the blocks of all atoms. *)
Lemma hessian_diagonal_step_single S N i_p H H_acc x y :
  length i_p = length H -> bincount_length i_p 0 = 1%nat ->
  length H_acc = N /\
  (forall n M, H_acc !! n = Some M -> forall x y, In (x, y) S ->
     M x y = - gather i_p (map (fun m : mat3 => m x y) H) 0) ->
  exists b v,
    bincount i_p (map (fun m : mat3 => m x y) H) 0 = Ok b /\
    assign_broadcast N (map Ropp b) = Ok v /\
    length (Manybody.set_component H_acc x y v) = N /\
    (forall n M, Manybody.set_component H_acc x y v !! n = Some M ->
       forall x' y', In (x', y') ((x, y) :: S) ->
       M x' y' = - gather i_p (map (fun m : mat3 => m x' y') H) 0).
Proof.
  intros Hl H1 [Hlen Hinv].
  destruct (bincount_total i_p (map (fun m : mat3 => m x y) H) 0%nat) as [b Hb];
    [rewrite length_map; exact Hl|].
  destruct (bincount_Ok_length _ _ _ _ Hb) as [Hlb _]. rewrite H1 in Hlb.
  destruct b as [|b0 [|b1 b]]; try discriminate.
  pose proof (bincount_lookup _ _ _ _ 0%nat Hb (Nat.lt_0_succ 0)) as Hb0.
  simpl in Hb0. injection Hb0 as Hb0.
  exists [b0], (replicate N (- b0)). split; [exact Hb|].
  split; [apply assign_broadcast_single|].
  split; [rewrite set_component_length; rewrite ?length_replicate; congruence|].
  intros n M HM x' y' Hin.
  apply set_component_lookup in HM as (m & vn & Hm & Hvn & Hxy & Hother).
  apply lookup_replicate in Hvn as [-> _].
  destruct (decide ((x', y') = (x, y))) as [Heq|Hne].
  - injection Heq as -> ->. rewrite Hxy, Hb0. reflexivity.
  - rewrite (Hother _ _ Hne). apply (Hinv n m Hm).
    destruct Hin as [Hin|Hin]; [congruence | exact Hin].
Qed.

Ltac diag_step_single Hstep x y :=
  match goal with
  | J : length ?A = _ /\ _ |- _ =>
      let b := fresh "b" in
      let v := fresh "v" in
      let Hb := fresh "Hb" in
      let Hv := fresh "Hv" in
      let J1 := fresh "J" in
      let J2 := fresh "J" in
      destruct (Hstep _ A x y J) as (b & v & Hb & Hv & J1 & J2);
      pose proof (conj J1 J2);
      clear J J1 J2; rewrite Hb; cbn [bind]; rewrite Hv; cbn [bind]; clear Hb Hv
  end.

Lemma hessian_diagonal_single N i_p H :
  length i_p = length H -> bincount_length i_p 0 = 1%nat ->
  exists H_acc,
    Manybody.hessian_diagonal N i_p H = Ok H_acc /\
    length H_acc = N /\
    forall n M, H_acc !! n = Some M -> forall x y,
      M x y = - gather i_p (map (fun m : mat3 => m x y) H) 0.
Proof.
  intros Hl H1.
  pose proof (fun S H_acc x y =>
                hessian_diagonal_step_single S N i_p H H_acc x y Hl H1) as Hstep.
  unfold Manybody.hessian_diagonal, carts. cbn [Manybody.for_each].
  assert (J : length (replicate N (zero : mat3)) = N /\
              (forall n M, replicate N (zero : mat3) !! n = Some M ->
                 forall x y, In (x, y) [] ->
                 M x y = - gather i_p (map (fun m : mat3 => m x y) H) 0))
    by (split; [apply length_replicate | intros n M _ x y []]).
  diag_step_single Hstep cx cx. diag_step_single Hstep cx cy. diag_step_single Hstep cx cz.
  diag_step_single Hstep cy cx. diag_step_single Hstep cy cy. diag_step_single Hstep cy cz.
  diag_step_single Hstep cz cx. diag_step_single Hstep cz cy. diag_step_single Hstep cz cz.
  match goal with J' : length _ = _ /\ _ |- _ => destruct J' as [Hlen Hinv] end.
  eexists. split; [reflexivity|]. split; [exact Hlen|].
  intros n M HM x y. apply (Hinv n M HM).
  destruct x, y; simpl; tauto.
Qed.

(** When atom 0 owns every pair, [np.bincount] of line 294 returns one bin
    whatever the number of atoms, and the assignment broadcasts it: the
    sparse Hessian is returned, with the diagonal block of every atom equal
    to minus the sum of all stored pair blocks. *)
Theorem hessian_sparse_single_owner f atoms H :
  length (Manybody.h_tr_p f) = length H ->
  Forall (fun q => (q < length H)%nat) (Manybody.h_tr_p f) ->
  length (Manybody.h_i_p f) = length H ->
  Manybody.h_i_p f <> [] ->
  Forall (fun i => i = 0%nat) (Manybody.h_i_p f) ->
  exists off diag,
    Manybody.hessian_assemble f atoms H "sparse" false
      = Ok (HessianSparse (SparseAdd (Bsr off) (Bsr diag))) /\
    length (bsr_data diag) = Manybody.h_nb_atoms f /\
    forall n D, bsr_data diag !! n = Some D -> forall x y,
      D x y = - asum (map (fun m : mat3 => m x y) (bsr_data off)).
Proof.
  intros Htr Hb Hli Hne H0.
  assemble_head f H Htr Hb Ht Hsym.
  rewrite decide_True by reflexivity.
  destruct Hsym as [Hls _].
  destruct (hessian_diagonal_single (Manybody.h_nb_atoms f) (Manybody.h_i_p f) (aadd H Ht))
    as (H_acc & Hd & Hlen & Hspec);
    [congruence | apply bincount_length_zeros; assumption |].
  rewrite Hd. cbn [bind].
  eexists _, _. split; [reflexivity|]. cbn [bsr_data].
  split; [unfold adiv; rewrite length_map; exact Hlen|].
  intros n D HD x y. unfold adiv in HD. rewrite lookup_map in HD.
  destruct (H_acc !! n) as [M|] eqn:HM; [|discriminate]. injection HD as <-.
  change (scal (/ 2) M x y) with (/ 2 * M x y).
  rewrite (Hspec n M HM x y).
  fold (adiv (aadd H Ht) 2). rewrite adiv_component, asum_map_scal.
  set (w := map (fun m : mat3 => m x y) (aadd H Ht)).
  assert (Hg : gather (Manybody.h_i_p f) w 0 = asum w).
  { rewrite (gather_range (Manybody.h_i_p f) w 0%nat 0%nat (length (Manybody.h_i_p f))).
    - unfold slice. rewrite drop_0, Nat.sub_0_r.
      rewrite firstn_all2 by (unfold w; rewrite !length_map; lia). reflexivity.
    - unfold w. rewrite !length_map. congruence.
    - lia.
    - intros k i Hk. rewrite Forall_forall in H0.
      split.
      + intros _. split; [lia|]. eapply lookup_lt_Some; exact Hk.
      + intros _. apply H0. eapply list_elem_of_lookup_2; exact Hk. }
  rewrite Hg. lra.
Qed.

(** *** The assembly on the dimer *)

Lemma dimer_hessian_fields :
  exists f,
    Manybody.hessian_fields (nb := Example.dimer_neighbours)
      (new Example.potential) Example.dimer = Ok f /\
    Manybody.h_tr_p f = [1; 0]%nat /\ Manybody.h_i_p f = [0; 1]%nat /\
    Manybody.h_j_p f = [1; 0]%nat /\ Manybody.h_first_n f = [0; 1; 2]%nat /\
    Manybody.h_nb_atoms f = 2%nat.
Proof. eexists. repeat split; reflexivity. Defined.

Lemma dimer_owner_ranges : owner_ranges 2 [0; 1; 2]%nat [0; 1]%nat.
Proof.
  split; [reflexivity|]. intros a lo hi Hlo Hhi.
  destruct a as [|[|a]]; simpl in Hlo, Hhi; try discriminate;
    injection Hlo as <-; injection Hhi as <-; (split; [lia|]);
    intros k i Hk; destruct k as [|[|k]]; simpl in Hk; try discriminate;
    injection Hk as <-; lia.
Defined.

Lemma hessian_sparse_diagonal_witness :
  exists f Hs off diag,
    Manybody.hessian_fields (nb := Example.dimer_neighbours)
      (new Example.potential) Example.dimer = Ok f /\
    Manybody.hessian_assemble f Example.dimer Example.term_1_blocks "sparse" false
      = Ok (HessianSparse (SparseAdd (Bsr off) (Bsr diag))) /\
    symmetrized [1; 0]%nat Example.term_1_blocks Hs /\
    bsr_data off = adiv Hs 2 /\
    bsr_indices off = [1; 0]%nat /\
    bsr_indptr off = [0; 1; 2]%nat /\
    length (bsr_data diag) = 2%nat /\
    forall n D, bsr_data diag !! n = Some D -> forall x y,
      D x y = - gather [0; 1]%nat (map (fun m : mat3 => m x y) (bsr_data off)) n.
Proof.
  destruct dimer_hessian_fields as (f & Hf & Htr & Hi & Hj & Hfn & HN).
  destruct (hessian_sparse_diagonal f Example.dimer Example.term_1_blocks)
    as (Hs & off & diag & Ha & Hsym & Hoff & Hind & Hptr & _ & _ & _ & _ & Hlen & Hd);
    rewrite ?Htr, ?Hi, ?Hj, ?Hfn, ?HN in *.
  - reflexivity.
  - repeat (constructor; [simpl; lia|]). constructor.
  - reflexivity.
  - reflexivity.
  - reflexivity.
  - exact dimer_owner_ranges.
  - reflexivity.
  - reflexivity.
  - exists f, Hs, off, diag. repeat (split; [assumption|]). exact Hd.
Defined.

Lemma hessian_sparse_row_sums_witness :
  exists f M,
    Manybody.hessian_fields (nb := Example.dimer_neighbours)
      (new Example.potential) Example.dimer = Ok f /\
    Manybody.hessian_assemble f Example.dimer Example.term_1_blocks "sparse" false
      = Ok (HessianSparse M) /\
    forall a, (a < 2)%nat -> forall x y, block_row_sum M 2 a x y = 0.
Proof.
  destruct dimer_hessian_fields as (f & Hf & Htr & Hi & Hj & Hfn & HN).
  destruct (hessian_sparse_row_sums f Example.dimer Example.term_1_blocks)
    as (M & Ha & Hrows); rewrite ?Htr, ?Hi, ?Hj, ?Hfn, ?HN in *.
  - reflexivity.
  - repeat (constructor; [simpl; lia|]). constructor.
  - reflexivity.
  - reflexivity.
  - repeat (constructor; [simpl; lia|]). constructor.
  - reflexivity.
  - exact dimer_owner_ranges.
  - exists f, M. repeat (split; [assumption|]). exact Hrows.
Defined.

Lemma hessian_neighbour_list_symmetric_witness :
  exists f Hs,
    Manybody.hessian_fields (nb := Example.dimer_neighbours)
      (new Example.potential) Example.dimer = Ok f /\
    Manybody.hessian_assemble f Example.dimer Example.term_1_blocks "neighbour-list" false
      = Ok (HessianNeighbourList (adiv Hs 2) (Manybody.h_i_p f) (Manybody.h_j_p f)
              (Manybody.h_r_pc f) (Manybody.h_r_p f)) /\
    symmetrized [1; 0]%nat Example.term_1_blocks Hs /\
    forall Bp Bq, adiv Hs 2 !! 0%nat = Some Bp -> adiv Hs 2 !! 1%nat = Some Bq ->
      forall x y, Bq x y = Bp y x.
Proof.
  destruct dimer_hessian_fields as (f & Hf & Htr & Hi & Hj & Hfn & HN).
  destruct (hessian_neighbour_list_symmetric f Example.dimer Example.term_1_blocks false)
    as (Hs & Ha & Hsy & _ & _ & Hsym).
  - rewrite Htr. reflexivity.
  - rewrite Htr. repeat (constructor; [simpl; lia|]). constructor.
  - exists f, Hs. rewrite Htr in Hsy. repeat (split; [assumption|]).
    intros Bp Bq. apply (Hsym 0%nat 1%nat); rewrite Htr; reflexivity.
Defined.

Lemma hessian_unknown_format_witness :
  exists f,
    Manybody.hessian_fields (nb := Example.dimer_neighbours)
      (new Example.potential) Example.dimer = Ok f /\
    Manybody.hessian_assemble f Example.dimer Example.term_1_blocks "dense" false
      = Ok HessianNone.
Proof.
  destruct dimer_hessian_fields as (f & Hf & Htr & Hi & Hj & Hfn & HN).
  exists f. split; [exact Hf|].
  apply hessian_unknown_format.
  - rewrite Htr. reflexivity.
  - rewrite Htr. repeat (constructor; [simpl; lia|]). constructor.
  - discriminate.
  - discriminate.
Defined.

Lemma hessian_sparse_isolated_atom_witness :
  exists f,
    Manybody.hessian_fields (nb := Example.dimer_and_atom_neighbours)
      (new Example.potential) Example.dimer_and_atom = Ok f /\
    Manybody.hessian_assemble f Example.dimer_and_atom Example.term_1_blocks "sparse" false
      = Raise ValueError.
Proof.
  assert (E : exists f,
    Manybody.hessian_fields (nb := Example.dimer_and_atom_neighbours)
      (new Example.potential) Example.dimer_and_atom = Ok f /\
    Manybody.h_tr_p f = [1; 0]%nat /\ Manybody.h_i_p f = [0; 1]%nat /\
    Manybody.h_nb_atoms f = 3%nat) by (eexists; repeat split; reflexivity).
  destruct E as (f & Hf & Htr & Hi & HN).
  exists f. split; [exact Hf|].
  apply hessian_sparse_isolated_atom; rewrite ?Htr, ?Hi, ?HN.
  - reflexivity.
  - repeat (constructor; [simpl; lia|]). constructor.
  - reflexivity.
  - simpl. lia.
  - simpl. lia.
Defined.

Lemma hessian_sparse_single_owner_witness :
  exists f off diag,
    Manybody.hessian_fields (nb := Example.self_image_neighbours)
      (new Example.potential) Example.far_pair = Ok f /\
    Manybody.h_nb_atoms f = 2%nat /\
    Manybody.hessian_assemble f Example.far_pair Example.term_1_blocks "sparse" false
      = Ok (HessianSparse (SparseAdd (Bsr off) (Bsr diag))) /\
    length (bsr_data diag) = 2%nat /\
    forall n D, bsr_data diag !! n = Some D -> forall x y,
      D x y = - asum (map (fun m : mat3 => m x y) (bsr_data off)).
Proof.
  assert (E : exists f,
    Manybody.hessian_fields (nb := Example.self_image_neighbours)
      (new Example.potential) Example.far_pair = Ok f /\
    Manybody.h_tr_p f = [1; 0]%nat /\ Manybody.h_i_p f = [0; 0]%nat /\
    Manybody.h_nb_atoms f = 2%nat) by (eexists; repeat split; reflexivity).
  destruct E as (f & Hf & Htr & Hi & HN).
  destruct (hessian_sparse_single_owner f Example.far_pair Example.term_1_blocks)
    as (off & diag & Ha & Hlen & Hd); rewrite ?Htr, ?Hi, ?HN in *.
  - reflexivity.
  - repeat (constructor; [simpl; lia|]). constructor.
  - reflexivity.
  - discriminate.
  - repeat (constructor; [reflexivity|]). constructor.
  - exists f, off, diag. repeat (split; [assumption|]). exact Hd.
Defined.

(** C5: on the trimer, in either output format, [get_hessian] raises the
    name error for [R_p] before a block of the Hessian is assembled: no
    diagonal block and no symmetrized off-diagonal block is produced. *)
Theorem get_hessian_stops_at_R_p term_1 format divide_by_masses :
  Manybody.get_hessian (nb := Example.trimer_neighbours) term_1
    (new Example.potential) Example.trimer format divide_by_masses
  = Raise (NameError "R_p").
Proof. reflexivity. Qed.

(** ** Non-affine contribution to the elastic constants *)

Section NonAffineProperties.
Context {solver : Manybody.Solver}.

Lemma symmetrize_symmetric (C : ten4) a b c d :
  Manybody.symmetrize C a b c d = Manybody.symmetrize C b a c d /\
  Manybody.symmetrize C a b c d = Manybody.symmetrize C a b d c /\
  Manybody.symmetrize C a b c d = Manybody.symmetrize C b a d c.
Proof. unfold Manybody.symmetrize. repeat split; lra. Qed.

(** C8: the tensor returned by
    [get_non_affine_contribution_to_elastic_constants], on the
    eigendecomposition path and on the conjugate-gradient path, is the
    tensor of the path symmetrized over the four index-pair swaps, then
    negated and divided by the cell volume; the returned tensor satisfies
    C[a,b,c,d] = C[b,a,c,d] = C[a,b,d,c] = C[b,a,d,c]. *)
Theorem non_affine_contribution_symmetric calc atoms eigenvalues eigenvectors tol C :
  Manybody.get_non_affine_contribution_to_elastic_constants
    calc atoms eigenvalues eigenvectors tol = Ok C ->
  (exists C0,
     match eigenvalues, eigenvectors with
     | Some values, Some vectors => Manybody.eigen_branch calc atoms values vectors
     | _, _ => (Manybody.cg_branch calc atoms tol).2
     end = Ok C0 /\
     forall a b c d,
       C a b c d =
       - ((C0 a b c d + C0 b a c d + C0 a b d c + C0 b a d c) / 4) / volume atoms) /\
  forall a b c d,
    C a b c d = C b a c d /\ C a b c d = C a b d c /\ C a b c d = C b a d c.
Proof.
  unfold Manybody.get_non_affine_contribution_to_elastic_constants.
  intros H. inv_bind H. injection H as <-. split.
  - exists v. split; [exact E|]. intros a b c d. reflexivity.
  - intros a b c d.
    destruct (symmetrize_symmetric v a b c d) as (H1 & H2 & H3).
    rewrite <- H1, <- H2, <- H3. auto.
Qed.

Lemma NoDup_firstn {A : Type} (l : list A) n : NoDup l -> NoDup (firstn n l).
Proof.
  intros Hl. rewrite <- (firstn_skipn n l) in Hl.
  apply NoDup_app in Hl as (H & _ & _). exact H.
Qed.

(** The loop stops at the first solve that does not converge. *)
Lemma cg_loop_fails H_nn naforces_icab tol rows todo D_iab k ij :
  todo !! k = Some ij ->
  solve_fails H_nn naforces_icab tol ij ->
  (forall k' ij', (k' < k)%nat -> todo !! k' = Some ij' ->
     solve_succeeds H_nn naforces_icab tol rows ij') ->
  Manybody.cg_loop H_nn naforces_icab tol rows todo D_iab
  = (firstn (S k) todo, Raise (RuntimeError Manybody.cg_message)).
Proof.
  revert k D_iab; induction todo as [|[i j] todo IH]; intros k D_iab Hk Hf Hs;
    [discriminate|].
  destruct k as [|k]; simpl in Hk.
  - injection Hk as <-. unfold solve_fails in Hf. simpl in Hf. simpl.
    destruct (Manybody.cg H_nn (Manybody.naforces_column naforces_icab i j) tol)
      as [x info]. simpl in Hf.
    rewrite decide_True by exact Hf. reflexivity.
  - destruct (Hs 0%nat (i, j)) as [H0 [v Hv]]; [lia | reflexivity |].
    simpl in H0, Hv. simpl.
    destruct (Manybody.cg H_nn (Manybody.naforces_column naforces_icab i j) tol)
      as [x info]. simpl in H0, Hv. subst info.
    rewrite decide_False by (intros Hne; apply Hne; reflexivity).
    rewrite Hv.
    rewrite (IH k (Manybody.set_component D_iab i j v) Hk Hf); [reflexivity|].
    intros k' ij' Hlt Hk'. apply (Hs (S k') ij'); [lia | exact Hk'].
Qed.

(** C7, as amended: when a conjugate-gradient solve of
    [get_non_affine_contribution_to_elastic_constants] does not converge
    (the solves of the earlier strain components having converged), the call
    fails with a runtime error; the systems handed to the solver are the
    strain components up to and including the failing one, each once, so no
    solve is repeated.  The error is one fixed message, whatever the exit
    code of the solver: it names both reasons and does not say which one
    occurred. *)
Theorem cg_failure_is_fatal calc atoms tol eigenvalues eigenvectors H_nn naforces_icab
    k ij :
  eigenvalues = None \/ eigenvectors = None ->
  Manybody.calc_get_hessian calc atoms "sparse" = Ok H_nn ->
  Manybody.calc_get_non_affine_forces calc atoms = Ok naforces_icab ->
  Manybody.strain_indices !! k = Some ij ->
  solve_fails H_nn naforces_icab tol ij ->
  (forall k' ij', (k' < k)%nat -> Manybody.strain_indices !! k' = Some ij' ->
     solve_succeeds H_nn naforces_icab tol (3 * len atoms) ij') ->
  Manybody.get_non_affine_contribution_to_elastic_constants
    calc atoms eigenvalues eigenvectors tol
  = Raise (RuntimeError Manybody.cg_message) /\
  Manybody.cg_solves calc atoms eigenvalues eigenvectors tol
  = firstn (S k) Manybody.strain_indices /\
  NoDup (Manybody.cg_solves calc atoms eigenvalues eigenvectors tol).
Proof.
  intros Hnone HH HF Hk Hf Hs.
  assert (Hb : Manybody.cg_branch calc atoms tol
               = (firstn (S k) Manybody.strain_indices,
                  Raise (RuntimeError Manybody.cg_message))).
  { unfold Manybody.cg_branch. rewrite HH, HF.
    rewrite (cg_loop_fails _ _ _ _ _ _ k ij Hk Hf Hs). reflexivity. }
  assert (Hsolves : Manybody.cg_solves calc atoms eigenvalues eigenvectors tol
                    = firstn (S k) Manybody.strain_indices).
  { unfold Manybody.cg_solves.
    destruct Hnone as [-> | ->]; [|destruct eigenvalues]; rewrite Hb; reflexivity. }
  split; [|split; [exact Hsolves|]].
  - unfold Manybody.get_non_affine_contribution_to_elastic_constants.
    destruct Hnone as [-> | ->]; [|destruct eigenvalues]; rewrite Hb; reflexivity.
  - rewrite Hsolves. apply NoDup_firstn.
    apply NoDup_ListNoDup. unfold Manybody.strain_indices. simpl.
    repeat (constructor; [simpl; intuition discriminate|]). constructor.
Qed.

Lemma cg_loop_succeeds H_nn naforces_icab tol rows todo D_iab :
  (forall ij, ij ∈ todo -> solve_succeeds H_nn naforces_icab tol rows ij) ->
  exists D, Manybody.cg_loop H_nn naforces_icab tol rows todo D_iab = (todo, Ok D).
Proof.
  revert D_iab; induction todo as [|[i j] todo IH]; intros D_iab Hs; simpl; [eauto|].
  destruct (Hs (i, j)) as [H0 [v Hv]]; [left|]. simpl in H0, Hv.
  destruct (Manybody.cg H_nn (Manybody.naforces_column naforces_icab i j) tol)
    as [x info]. simpl in H0, Hv. subst info.
  rewrite decide_False by (intros Hne; apply Hne; reflexivity).
  rewrite Hv.
  destruct (IH (Manybody.set_component D_iab i j v)) as [D HD];
    [intros ij Hin; apply Hs; right; exact Hin|].
  rewrite HD. eauto.
Qed.

(** When the Hessian and the non-affine forces are available and every
    conjugate-gradient solve converges, the call returns, and it has handed
    the nine strain components to the solver, each once, in the order of
    the two loops. *)
Theorem cg_path_solves_nine calc atoms tol eigenvalues eigenvectors H_nn naforces_icab :
  eigenvalues = None \/ eigenvectors = None ->
  Manybody.calc_get_hessian calc atoms "sparse" = Ok H_nn ->
  Manybody.calc_get_non_affine_forces calc atoms = Ok naforces_icab ->
  length naforces_icab = len atoms ->
  (forall ij, ij ∈ Manybody.strain_indices ->
     solve_succeeds H_nn naforces_icab tol (3 * len atoms) ij) ->
  (exists C,
     Manybody.get_non_affine_contribution_to_elastic_constants
       calc atoms eigenvalues eigenvectors tol = Ok C) /\
  Manybody.cg_solves calc atoms eigenvalues eigenvectors tol
  = [ (cx, cx); (cx, cy); (cx, cz); (cy, cx); (cy, cy); (cy, cz);
      (cz, cx); (cz, cy); (cz, cz) ].
Proof.
  intros Hnone HH HF Hl Hs.
  destruct (cg_loop_succeeds H_nn naforces_icab tol (3 * len atoms)
              Manybody.strain_indices
              (replicate (3 * len atoms) (zero : mat3)) Hs) as [D HD].
  assert (Hb : exists C, Manybody.cg_branch calc atoms tol
                         = (Manybody.strain_indices, Ok C)).
  { unfold Manybody.cg_branch. rewrite HH, HF, HD. cbn [bind].
    unfold Manybody.naforces_rows. rewrite decide_True by exact Hl. cbn [bind].
    eauto. }
  destruct Hb as [C0 Hb].
  split.
  - unfold Manybody.get_non_affine_contribution_to_elastic_constants.
    destruct Hnone as [-> | ->]; [|destruct eigenvalues]; rewrite Hb; cbn [bind snd];
      eauto.
  - unfold Manybody.cg_solves.
    destruct Hnone as [-> | ->]; [|destruct eigenvalues]; rewrite Hb; reflexivity.
Qed.

Section Unavailable.
Context {nb : Neighbours}.

(** With the calculator itself attached to the configuration, an instance
    built by the constructor never returns the non-affine contribution:
    with eigenvalues and eigenvectors the call ends in the error of
    [get_non_affine_forces], otherwise in the error of [get_hessian], before
    any linear system is solved. *)
Theorem non_affine_contribution_unavailable P a r term_1 atoms eigenvalues eigenvectors
    tol :
  Manybody.get_non_affine_contribution_to_elastic_constants
    (Manybody.attached term_1 (instance P a r)) atoms eigenvalues eigenvectors tol
  = match eigenvalues, eigenvectors with
    | Some _, Some _ =>
        match Manybody.non_affine_fields (instance P a r) atoms with
        | Ok _ => Raise (AttributeError "G")
        | Raise e => Raise e
        end
    | _, _ =>
        match Manybody.hessian_fields (instance P a r) atoms with
        | Ok _ => Raise (NameError "R_p")
        | Raise e => Raise e
        end
    end /\
  Manybody.cg_solves (Manybody.attached term_1 (instance P a r)) atoms
    eigenvalues eigenvectors tol = [].
Proof.
  assert (Hm : is_manybody P (instance P a r))
    by (apply is_manybody_results, is_manybody_atoms, is_manybody_new).
  assert (HG : instance P a r !! "G" = None)
    by (apply instance_lacks; repeat constructor).
  assert (Hcg : Manybody.cg_branch (Manybody.attached term_1 (instance P a r)) atoms tol
          = ([], match Manybody.hessian_fields (instance P a r) atoms with
                 | Ok _ => Raise (NameError "R_p")
                 | Raise e => Raise e
                 end)).
  { unfold Manybody.cg_branch.
    cbn [Manybody.attached Manybody.calc_get_hessian].
    rewrite (get_hessian_raises P term_1 _ atoms "sparse" false Hm).
    destruct (Manybody.hessian_fields (instance P a r) atoms); reflexivity. }
  assert (Heig : forall values vectors,
            Manybody.eigen_branch (Manybody.attached term_1 (instance P a r)) atoms
              values vectors
            = match Manybody.non_affine_fields (instance P a r) atoms with
              | Ok _ => Raise (AttributeError "G")
              | Raise e => Raise e
              end).
  { intros values vectors. unfold Manybody.eigen_branch.
    cbn [Manybody.attached Manybody.calc_get_non_affine_forces].
    rewrite (get_non_affine_forces_raises _ atoms HG).
    destruct (Manybody.non_affine_fields (instance P a r) atoms); reflexivity. }
  unfold Manybody.get_non_affine_contribution_to_elastic_constants, Manybody.cg_solves.
  destruct eigenvalues as [values|], eigenvectors as [vectors|];
    rewrite ?Heig, ?Hcg; cbn [snd fst];
    split; try reflexivity;
    first [ destruct (Manybody.non_affine_fields (instance P a r) atoms); reflexivity
          | destruct (Manybody.hessian_fields (instance P a r) atoms); reflexivity ].
Qed.

End Unavailable.

End NonAffineProperties.

Lemma non_affine_contribution_symmetric_witness :
  (exists C,
     Manybody.get_non_affine_contribution_to_elastic_constants
       (solver := Example.converging_solver)
       Example.dimer_calculator Example.dimer None None 1 = Ok C /\
     forall a b c d, C a b c d = C b a c d) /\
  (exists C,
     Manybody.get_non_affine_contribution_to_elastic_constants
       (solver := Example.converging_solver)
       Example.dimer_calculator Example.dimer
       (Some [1; 1; 1; 1; 1; 1])
       (Some [ [1; 0; 0; 0; 0; 0]; [0; 1; 0; 0; 0; 0]; [0; 0; 1; 0; 0; 0];
               [0; 0; 0; 1; 0; 0]; [0; 0; 0; 0; 1; 0]; [0; 0; 0; 0; 0; 1] ]) 1 = Ok C /\
     forall a b c d, C a b c d = C b a c d).
Proof.
  split.
  - assert (H : exists C,
       Manybody.get_non_affine_contribution_to_elastic_constants
         (solver := Example.converging_solver)
         Example.dimer_calculator Example.dimer None None 1 = Ok C)
      by (eexists; reflexivity).
    destruct H as [C HC]. exists C. split; [exact HC|]. intros a b c d.
    eapply (non_affine_contribution_symmetric (solver := Example.converging_solver)
              Example.dimer_calculator Example.dimer None None 1).
    exact HC.
  - assert (H : exists C,
       Manybody.get_non_affine_contribution_to_elastic_constants
         (solver := Example.converging_solver)
         Example.dimer_calculator Example.dimer
         (Some [1; 1; 1; 1; 1; 1])
         (Some [ [1; 0; 0; 0; 0; 0]; [0; 1; 0; 0; 0; 0]; [0; 0; 1; 0; 0; 0];
                 [0; 0; 0; 1; 0; 0]; [0; 0; 0; 0; 1; 0]; [0; 0; 0; 0; 0; 1] ]) 1 = Ok C)
      by (eexists; reflexivity).
    destruct H as [C HC]. exists C. split; [exact HC|]. intros a b c d.
    eapply (non_affine_contribution_symmetric (solver := Example.converging_solver)
              Example.dimer_calculator Example.dimer (Some _) (Some _) 1).
    exact HC.
Defined.

Lemma cg_path_solves_nine_witness :
  (exists C,
     Manybody.get_non_affine_contribution_to_elastic_constants
       (solver := Example.converging_solver)
       Example.dimer_calculator Example.dimer None None 1 = Ok C) /\
  Manybody.cg_solves (solver := Example.converging_solver)
    Example.dimer_calculator Example.dimer None None 1
  = [ (cx, cx); (cx, cy); (cx, cz); (cy, cx); (cy, cy); (cy, cz);
      (cz, cx); (cz, cy); (cz, cz) ].
Proof.
  apply (cg_path_solves_nine (solver := Example.converging_solver)
           Example.dimer_calculator Example.dimer 1 None None HessianNone _
           (or_introl eq_refl) eq_refl eq_refl eq_refl).
  intros [i j] _. split; [reflexivity|]. eexists. reflexivity.
Defined.

Lemma cg_failure_is_fatal_witness :
  Manybody.get_non_affine_contribution_to_elastic_constants
    (solver := Example.solver_with_info 1)
    Example.dimer_calculator Example.dimer None None 1
  = Raise (RuntimeError Manybody.cg_message) /\
  Manybody.cg_solves (solver := Example.solver_with_info 1)
    Example.dimer_calculator Example.dimer None None 1 = [(cx, cx)].
Proof.
  destruct (cg_failure_is_fatal (solver := Example.solver_with_info 1)
              Example.dimer_calculator Example.dimer 1 None None
              HessianNone _ 0%nat (cx, cx)
              (or_introl eq_refl) eq_refl eq_refl eq_refl) as (H1 & H2 & _).
  - unfold solve_fails. simpl. discriminate.
  - intros k' ij' Hlt. lia.
  - split; [exact H1 | exact H2].
Defined.

(** The error raised for a positive exit code (tolerance not achieved) and
    the error raised for a negative one are the same value. *)
Lemma cg_error_counterexample :
  Manybody.get_non_affine_contribution_to_elastic_constants
    (solver := Example.solver_with_info 1)
    Example.dimer_calculator Example.dimer None None 1
  = Raise (RuntimeError Manybody.cg_message) /\
  Manybody.get_non_affine_contribution_to_elastic_constants
    (solver := Example.solver_with_info (-1))
    Example.dimer_calculator Example.dimer None None 1
  = Raise (RuntimeError Manybody.cg_message).
Proof. split; reflexivity. Qed.
